(** * gittuf terminal console (package [tui]): model and verification

    A shallow embedding of [internal/cmd/tui]: the console state ([model]),
    its reducer ([Update]) and the form, list and overlay handlers, with the
    rule store and the bubbles widgets as interfaces.

    Conventions.
    - Go [int] values are [Z]; the only place where the 64-bit width matters
      is [strconv.Atoi], where the wrap-around is written out.
    - Go strings are byte strings: [string] here, one [ascii] per byte.
    - A slice is a [list]; [s[i]] out of range panics in Go and is [Panic]
      here.
    - The program is a bubbletea reducer: the runtime replaces its model by
      the one [Update] returns, so a slice mutated in place through the
      value receiver ([m.rules], [m.inputs]) is read back only through the
      returned model, which shares the mutated backing array.  The embedding
      returns the model with the mutated list. *)

From Stdlib Require Import ZArith String Ascii List Lia Bool.
From Stdlib Require Import DecimalString DecimalZ DecimalPos DecimalN.
From stdpp Require Import base tactics option list strings.

Import ListNotations.
Local Open Scope string_scope.
Local Open Scope Z_scope.

(** ** Go standard library: [strings] *)

Module strings.

(** [strings.Split(s, sep)] for a one-byte separator: the substrings
    between the separators, [Count(s, sep) + 1] of them. *)
Fixpoint Split (s : string) (sep : ascii) : list string :=
  match s with
  | EmptyString => [EmptyString]
  | String c s' =>
      if Ascii.eqb c sep then EmptyString :: Split s' sep
      else match Split s' sep with
           | [] => [String c EmptyString]
           | p :: ps => String c p :: ps
           end
  end.

(** [strings.Join(elems, sep)]. *)
Fixpoint Join (elems : list string) (sep : string) : string :=
  match elems with
  | [] => EmptyString
  | [e] => e
  | e :: rest => e +:+ sep +:+ Join rest sep
  end.

(** [unicode.IsSpace] on the UTF-8 encoding: the one-byte white space
    characters, and the two- and three-byte encodings of U+0085, U+00A0,
    U+1680, U+2000..U+200A, U+2028, U+2029, U+202F, U+205F and U+3000. *)
Definition isSpace1 (c : ascii) : bool :=
  let n := nat_of_ascii c in
  ((9 <=? n)%nat && (n <=? 13)%nat) || (n =? 32)%nat.

Definition isSpace2 (c1 c2 : ascii) : bool :=
  let n1 := nat_of_ascii c1 in
  let n2 := nat_of_ascii c2 in
  (n1 =? 194)%nat && ((n2 =? 133)%nat || (n2 =? 160)%nat).

Definition isSpace3 (c1 c2 c3 : ascii) : bool :=
  let n1 := nat_of_ascii c1 in
  let n2 := nat_of_ascii c2 in
  let n3 := nat_of_ascii c3 in
  ((n1 =? 225)%nat && (n2 =? 154)%nat && (n3 =? 128)%nat)
  || ((n1 =? 226)%nat && (n2 =? 128)%nat
      && (((128 <=? n3)%nat && (n3 <=? 138)%nat)
          || (n3 =? 168)%nat || (n3 =? 169)%nat || (n3 =? 175)%nat))
  || ((n1 =? 226)%nat && (n2 =? 129)%nat && (n3 =? 159)%nat)
  || ((n1 =? 227)%nat && (n2 =? 128)%nat && (n3 =? 128)%nat).

(** Leading white space removed, on the bytes of the string. *)
Fixpoint trimLeft (l : list ascii) : list ascii :=
  match l with
  | [] => []
  | c1 :: l1 =>
      if isSpace1 c1 then trimLeft l1
      else match l1 with
           | c2 :: l2 =>
               if isSpace2 c1 c2 then trimLeft l2
               else match l2 with
                    | c3 :: l3 => if isSpace3 c1 c2 c3 then trimLeft l3 else l
                    | [] => l
                    end
           | [] => l
           end
  end.

(** Trailing white space removed: the same scan on the reversed bytes,
    with each encoding read backwards. *)
Fixpoint trimLeftRev (l : list ascii) : list ascii :=
  match l with
  | [] => []
  | c1 :: l1 =>
      if isSpace1 c1 then trimLeftRev l1
      else match l1 with
           | c2 :: l2 =>
               if isSpace2 c2 c1 then trimLeftRev l2
               else match l2 with
                    | c3 :: l3 =>
                        if isSpace3 c3 c2 c1 then trimLeftRev l3 else l
                    | [] => l
                    end
           | [] => l
           end
  end.

Definition trimRight (l : list ascii) : list ascii :=
  rev (trimLeftRev (rev l)).

(** [strings.TrimSpace(s)]: leading white space is dropped first, then
    trailing white space. *)
Definition TrimSpace (s : string) : string :=
  string_of_list_ascii (trimRight (trimLeft (list_ascii_of_string s))).

(** [strings.Contains(s, ",")], used to state when a pattern survives
    a join followed by a split. *)
Fixpoint hasByte (s : string) (sep : ascii) : bool :=
  match s with
  | EmptyString => false
  | String c s' => Ascii.eqb c sep || hasByte s' sep
  end.

End strings.

(** ** Go standard library: [strconv] and [fmt] *)

Module strconv.

Inductive NumError := ErrSyntax | ErrRange.

Definition isDigit (c : ascii) : bool :=
  ((48 <=? nat_of_ascii c)%nat && (nat_of_ascii c <=? 57)%nat).

Definition maxUint64 : Z := 2 ^ 64 - 1.

(** The digit loop of [ParseUint(s, 10, 64)]: a byte that is no digit is a
    syntax error with value 0; an overflow stops the loop at once with the
    largest value and a range error.  [n1 < n] is the unsigned wrap-around
    test of the source. *)
Fixpoint parseUintLoop (s : string) (n : Z) : Z * option NumError :=
  match s with
  | EmptyString => (n, None)
  | String c s' =>
      if isDigit c then
        let d := Z.of_nat (nat_of_ascii c) - 48 in
        let cutoff := maxUint64 / 10 + 1 in
        if cutoff <=? n then (maxUint64, Some ErrRange)
        else
          let n := n * 10 in
          let n1 := (n + d) mod 2 ^ 64 in
          if (n1 <? n) || (maxUint64 <? n1) then (maxUint64, Some ErrRange)
          else parseUintLoop s' n1
      else (0, Some ErrSyntax)
  end.

Definition ParseUint (s : string) : Z * option NumError :=
  match s with
  | EmptyString => (0, Some ErrSyntax)
  | _ => parseUintLoop s 0
  end.

(** [ParseInt(s, 10, bitSize)]: the sign is picked off, the rest is
    unsigned; a value out of range is replaced by the bound of its sign. *)
Definition ParseInt (s : string) (bitSize : Z) : Z * option NumError :=
  match s with
  | EmptyString => (0, Some ErrSyntax)
  | String c rest =>
      let neg := Ascii.eqb c "-"%char in
      let digits := if Ascii.eqb c "+"%char || neg then rest else s in
      match ParseUint digits with
      | (_, Some ErrSyntax) => (0, Some ErrSyntax)
      | (un, _) =>
          let cutoff := 2 ^ (bitSize - 1) in
          if negb neg && (cutoff <=? un) then (cutoff - 1, Some ErrRange)
          else if neg && (cutoff <? un) then (- cutoff, Some ErrRange)
          else (if neg then - un else un, None)
      end
  end.

Definition intSize : Z := 64.

(** [strconv.Atoi(s)] is [ParseInt(s, 10, 0)] converted to [int]. *)
Definition Atoi (s : string) : Z * option NumError := ParseInt s intSize.

End strconv.

Module fmt.

(** [fmt.Sprintf("%d", n)]: the decimal digits of [n], with a minus sign
    when it is negative. *)
Definition Sprintf_d (n : Z) : string :=
  NilZero.string_of_int (Z.to_int n).

End fmt.

(** The value of a decimal numeral read after the digits of [acc]: what the
    digit loop computes on the numeral's digits. *)
Fixpoint uintZ (d : Decimal.uint) (acc : Z) : Z :=
  match d with
  | Decimal.Nil => acc
  | Decimal.D0 d => uintZ d (10 * acc)
  | Decimal.D1 d => uintZ d (10 * acc + 1)
  | Decimal.D2 d => uintZ d (10 * acc + 2)
  | Decimal.D3 d => uintZ d (10 * acc + 3)
  | Decimal.D4 d => uintZ d (10 * acc + 4)
  | Decimal.D5 d => uintZ d (10 * acc + 5)
  | Decimal.D6 d => uintZ d (10 * acc + 6)
  | Decimal.D7 d => uintZ d (10 * acc + 7)
  | Decimal.D8 d => uintZ d (10 * acc + 8)
  | Decimal.D9 d => uintZ d (10 * acc + 9)
  end.

(** ** The threshold field read as a decimal number

    The notions of the statements on the threshold: a field is a decimal
    number when it is an optional sign followed by one or more digits. *)

(** The field without its sign, and whether the sign is a minus. *)
Definition unsignedPart (s : string) : string :=
  match s with
  | String c rest =>
      if Ascii.eqb c "+"%char || Ascii.eqb c "-"%char then rest else s
  | EmptyString => EmptyString
  end.

Definition negative (s : string) : bool :=
  match s with
  | String c _ => Ascii.eqb c "-"%char
  | EmptyString => false
  end.

(** The digits a string starts with. *)
Fixpoint leadingDigits (s : string) : string :=
  match s with
  | String c s' =>
      if strconv.isDigit c then String c (leadingDigits s') else EmptyString
  | EmptyString => EmptyString
  end.

(** The number a string of digits denotes, read after the number [n]. *)
Fixpoint decimalValueFrom (n : Z) (digits : string) : Z :=
  match digits with
  | String c s' =>
      decimalValueFrom (n * 10 + (Z.of_nat (nat_of_ascii c) - 48)) s'
  | EmptyString => n
  end.

Definition decimalValue (digits : string) : Z := decimalValueFrom 0 digits.

Definition isDecimal (s : string) : bool :=
  negb (String.eqb (unsignedPart s) "")
  && String.eqb (leadingDigits (unsignedPart s)) (unsignedPart s).

(** The number a decimal field denotes. *)
Definition numberOf (s : string) : Z :=
  if negative s then - decimalValue (unsignedPart s)
  else decimalValue (unsignedPart s).

(** The nearest value of the range of [int]. *)
Definition clampInt (z : Z) : Z := Z.max (- 2 ^ 63) (Z.min (2 ^ 63 - 1) z).

(** The bound of [int] on the side of the sign of the field. *)
Definition boundOfSign (s : string) : Z :=
  if negative s then - 2 ^ 63 else 2 ^ 63 - 1.

(** The digits after the sign run over 64 bits before a character that is
    no digit is met, if there is one. *)
Definition digitsOverflow (s : string) : bool :=
  2 ^ 64 <=? decimalValue (leadingDigits (unsignedPart s)).

(** ** Data model (model.go) *)

Inductive screen :=
| screenChoice
| screenPolicy
| screenPolicyRules
| screenPolicyAddRule
| screenPolicyEditRule
| screenTrust
| screenTrustGlobalRules
| screenTrustAddGlobalRule
| screenTrustEditGlobalRule.

Record item := mkItem { title : string; desc : string }.

(** The two entities of the store, with the fields the console reads and
    writes ([rule{name, pattern, key}], [globalRule{ruleName, ruleType,
    rulePatterns, threshold}]). *)
Record rule := mkRule { name : string; pattern : string; key : string }.

Record globalRule := mkGlobalRule {
  ruleName : string;
  ruleType : string;
  rulePatterns : list string;
  threshold : Z
}.

(** Modelled from the spec: the constant [tuf.GlobalRuleThresholdType], which
    is declared outside the console package; the spec and the placeholder of
    the type field give its value. *)
Definition GlobalRuleThresholdType : string := "threshold".

(** The command line options the console receives ([o.readOnly],
    [o.policyName], [o.p.SigningKey]). *)
Record options := mkOptions {
  o_readOnly : bool;
  o_policyName : string;
  o_SigningKey : string
}.

(** Messages of the bubbletea runtime.  A key message is identified with its
    [String()]; [OtherMsg] stands for the ticks of the cursor. *)
Inductive Msg :=
| WindowSizeMsg (Width Height : Z)
| KeyMsg (s : string)
| OtherMsg (tag : nat).

(** Commands returned to the runtime: [nil], [tea.Quit], [textinput.Blink]
    and the commands of the widgets. *)
Inductive Cmd := nilCmd | Quit | Blink | WidgetCmd (tag : nat).

Inductive Style := noStyle | focusedStyle | blurredStyle | cursorStyle.

Inductive CursorMode := CursorBlink | CursorStatic | CursorHide.

(** [textinput.Model], with the fields the console sets. *)
Record textinput := mkTextinput {
  value : string;
  focus : bool;
  CursorStyle : Style;
  CharLimit : Z;
  Placeholder : string;
  Prompt : string;
  PromptStyle : Style;
  TextStyle : Style
}.

Record inputField := mkInputField { placeholder : string; prompt : string }.

(** *** The widget library (charmbracelet bubbles and lipgloss)

    The list widget is abstract: the console only builds it, sets its items
    and size, reads the selection and forwards messages to it.  Of the text
    input the console sets fields directly; what [SetValue] keeps of a string
    (it sanitises it and cuts it at [CharLimit] characters) and what
    [Update] does with a message belong to the library. *)
Class Bubbles := {
  listModel : Type;
  list_New : list item -> listModel;
  list_configure : string -> listModel -> listModel;
  list_SetSize : Z -> Z -> listModel -> listModel;
  list_SetItems : list item -> listModel -> listModel;
  list_SelectedItem : listModel -> option item;
  list_Index : listModel -> Z;
  list_Update : Msg -> listModel -> listModel * Cmd;
  textinput_kept : Z -> string -> string;
  textinput_Update : Msg -> textinput -> textinput * Cmd;
  lipgloss_frameSize : Z * Z
}.

(** *** The rule store (repository helpers of the package)

    The functions [getCurrRules], [getGlobalRules] and [repo*] read and write
    the policy of the repository on disk.  They are the external store of the
    console: their results are those of an arbitrary implementation over a
    repository state.  An error is represented by its message. *)
Inductive signerResult :=
| SignerLoaded
| ErrSigningKeyNotSpecified
| SignerError (e : string).

Class RuleStore := {
  repository : Type;
  LoadRepository : repository -> option string;
  LoadSigner : string -> repository -> signerResult;
  getCurrRules : options -> repository -> list rule;
  getGlobalRules : options -> repository -> list globalRule;
  repoAddRule :
    options -> rule -> list string -> repository -> repository * option string;
  repoUpdateRule :
    options -> rule -> list string -> repository -> repository * option string;
  repoRemoveRule : options -> rule -> repository -> repository * option string;
  repoReorderRules :
    options -> list rule -> repository -> repository * option string;
  repoAddGlobalRule :
    options -> globalRule -> repository -> repository * option string;
  repoUpdateGlobalRule :
    options -> globalRule -> repository -> repository * option string;
  repoRemoveGlobalRule :
    options -> globalRule -> repository -> repository * option string
}.

(** The calls made to the store, with their arguments, most recent first. *)
Inductive StoreCall :=
| CallGetCurrRules
| CallGetGlobalRules
| CallAddRule (r : rule) (authorizedKeys : list string)
| CallUpdateRule (r : rule) (authorizedKeys : list string)
| CallRemoveRule (r : rule)
| CallReorderRules (rs : list rule)
| CallAddGlobalRule (gr : globalRule)
| CallUpdateGlobalRule (gr : globalRule)
| CallRemoveGlobalRule (gr : globalRule).

(** A store call that writes. *)
Definition isMutation (c : StoreCall) : bool :=
  match c with
  | CallGetCurrRules | CallGetGlobalRules => false
  | _ => true
  end.

Section Console.

Context `{Bubbles} `{RuleStore}.

(** The state outside the model: the repository and the log of store calls. *)
Record world := mkWorld { repo : repository; calls : list StoreCall }.

(** A computation reads and writes the world and may panic (an index out of
    range). *)
Inductive outcome (A : Type) :=
| Done (a : A) (w : world)
| Panic.

#[global] Arguments Done {A} a w.
#[global] Arguments Panic {A}.

Definition M (A : Type) : Type := world -> outcome A.

Definition ret {A} (a : A) : M A := fun w => Done a w.

Definition bind {A B} (c : M A) (k : A -> M B) : M B :=
  fun w => match c w with
           | Done a w' => k a w'
           | Panic => Panic
           end.

Definition panic {A} : M A := fun _ => Panic.

Notation "'let*' x ':=' c 'in' k" := (bind c (fun x => k))
  (at level 10, x name, c at level 100, k at level 200).

(** A read of the store. *)
Definition fetch {A} (c : StoreCall) (f : repository -> A) : M A :=
  fun w => Done (f (repo w)) (mkWorld (repo w) (c :: calls w)).

(** A write to the store: the new repository state and the error, if any. *)
Definition mutate (c : StoreCall)
    (f : repository -> repository * option string) : M (option string) :=
  fun w => let (r, err) := f (repo w) in Done err (mkWorld r (c :: calls w)).

(** [s[i]] for a Go [int] index. *)
Definition index {A} (s : list A) (i : Z) : option A :=
  if i <? 0 then None else s !! Z.to_nat i.

Definition at_ {A} (s : list A) (i : Z) : M A :=
  match index s i with
  | Some a => ret a
  | None => panic
  end.

(** [len(s)]. *)
Definition len {A} (s : list A) : Z := Z.of_nat (length s).

(** The console state.  [m_screen] is the field [screen]; the pointer to the
    loaded repository is the [repo] of the world. *)
Record model := mkModel {
  m_screen : screen;
  choiceList : listModel;
  policyScreenList : listModel;
  trustScreenList : listModel;
  rules : list rule;
  ruleList : listModel;
  globalRules : list globalRule;
  globalRuleList : listModel;
  inputs : list textinput;
  focusIndex : Z;
  cursorMode : CursorMode;
  signer : bool;
  policyName : string;
  options_ : options;
  footer : string;
  readOnly : bool;
  confirmDelete : bool;
  deleteTarget : string
}.

Definition set_m_screen (v : screen) (m : model) : model :=
  mkModel v (choiceList m) (policyScreenList m) (trustScreenList m) (rules
    m) (ruleList m) (globalRules m) (globalRuleList m) (inputs m)
    (focusIndex m) (cursorMode m) (signer m) (policyName m) (options_ m)
    (footer m) (readOnly m) (confirmDelete m) (deleteTarget m).

Definition set_choiceList (v : listModel) (m : model) : model :=
  mkModel (m_screen m) v (policyScreenList m) (trustScreenList m) (rules m)
    (ruleList m) (globalRules m) (globalRuleList m) (inputs m) (focusIndex
    m) (cursorMode m) (signer m) (policyName m) (options_ m) (footer m)
    (readOnly m) (confirmDelete m) (deleteTarget m).

Definition set_policyScreenList (v : listModel) (m : model) : model :=
  mkModel (m_screen m) (choiceList m) v (trustScreenList m) (rules m)
    (ruleList m) (globalRules m) (globalRuleList m) (inputs m) (focusIndex
    m) (cursorMode m) (signer m) (policyName m) (options_ m) (footer m)
    (readOnly m) (confirmDelete m) (deleteTarget m).

Definition set_trustScreenList (v : listModel) (m : model) : model :=
  mkModel (m_screen m) (choiceList m) (policyScreenList m) v (rules m)
    (ruleList m) (globalRules m) (globalRuleList m) (inputs m) (focusIndex
    m) (cursorMode m) (signer m) (policyName m) (options_ m) (footer m)
    (readOnly m) (confirmDelete m) (deleteTarget m).

Definition set_rules (v : list rule) (m : model) : model :=
  mkModel (m_screen m) (choiceList m) (policyScreenList m) (trustScreenList
    m) v (ruleList m) (globalRules m) (globalRuleList m) (inputs m)
    (focusIndex m) (cursorMode m) (signer m) (policyName m) (options_ m)
    (footer m) (readOnly m) (confirmDelete m) (deleteTarget m).

Definition set_ruleList (v : listModel) (m : model) : model :=
  mkModel (m_screen m) (choiceList m) (policyScreenList m) (trustScreenList
    m) (rules m) v (globalRules m) (globalRuleList m) (inputs m) (focusIndex
    m) (cursorMode m) (signer m) (policyName m) (options_ m) (footer m)
    (readOnly m) (confirmDelete m) (deleteTarget m).

Definition set_globalRules (v : list globalRule) (m : model) : model :=
  mkModel (m_screen m) (choiceList m) (policyScreenList m) (trustScreenList
    m) (rules m) (ruleList m) v (globalRuleList m) (inputs m) (focusIndex m)
    (cursorMode m) (signer m) (policyName m) (options_ m) (footer m)
    (readOnly m) (confirmDelete m) (deleteTarget m).

Definition set_globalRuleList (v : listModel) (m : model) : model :=
  mkModel (m_screen m) (choiceList m) (policyScreenList m) (trustScreenList
    m) (rules m) (ruleList m) (globalRules m) v (inputs m) (focusIndex m)
    (cursorMode m) (signer m) (policyName m) (options_ m) (footer m)
    (readOnly m) (confirmDelete m) (deleteTarget m).

Definition set_inputs (v : list textinput) (m : model) : model :=
  mkModel (m_screen m) (choiceList m) (policyScreenList m) (trustScreenList
    m) (rules m) (ruleList m) (globalRules m) (globalRuleList m) v
    (focusIndex m) (cursorMode m) (signer m) (policyName m) (options_ m)
    (footer m) (readOnly m) (confirmDelete m) (deleteTarget m).

Definition set_focusIndex (v : Z) (m : model) : model :=
  mkModel (m_screen m) (choiceList m) (policyScreenList m) (trustScreenList
    m) (rules m) (ruleList m) (globalRules m) (globalRuleList m) (inputs m)
    v (cursorMode m) (signer m) (policyName m) (options_ m) (footer m)
    (readOnly m) (confirmDelete m) (deleteTarget m).

Definition set_footer (v : string) (m : model) : model :=
  mkModel (m_screen m) (choiceList m) (policyScreenList m) (trustScreenList
    m) (rules m) (ruleList m) (globalRules m) (globalRuleList m) (inputs m)
    (focusIndex m) (cursorMode m) (signer m) (policyName m) (options_ m) v
    (readOnly m) (confirmDelete m) (deleteTarget m).

Definition set_confirmDelete (v : bool) (m : model) : model :=
  mkModel (m_screen m) (choiceList m) (policyScreenList m) (trustScreenList
    m) (rules m) (ruleList m) (globalRules m) (globalRuleList m) (inputs m)
    (focusIndex m) (cursorMode m) (signer m) (policyName m) (options_ m)
    (footer m) (readOnly m) v (deleteTarget m).

Definition set_deleteTarget (v : string) (m : model) : model :=
  mkModel (m_screen m) (choiceList m) (policyScreenList m) (trustScreenList
    m) (rules m) (ruleList m) (globalRules m) (globalRuleList m) (inputs m)
    (focusIndex m) (cursorMode m) (signer m) (policyName m) (options_ m)
    (footer m) (readOnly m) (confirmDelete m) v.

(** ** Forms (model.go) *)

(** [textinput.New()], with the fields of the record at their defaults. *)
Definition textinput_New : textinput :=
  mkTextinput "" false noStyle 0 "" "> " noStyle noStyle.

Definition Focus (t : textinput) : textinput :=
  mkTextinput (value t) true (CursorStyle t) (CharLimit t) (Placeholder t)
    (Prompt t) (PromptStyle t) (TextStyle t).

Definition Blur (t : textinput) : textinput :=
  mkTextinput (value t) false (CursorStyle t) (CharLimit t) (Placeholder t)
    (Prompt t) (PromptStyle t) (TextStyle t).

Definition set_styles (st : Style) (t : textinput) : textinput :=
  mkTextinput (value t) (focus t) (CursorStyle t) (CharLimit t)
    (Placeholder t) (Prompt t) st st.

Definition Value (t : textinput) : string := value t.

(** [t.SetValue(s)]: the library keeps [textinput_kept t.CharLimit s]. *)
Definition SetValue (s : string) (t : textinput) : textinput :=
  mkTextinput (textinput_kept (CharLimit t) s) (focus t) (CursorStyle t)
    (CharLimit t) (Placeholder t) (Prompt t) (PromptStyle t) (TextStyle t).

(** The body of the loop of [initInputs]. *)
Definition initInput (i : nat) (f : inputField) : textinput :=
  let t := textinput_New in
  let t := mkTextinput (value t) (focus t) cursorStyle 64 (placeholder f)
             (prompt f) (PromptStyle t) (TextStyle t) in
  if Nat.eqb i 0 then set_styles focusedStyle (Focus t)
  else set_styles blurredStyle (Blur t).

Definition initInputs (fields : list inputField) : list textinput :=
  imap initInput fields.

Definition ruleFields : list inputField :=
  [ mkInputField "Enter Rule Name Here" "Rule Name:";
    mkInputField "Enter Pattern Here" "Pattern:";
    mkInputField "Enter Principal IDs Here (comma-separated)"
      "Authorize Principal:" ].

Definition globalRuleFields : list inputField :=
  [ mkInputField "Enter Global Rule Name Here" "Rule Name:";
    mkInputField "Enter Rule Type (threshold|block-force-pushes)" "Type:";
    mkInputField "Enter Namespaces (comma-separated)" "Namespaces:";
    mkInputField "Enter Threshold (if threshold type)" "Threshold:" ].

Definition initRuleInputs (m : model) : model :=
  set_focusIndex 0 (set_inputs (initInputs ruleFields) m).

(** [m.inputs[i].SetValue(s)] on the inputs just built: the index is in
    range. *)
Definition setValueAt (i : nat) (s : string) (m : model) : model :=
  set_inputs (alter (SetValue s) i (inputs m)) m.

Definition initRuleInputsPrefilled (r : rule) (m : model) : model :=
  let m := initRuleInputs m in
  let m := setValueAt 0 (name r) m in
  let m := setValueAt 1 (pattern r) m in
  setValueAt 2 (key r) m.

Definition initGlobalRuleInputs (m : model) : model :=
  set_focusIndex 0 (set_inputs (initInputs globalRuleFields) m).

Definition initGlobalRuleInputsPrefilled (gr : globalRule) (m : model)
    : model :=
  let m := initGlobalRuleInputs m in
  let m := setValueAt 0 (ruleName gr) m in
  let m := setValueAt 1 (ruleType gr) m in
  let m := setValueAt 2 (strings.Join (rulePatterns gr) ", ") m in
  if String.eqb (ruleType gr) GlobalRuleThresholdType
  then setValueAt 3 (fmt.Sprintf_d (threshold gr)) m
  else m.

(** ** List views (model.go) *)

Definition newMenuList (title : string) (items : list item) : listModel :=
  list_configure title (list_New items).

Definition ruleItem (r : rule) : item :=
  mkItem (name r) ("Pattern: " +:+ pattern r +:+ ", Key: " +:+ key r).

Definition updateRuleList (m : model) : model :=
  set_ruleList (list_SetItems (map ruleItem (rules m)) (ruleList m)) m.

Definition newline : string := String "010" EmptyString.

Definition globalRuleItem (gr : globalRule) : item :=
  let desc := "Type: " +:+ ruleType gr +:+ newline +:+ "Namespaces: "
              +:+ strings.Join (rulePatterns gr) ", " in
  let desc := if String.eqb (ruleType gr) GlobalRuleThresholdType
              then desc +:+ newline +:+ "Threshold: "
                   +:+ fmt.Sprintf_d (threshold gr)
              else desc in
  mkItem (ruleName gr) desc.

Definition updateGlobalRuleList (m : model) : model :=
  set_globalRuleList
    (list_SetItems (map globalRuleItem (globalRules m)) (globalRuleList m)) m.

Definition refreshRules (m : model) : M model :=
  let* rs := fetch CallGetCurrRules (getCurrRules (options_ m)) in
  ret (updateRuleList (set_rules rs m)).

Definition refreshGlobalRules (m : model) : M model :=
  let* grs := fetch CallGetGlobalRules (getGlobalRules (options_ m)) in
  ret (updateGlobalRuleList (set_globalRules grs m)).

(** ** Start-up (model.go)

    The result is the model, or the error that aborts the console. *)
Definition initialModel (o : options) : M (model + string) :=
  fun w =>
    match LoadRepository (repo w) with
    | Some err => Done (inr err) w
    | None =>
        let start (signer readOnly : bool) (footer : string)
            : M (model + string) :=
          let* rs := fetch CallGetCurrRules (getCurrRules o) in
          let* grs := fetch CallGetGlobalRules (getGlobalRules o) in
          ret (inl (mkModel screenChoice
            (newMenuList "gittuf TUI"
               [ mkItem "Policy" "View and manage gittuf Policy";
                 mkItem "Trust" "View and manage gittuf Root of Trust" ])
            (newMenuList "gittuf Policy Operations"
               [ mkItem "View Rules" "View and manage policy rules" ])
            (newMenuList "gittuf Trust Operations"
               [ mkItem "View Global Rules" "View and manage global rules" ])
            rs (newMenuList "Policy Rules" [])
            grs (newMenuList "Global Rules" [])
            (initInputs ruleFields) 0 CursorBlink signer (o_policyName o) o
            footer readOnly false "")) in
        if negb (o_readOnly o) then
          match LoadSigner (o_SigningKey o) (repo w) with
          | SignerLoaded => start true false "" w
          | ErrSigningKeyNotSpecified =>
              start false true
                "No signing key found in Git config, running in read-only mode."
                w
          | SignerError e =>
              Done
                (inr ("failed to load signing key from Git config: " +:+ e)) w
          end
        else start false true "" w
    end.

Definition Init (m : model) : Cmd := Blink.

(** ** The reducer (update.go) *)

(** [splitAndTrim] splits a comma-separated string and trims whitespace. *)
Definition splitAndTrim (s : string) : list string :=
  map strings.TrimSpace (strings.Split s ",").

(** The loop of [cycleFocus] over the inputs. *)
Definition refocus (focusIndex : Z) (i : nat) (t : textinput) : textinput :=
  if Z.of_nat i =? focusIndex then set_styles focusedStyle (Focus t)
  else set_styles blurredStyle (Blur t).

(** [cycleFocus] moves focus (the cursor) between input fields in form
    screens. *)
Definition cycleFocus (key : string) (m : model) : model :=
  let m :=
    if String.eqb key "up" || String.eqb key "shift+tab" then
      if 0 <? focusIndex m
      then set_footer "" (set_focusIndex (focusIndex m - 1) m)
      else set_focusIndex (len (inputs m) - 1) m
    else
      if focusIndex m <? len (inputs m) - 1
      then set_focusIndex (focusIndex m + 1) m
      else set_focusIndex 0 m in
  set_inputs (imap (refocus (focusIndex m)) (inputs m)) m.

(** The swap [s[i], s[j] = s[j], s[i]]; both indices are checked before
    anything is written. *)
Definition swap {A} (s : list A) (i j : Z) : option (list A) :=
  match index s i, index s j with
  | Some a, Some b => Some (<[Z.to_nat j := a]> (<[Z.to_nat i := b]> s))
  | _, _ => None
  end.

(** The body shared by [handleReorderUp] and [handleReorderDown], from the
    swap on. *)
Definition reorder (i j : Z) (m : model) : M (model * Cmd) :=
  match swap (rules m) i j with
  | None => panic
  | Some rs =>
      let m := set_rules rs m in
      let* err := mutate (CallReorderRules (rules m))
                    (repoReorderRules (options_ m) (rules m)) in
      match err with
      | Some e => ret (set_footer ("Error reordering rules: " +:+ e) m, nilCmd)
      | None =>
          let m := updateRuleList m in
          ret (set_footer "Rules reordered successfully!" m, nilCmd)
      end
  end.

(** [handleReorderUp] moves the selected rule up in the list. *)
Definition handleReorderUp (m : model) : M (model * Cmd) :=
  let i := list_Index (ruleList m) in
  if 0 <? i then reorder i (i - 1) m else ret (m, nilCmd).

(** [handleReorderDown] moves the selected rule down in the list. *)
Definition handleReorderDown (m : model) : M (model * Cmd) :=
  let i := list_Index (ruleList m) in
  if i <? len (rules m) - 1 then reorder i (i + 1) m else ret (m, nilCmd).

(** [handlePolicyFormSubmit] handles enter on policy add/edit form screens. *)
Definition handlePolicyFormSubmit (m : model) : M (model * Cmd) :=
  if focusIndex m <? len (inputs m) - 1 then ret (cycleFocus "tab" m, nilCmd)
  else
    let* i0 := at_ (inputs m) 0 in
    let* i1 := at_ (inputs m) 1 in
    let* i2 := at_ (inputs m) 2 in
    let r := mkRule (Value i0) (Value i1) (Value i2) in
    let authorizedKeys := splitAndTrim (Value i2) in
    let* err :=
      match m_screen m with
      | screenPolicyAddRule =>
          mutate (CallAddRule r authorizedKeys)
            (repoAddRule (options_ m) r authorizedKeys)
      | screenPolicyEditRule =>
          mutate (CallUpdateRule r authorizedKeys)
            (repoUpdateRule (options_ m) r authorizedKeys)
      | _ => ret None
      end in
    match err with
    | Some e => ret (set_footer ("Error: " +:+ e) m, nilCmd)
    | None =>
        let* m := refreshRules m in
        let m := match m_screen m with
                 | screenPolicyAddRule =>
                     set_footer "Rule added successfully!" m
                 | _ => set_footer "Rule updated successfully!" m
                 end in
        ret (set_m_screen screenPolicyRules m, nilCmd)
    end.

(** [handleGlobalFormSubmit] handles enter on global add/edit form screens. *)
Definition handleGlobalFormSubmit (m : model) : M (model * Cmd) :=
  if focusIndex m <? len (inputs m) - 1 then ret (cycleFocus "tab" m, nilCmd)
  else
    let* i2 := at_ (inputs m) 2 in
    let parts := splitAndTrim (Value i2) in
    let* i1 := at_ (inputs m) 1 in
    let* thr :=
      if String.eqb (Value i1) GlobalRuleThresholdType then
        let* i3 := at_ (inputs m) 3 in
        ret (fst (strconv.Atoi (Value i3)))
      else ret 0 in
    let* i0 := at_ (inputs m) 0 in
    let gr := mkGlobalRule (Value i0) (Value i1) parts thr in
    let* err :=
      match m_screen m with
      | screenTrustAddGlobalRule =>
          mutate (CallAddGlobalRule gr) (repoAddGlobalRule (options_ m) gr)
      | screenTrustEditGlobalRule =>
          mutate (CallUpdateGlobalRule gr)
            (repoUpdateGlobalRule (options_ m) gr)
      | _ => ret None
      end in
    match err with
    | Some e => ret (set_footer ("Error: " +:+ e) m, nilCmd)
    | None =>
        let* m := refreshGlobalRules m in
        let m := match m_screen m with
                 | screenTrustAddGlobalRule => set_footer "Global rule added!" m
                 | _ => set_footer "Global rule updated!" m
                 end in
        ret (set_m_screen screenTrustGlobalRules m, nilCmd)
    end.

(** [handleDeleteConfirm] handles the delete confirmation overlay. *)
Definition handleDeleteConfirm (key : string) (m : model) : M (model * Cmd) :=
  let* m :=
    if String.eqb key "y" then
      match m_screen m with
      | screenPolicyRules =>
          let r := mkRule (deleteTarget m) "" "" in
          let* err := mutate (CallRemoveRule r)
                        (repoRemoveRule (options_ m) r) in
          match err with
          | Some e => ret (set_footer ("Error removing rule: " +:+ e) m)
          | None => refreshRules (set_footer "Rule removed successfully!" m)
          end
      | screenTrustGlobalRules =>
          let gr := mkGlobalRule (deleteTarget m) "" [] 0 in
          let* err := mutate (CallRemoveGlobalRule gr)
                        (repoRemoveGlobalRule (options_ m) gr) in
          match err with
          | Some e => ret (set_footer ("Error removing global rule: " +:+ e) m)
          | None => refreshGlobalRules (set_footer "Global rule removed!" m)
          end
      | _ => ret m
      end
    else ret m in
  ret (set_deleteTarget "" (set_confirmDelete false m), nilCmd).

(** [handleEnter] handles the enter key press on selection menu screens. *)
Definition handleEnter (m : model) : M (model * Cmd) :=
  let* m :=
    match m_screen m with
    | screenChoice =>
        match list_SelectedItem (choiceList m) with
        | Some i =>
            if String.eqb (title i) "Policy"
            then ret (set_m_screen screenPolicy m)
            else if String.eqb (title i) "Trust"
            then ret (set_m_screen screenTrust m)
            else ret m
        | None => ret m
        end
    | screenPolicy =>
        match list_SelectedItem (policyScreenList m) with
        | Some _ => refreshRules (set_m_screen screenPolicyRules m)
        | None => ret m
        end
    | screenTrust =>
        match list_SelectedItem (trustScreenList m) with
        | Some _ => refreshGlobalRules (set_m_screen screenTrustGlobalRules m)
        | None => ret m
        end
    | _ => ret m
    end in
  ret (m, nilCmd).

(** The last statements of [handleRulesListKey]: unhandled keys go to the
    active list. *)
Definition delegateToList (msg : Msg) (m : model) : M (model * Cmd) :=
  match m_screen m with
  | screenPolicyRules =>
      let (l, cmd) := list_Update msg (ruleList m) in
      ret (set_ruleList l m, cmd)
  | _ =>
      let (l, cmd) := list_Update msg (globalRuleList m) in
      ret (set_globalRuleList l m, cmd)
  end.

(** [handleRulesListKey] handles keybindings on rule list screens (rules and
    global rules).  For unhandled keys (including up/down arrows), it
    delegates to the active list for navigation. *)
Definition handleRulesListKey (msg : Msg) (key : string) (m : model)
    : M (model * Cmd) :=
  let onPolicyRules :=
    match m_screen m with screenPolicyRules => true | _ => false end in
  if readOnly m then delegateToList msg m
  else if String.eqb key "a" then
    if onPolicyRules
    then ret (set_m_screen screenPolicyAddRule (initRuleInputs m), nilCmd)
    else ret (set_m_screen screenTrustAddGlobalRule (initGlobalRuleInputs m),
              nilCmd)
  else if String.eqb key "e" then
    if onPolicyRules then
      match list_SelectedItem (ruleList m) with
      | Some sel =>
          match find (fun r => String.eqb (name r) (title sel)) (rules m) with
          | Some r =>
              ret (set_m_screen screenPolicyEditRule
                     (initRuleInputsPrefilled r m), nilCmd)
          | None => delegateToList msg m
          end
      | None => delegateToList msg m
      end
    else
      match list_SelectedItem (globalRuleList m) with
      | Some sel =>
          match find (fun gr => String.eqb (ruleName gr) (title sel))
                  (globalRules m) with
          | Some gr =>
              ret (set_m_screen screenTrustEditGlobalRule
                     (initGlobalRuleInputsPrefilled gr m), nilCmd)
          | None => delegateToList msg m
          end
      | None => delegateToList msg m
      end
  else if String.eqb key "d" then
    let sel := if onPolicyRules then list_SelectedItem (ruleList m)
               else list_SelectedItem (globalRuleList m) in
    match sel with
    | Some sel =>
        ret (set_deleteTarget (title sel) (set_confirmDelete true m), nilCmd)
    | None => delegateToList msg m
    end
  else if String.eqb key "u" || String.eqb key "k" then
    if onPolicyRules then handleReorderUp m else delegateToList msg m
  else if String.eqb key "j" then
    if onPolicyRules then handleReorderDown m else delegateToList msg m
  else delegateToList msg m.

(** The four form screens. *)
Definition isFormScreen (s : screen) : bool :=
  match s with
  | screenPolicyAddRule | screenPolicyEditRule
  | screenTrustAddGlobalRule | screenTrustEditGlobalRule => true
  | _ => false
  end.

(** The screen [esc] leads to. *)
Definition escTarget (s : screen) : screen :=
  match s with
  | screenPolicy | screenTrust => screenChoice
  | screenPolicyRules => screenPolicy
  | screenPolicyAddRule | screenPolicyEditRule => screenPolicyRules
  | screenTrustGlobalRules => screenTrust
  | screenTrustAddGlobalRule | screenTrustEditGlobalRule =>
      screenTrustGlobalRules
  | screenChoice => screenChoice
  end.

(** The last switch of [Update]: the message goes to the active bubbles
    component. *)
Definition delegate (msg : Msg) (m : model) : M (model * Cmd) :=
  match m_screen m with
  | screenChoice =>
      let (l, cmd) := list_Update msg (choiceList m) in
      ret (set_choiceList l m, cmd)
  | screenPolicy =>
      let (l, cmd) := list_Update msg (policyScreenList m) in
      ret (set_policyScreenList l m, cmd)
  | screenTrust =>
      let (l, cmd) := list_Update msg (trustScreenList m) in
      ret (set_trustScreenList l m, cmd)
  | screenPolicyRules =>
      let (l, cmd) := list_Update msg (ruleList m) in
      ret (set_ruleList l m, cmd)
  | screenTrustGlobalRules =>
      let (l, cmd) := list_Update msg (globalRuleList m) in
      ret (set_globalRuleList l m, cmd)
  | _ =>
      let* t := at_ (inputs m) (focusIndex m) in
      let (t, cmd) := textinput_Update msg t in
      ret (set_inputs (<[Z.to_nat (focusIndex m) := t]> (inputs m)) m, cmd)
  end.

(** The window size message: every list is resized to the window less the
    frame of the margin style. *)
Definition resize (Width Height : Z) (m : model) : model :=
  let (h, v) := lipgloss_frameSize in
  let m := set_choiceList
             (list_SetSize (Width - h) (Height - v) (choiceList m)) m in
  let m := set_policyScreenList
             (list_SetSize (Width - h) (Height - v) (policyScreenList m)) m in
  let m := set_trustScreenList
             (list_SetSize (Width - h) (Height - v) (trustScreenList m)) m in
  let m := set_ruleList
             (list_SetSize (Width - h) (Height - v) (ruleList m)) m in
  set_globalRuleList
    (list_SetSize (Width - h) (Height - v) (globalRuleList m)) m.

Definition isCycleKey (key : string) : bool :=
  String.eqb key "tab" || String.eqb key "shift+tab"
  || String.eqb key "up" || String.eqb key "down".

(** The screen-specific input handling of a key message. *)
Definition screenKey (msg : Msg) (key : string) (m : model) : M (model * Cmd) :=
  match m_screen m with
  | screenChoice | screenPolicy | screenTrust =>
      if String.eqb key "enter" then handleEnter m else delegate msg m
  | screenPolicyRules | screenTrustGlobalRules => handleRulesListKey msg key m
  | screenPolicyAddRule | screenPolicyEditRule =>
      if String.eqb key "enter" then handlePolicyFormSubmit m
      else if isCycleKey key then ret (cycleFocus key m, nilCmd)
      else delegate msg m
  | screenTrustAddGlobalRule | screenTrustEditGlobalRule =>
      if String.eqb key "enter" then handleGlobalFormSubmit m
      else if isCycleKey key then ret (cycleFocus key m, nilCmd)
      else delegate msg m
  end.

(** [Update] updates the model based on the message received. *)
Definition Update (m : model) (msg : Msg) : M (model * Cmd) :=
  match msg with
  | WindowSizeMsg Width Height => delegate msg (resize Width Height m)
  | KeyMsg key =>
      (* Delete confirmation overlay intercepts all keys *)
      if confirmDelete m then handleDeleteConfirm key m
      (* Global handlers (quit, back navigation) *)
      else if String.eqb key "ctrl+c" then ret (m, Quit)
      else if String.eqb key "q" then
        (* Only quit from non-form screens *)
        if negb (isFormScreen (m_screen m)) then ret (m, Quit)
        else screenKey msg key m
      else if String.eqb key "esc" then
        ret (set_m_screen (escTarget (m_screen m)) (set_footer "" m), nilCmd)
      else screenKey msg key m
  | OtherMsg _ => delegate msg m
  end.

(** The console after a sequence of messages, as the runtime feeds them. *)
Fixpoint run (msgs : list Msg) (m : model) : M model :=
  match msgs with
  | [] => ret m
  | msg :: rest =>
      let* r := Update m msg in
      run rest (fst r)
  end.

(** ** Notions used in the statements *)

(** The writes made to the store so far. *)
Definition mutations (w : world) : list StoreCall :=
  List.filter isMutation (calls w).

(** The keys that move the focus forward and backward in a form. *)
Definition forwardKey (key : string) : Prop := key = "tab" \/ key = "down".

Definition backwardKey (key : string) : Prop :=
  key = "up" \/ key = "shift+tab".

(** The fields of the model a widget never touches. *)
Definition sameCore (m m' : model) : Prop :=
  m_screen m' = m_screen m /\ confirmDelete m' = confirmDelete m
  /\ deleteTarget m' = deleteTarget m /\ footer m' = footer m
  /\ rules m' = rules m /\ globalRules m' = globalRules m
  /\ readOnly m' = readOnly m /\ focusIndex m' = focusIndex m.

Definition onListScreen (m : model) : Prop :=
  m_screen m = screenPolicyRules \/ m_screen m = screenTrustGlobalRules.

Definition onPolicyForm (m : model) : Prop :=
  m_screen m = screenPolicyAddRule \/ m_screen m = screenPolicyEditRule.

Definition onGlobalForm (m : model) : Prop :=
  m_screen m = screenTrustAddGlobalRule
  \/ m_screen m = screenTrustEditGlobalRule.

(** The number of fields of the form of a screen. *)
Definition fieldCount (s : screen) : Z :=
  match s with
  | screenPolicyAddRule | screenPolicyEditRule => 3
  | screenTrustAddGlobalRule | screenTrustEditGlobalRule => 4
  | _ => 0
  end.

(** The invariant of the console: the overlay is only open on a list screen,
    the focus index points at an input, and a form screen shows the inputs of
    its form. *)
Definition wellFormed (m : model) : Prop :=
  (confirmDelete m = true -> onListScreen m)
  /\ 0 <= focusIndex m < len (inputs m)
  /\ (isFormScreen (m_screen m) = true ->
      len (inputs m) = fieldCount (m_screen m)).

(** The store call of a confirmed deletion. *)
Definition removeCall (m : model) : StoreCall :=
  match m_screen m with
  | screenPolicyRules => CallRemoveRule (mkRule (deleteTarget m) "" "")
  | _ => CallRemoveGlobalRule (mkGlobalRule (deleteTarget m) "" [] 0)
  end.

(** The store call of a form submit on a screen, and what the store answers
    to it. *)
Definition policySubmitCall (s : screen) (r : rule) (keys : list string)
    : StoreCall :=
  match s with
  | screenPolicyAddRule => CallAddRule r keys
  | _ => CallUpdateRule r keys
  end.

Definition policySubmit (m : model) (r : rule) (keys : list string)
    : repository -> repository * option string :=
  match m_screen m with
  | screenPolicyAddRule => repoAddRule (options_ m) r keys
  | _ => repoUpdateRule (options_ m) r keys
  end.

Definition globalSubmitCall (s : screen) (gr : globalRule) : StoreCall :=
  match s with
  | screenTrustAddGlobalRule => CallAddGlobalRule gr
  | _ => CallUpdateGlobalRule gr
  end.

Definition globalSubmit (m : model) (gr : globalRule)
    : repository -> repository * option string :=
  match m_screen m with
  | screenTrustAddGlobalRule => repoAddGlobalRule (options_ m) gr
  | _ => repoUpdateGlobalRule (options_ m) gr
  end.

(** A call is the submit of the form of a screen. *)
Definition isSubmitOf (s : screen) (c : StoreCall) : bool :=
  match s, c with
  | screenPolicyAddRule, CallAddRule _ _
  | screenPolicyEditRule, CallUpdateRule _ _
  | screenTrustAddGlobalRule, CallAddGlobalRule _
  | screenTrustEditGlobalRule, CallUpdateGlobalRule _ => true
  | _, _ => false
  end.

(** The threshold the global rule form submits. *)
Definition submittedThreshold (type field : string) : Z :=
  if String.eqb type GlobalRuleThresholdType
  then fst (strconv.Atoi field)
  else 0.

(** The one key press that clears the footer besides [esc]: a backward
    focus cycle on a form, from a field that is not the first. *)
Definition clearsOnBack (m : model) (key : string) : Prop :=
  confirmDelete m = false /\ isFormScreen (m_screen m) = true
  /\ backwardKey key /\ 0 < focusIndex m.

(** A string the text input of a form keeps as it is (the inputs of the forms
    have a limit of 64 characters). *)
Definition keptAsIs (s : string) : Prop := textinput_kept 64 s = s.

(** The keys of an edit submitted without a change: [e], then Enter on each
    field. *)
Definition editAndSubmit (fields : nat) : list Msg :=
  KeyMsg "e" :: repeat (KeyMsg "enter") fields.

(** A list of patterns is read back from its joined form when it is not
    empty and no pattern holds a comma or starts or ends with white space. *)
Definition joinable (ps : list string) : Prop :=
  ps <> [] /\
  Forall (fun p => strings.hasByte p "," = false /\ strings.TrimSpace p = p) ps.

(** The global rule an unchanged edit submits: the threshold is only read
    back for the threshold type. *)
Definition resubmitted (gr : globalRule) : globalRule :=
  mkGlobalRule (ruleName gr) (ruleType gr) (rulePatterns gr)
    (if String.eqb (ruleType gr) GlobalRuleThresholdType
     then threshold gr else 0).

(** The fields of a global rule go through the form unchanged: the text
    inputs keep them as they are, the patterns can be read back from their
    joined form, and the threshold of a threshold rule is an [int]. *)
Definition formFaithful (gr : globalRule) : Prop :=
  keptAsIs (ruleName gr) /\ keptAsIs (ruleType gr)
  /\ keptAsIs (strings.Join (rulePatterns gr) ", ")
  /\ joinable (rulePatterns gr)
  /\ (ruleType gr = GlobalRuleThresholdType ->
      keptAsIs (fmt.Sprintf_d (threshold gr))
      /\ - 2 ^ 63 <= threshold gr < 2 ^ 63).

(** The states the console can be in: the initial model of some options, and
    every model an [Update] returns from one of them. *)
Inductive reachable : model -> world -> Prop :=
| reach_init o w0 m w :
    initialModel o w0 = Done (inl m) w -> reachable m w
| reach_step m w msg m' cmd w' :
    reachable m w -> Update m msg w = Done (m', cmd) w' -> reachable m' w'.

(** ** Further notions: navigation, focus and sessions *)

(** The navigation graph: the screens a single message can lead to. *)
Definition edge (s s' : screen) : bool :=
  match s, s' with
  | screenChoice, (screenChoice | screenPolicy | screenTrust)
  | screenPolicy, (screenPolicy | screenChoice | screenPolicyRules)
  | screenTrust, (screenTrust | screenChoice | screenTrustGlobalRules)
  | screenPolicyRules,
    (screenPolicyRules | screenPolicy | screenPolicyAddRule
     | screenPolicyEditRule)
  | screenTrustGlobalRules,
    (screenTrustGlobalRules | screenTrust | screenTrustAddGlobalRule
     | screenTrustEditGlobalRule)
  | screenPolicyAddRule, (screenPolicyAddRule | screenPolicyRules)
  | screenPolicyEditRule, (screenPolicyEditRule | screenPolicyRules)
  | screenTrustAddGlobalRule,
    (screenTrustAddGlobalRule | screenTrustGlobalRules)
  | screenTrustEditGlobalRule,
    (screenTrustEditGlobalRule | screenTrustGlobalRules) => true
  | _, _ => false
  end.

(** A read-only console is on no form and has no overlay open. *)
Definition readOnlySafe (m : model) : Prop :=
  readOnly m = true ->
  isFormScreen (m_screen m) = false /\ confirmDelete m = false.

(** The target of the overlay is only set while the overlay is open. *)
Definition tidy (m : model) : Prop :=
  confirmDelete m = false -> deleteTarget m = "".

(** The cursor of the rule list points into the rules, so that a reorder
    finds both rules it swaps. *)
Definition cursorInRules (m : model) : Prop :=
  0 <= list_Index (ruleList m)
  /\ (0 < list_Index (ruleList m) -> list_Index (ruleList m) < len (rules m)).

(** [strings.Count(s, sep)] for a one-byte separator. *)
Fixpoint countByte (s : string) (sep : ascii) : nat :=
  match s with
  | EmptyString => 0
  | String c s' => (if Ascii.eqb c sep then 1 else 0) + countByte s' sep
  end.

(** Exactly the input at the focus index is focused and shown in the focused
    style; the others are blurred. *)
Definition singleFocus (m : model) : Prop :=
  forall (i : nat) (t : textinput),
    inputs m !! i = Some t ->
    if Z.of_nat i =? focusIndex m
    then focus t = true /\ PromptStyle t = focusedStyle
         /\ TextStyle t = focusedStyle
    else focus t = false /\ PromptStyle t = blurredStyle
         /\ TextStyle t = blurredStyle.

End Console.

(** ** A reference implementation of the two interfaces

    A list widget with a cursor and an in-memory store, on which the console
    can be run from its initial model. *)

Module Ref.

Record simpleList := mkSimpleList {
  sl_title : string;
  sl_items : list item;
  sl_cursor : nat;
  sl_size : Z * Z
}.

Definition sl_SetItems (items : list item) (l : simpleList) : simpleList :=
  mkSimpleList (sl_title l) items
    (Nat.min (sl_cursor l) (Nat.pred (length items))) (sl_size l).

(** The cursor moves down on [down] and up on [up]; the list has no other
    key. *)
Definition sl_Update (msg : Msg) (l : simpleList) : simpleList * Cmd :=
  match msg with
  | KeyMsg key =>
      if String.eqb key "down" then
        (mkSimpleList (sl_title l) (sl_items l)
           (if (S (sl_cursor l) <? length (sl_items l))%nat
            then S (sl_cursor l) else sl_cursor l) (sl_size l), nilCmd)
      else if String.eqb key "up" then
        (mkSimpleList (sl_title l) (sl_items l) (Nat.pred (sl_cursor l))
           (sl_size l), nilCmd)
      else (l, nilCmd)
  | _ => (l, nilCmd)
  end.

(** [SetValue] keeps at most [limit] bytes when the limit is positive. *)
Definition kept (limit : Z) (s : string) : string :=
  if (0 <? limit) && (limit <? Z.of_nat (String.length s))
  then substring 0 (Z.to_nat limit) s
  else s.

(** A focused input appends the character of a one-character key, up to its
    limit. *)
Definition ti_Update (msg : Msg) (t : textinput) : textinput * Cmd :=
  match msg with
  | KeyMsg (String c EmptyString) =>
      if focus t then
        (mkTextinput (kept (CharLimit t) (value t +:+ String c EmptyString))
           (focus t) (CursorStyle t) (CharLimit t) (Placeholder t) (Prompt t)
           (PromptStyle t) (TextStyle t), nilCmd)
      else (t, nilCmd)
  | _ => (t, nilCmd)
  end.

#[export] Instance bubbles : Bubbles := {|
  listModel := simpleList;
  list_New := fun items => mkSimpleList "" items 0 (0, 0);
  list_configure := fun t l =>
    mkSimpleList t (sl_items l) (sl_cursor l) (sl_size l);
  list_SetSize := fun w h l =>
    mkSimpleList (sl_title l) (sl_items l) (sl_cursor l) (w, h);
  list_SetItems := sl_SetItems;
  list_SelectedItem := fun l => sl_items l !! sl_cursor l;
  list_Index := fun l => Z.of_nat (sl_cursor l);
  list_Update := sl_Update;
  textinput_kept := kept;
  textinput_Update := ti_Update;
  lipgloss_frameSize := (4, 2)
|}.

(** The in-memory store: the two collections, and whether the policy can be
    written (signing or writing fails otherwise). *)
Record memRepo := mkMemRepo {
  mr_rules : list rule;
  mr_globalRules : list globalRule;
  mr_writable : bool
}.

Definition hasRule (n : string) (r : memRepo) : bool :=
  existsb (fun x => String.eqb (name x) n) (mr_rules r).

Definition hasGlobalRule (n : string) (r : memRepo) : bool :=
  existsb (fun x => String.eqb (ruleName x) n) (mr_globalRules r).

Definition guarded (r : memRepo) (ok : bool) (msg : string) (r' : memRepo)
    : memRepo * option string :=
  if negb (mr_writable r) then (r, Some "unable to write policy")
  else if ok then (r', None)
  else (r, Some msg).

Definition mr_addRule (x : rule) (r : memRepo) : memRepo * option string :=
  guarded r (negb (hasRule (name x) r)) "rule already exists"
    (mkMemRepo (mr_rules r ++ [x]) (mr_globalRules r) (mr_writable r)).

Definition mr_updateRule (x : rule) (r : memRepo) : memRepo * option string :=
  guarded r (hasRule (name x) r) "rule not found"
    (mkMemRepo
       (map (fun y => if String.eqb (name y) (name x) then x else y)
          (mr_rules r))
       (mr_globalRules r) (mr_writable r)).

Definition mr_removeRule (x : rule) (r : memRepo) : memRepo * option string :=
  guarded r (hasRule (name x) r) "rule not found"
    (mkMemRepo
       (List.filter (fun y => negb (String.eqb (name y) (name x)))
          (mr_rules r))
       (mr_globalRules r) (mr_writable r)).

Definition mr_reorderRules (rs : list rule) (r : memRepo)
    : memRepo * option string :=
  guarded r true "" (mkMemRepo rs (mr_globalRules r) (mr_writable r)).

Definition mr_addGlobalRule (x : globalRule) (r : memRepo)
    : memRepo * option string :=
  guarded r (negb (hasGlobalRule (ruleName x) r)) "global rule already exists"
    (mkMemRepo (mr_rules r) (mr_globalRules r ++ [x]) (mr_writable r)).

Definition mr_updateGlobalRule (x : globalRule) (r : memRepo)
    : memRepo * option string :=
  guarded r (hasGlobalRule (ruleName x) r) "global rule not found"
    (mkMemRepo (mr_rules r)
       (map (fun y => if String.eqb (ruleName y) (ruleName x) then x else y)
          (mr_globalRules r))
       (mr_writable r)).

Definition mr_removeGlobalRule (x : globalRule) (r : memRepo)
    : memRepo * option string :=
  guarded r (hasGlobalRule (ruleName x) r) "global rule not found"
    (mkMemRepo (mr_rules r)
       (List.filter (fun y => negb (String.eqb (ruleName y) (ruleName x)))
          (mr_globalRules r))
       (mr_writable r)).

#[export] Instance store : RuleStore := {|
  repository := memRepo;
  LoadRepository := fun _ => None;
  LoadSigner := fun k _ =>
    if String.eqb k "" then ErrSigningKeyNotSpecified else SignerLoaded;
  getCurrRules := fun _ r => mr_rules r;
  getGlobalRules := fun _ r => mr_globalRules r;
  repoAddRule := fun _ x _ => mr_addRule x;
  repoUpdateRule := fun _ x _ => mr_updateRule x;
  repoRemoveRule := fun _ x => mr_removeRule x;
  repoReorderRules := fun _ => mr_reorderRules;
  repoAddGlobalRule := fun _ => mr_addGlobalRule;
  repoUpdateGlobalRule := fun _ => mr_updateGlobalRule;
  repoRemoveGlobalRule := fun _ => mr_removeGlobalRule
|}.

(** The console started with a signing key on a repository, after the given
    messages; [None] when start-up fails or the console panics. *)
Definition play (o : options) (r : memRepo) (msgs : list Msg)
    : option (model * world) :=
  match initialModel o (mkWorld r []) with
  | Done (inl m) w =>
      match run msgs m w with
      | Done m' w' => Some (m', w')
      | Panic => None
      end
  | _ => None
  end.

Definition opts : options := mkOptions false "targets" "alice.pub".

Definition R1 : rule := mkRule "R1" "refs/heads/main" "alice".
Definition R2 : rule := mkRule "R2" "refs/heads/dev" "bob, carol".

Definition G1 : globalRule :=
  mkGlobalRule "G1" "threshold" ["refs/heads/main"; "refs/tags/*"] 2.

Definition repo0 : memRepo := mkMemRepo [R1; R2] [G1] true.

Definition enter : Msg := KeyMsg "enter".

(** The key messages of a text typed character by character. *)
Fixpoint typeKeys (s : string) : list Msg :=
  match s with
  | EmptyString => []
  | String c s' => KeyMsg (String c EmptyString) :: typeKeys s'
  end.

Definition blank : model :=
  let l := newMenuList "" [] in
  mkModel screenChoice l l l [] l [] l [] 0 CursorBlink false "" opts ""
    false false "".

(** The state of the console after the given messages. *)
Definition after (o : options) (r : memRepo) (msgs : list Msg)
    : model * world :=
  match play o r msgs with
  | Some x => x
  | None => (blank, mkWorld r [])
  end.

Definition plays (o : options) (r : memRepo) (msgs : list Msg) : bool :=
  match play o r msgs with
  | Some _ => true
  | None => false
  end.

(** The console in read-only mode. *)
Definition readOnlyOpts : options := mkOptions true "targets" "".

(** A repository whose policy cannot be written. *)
Definition lockedRepo : memRepo := mkMemRepo [R1; R2] [G1] false.

(** A global rule with a comma in a pattern. *)
Definition G2 : globalRule :=
  mkGlobalRule "G2" "block-force-pushes"
    ["git:refs/heads/main"; "file:docs/a,b.md"] 0.

Definition repo2 : memRepo := mkMemRepo [R1] [G2] true.

(** The rules screen, with the first rule selected. *)
Definition toRules : list Msg := [enter; enter].

(** The global rules screen, with the first global rule selected. *)
Definition toGlobalRules : list Msg := [KeyMsg "down"; enter; enter].

(** A new global rule of the threshold type, typed up to its last field. *)
Definition newThresholdRule (threshold : string) : list Msg :=
  toGlobalRules ++ [KeyMsg "a"] ++ typeKeys "T1" ++ [enter]
  ++ typeKeys "threshold" ++ [enter] ++ typeKeys "git:refs/heads/main"
  ++ [enter] ++ typeKeys threshold.

(** A new rule typed up to its last field, which stays empty. *)
Definition newRuleNoPrincipal : list Msg :=
  toRules ++ [KeyMsg "a"] ++ typeKeys "R3" ++ [enter]
  ++ typeKeys "refs/heads/x" ++ [enter].

(** A new global rule typed up to its last field, with no namespace. *)
Definition newGlobalRuleNoNamespace : list Msg :=
  toGlobalRules ++ [KeyMsg "a"] ++ typeKeys "G3" ++ [enter]
  ++ typeKeys "block-force-pushes" ++ [enter; enter].

(** The rule form after a deletion, with the focus on the second field: the
    footer still reports the deletion. *)
Definition formWithFooter : list Msg :=
  toRules ++ [KeyMsg "d"; KeyMsg "y"; KeyMsg "a"; KeyMsg "tab"].

(** The states of the scenarios, evaluated. *)
Definition rulesScreen : model * world :=
  Eval vm_compute in after opts repo0 toRules.

Definition readOnlyRules : model * world :=
  Eval vm_compute in after readOnlyOpts repo0 toRules.

Definition overlayOpen : model * world :=
  Eval vm_compute in after opts repo0 (toRules ++ [KeyMsg "d"]).

Definition freshRuleForm : model * world :=
  Eval vm_compute in after opts repo0 (toRules ++ [KeyMsg "a"]).

Definition ruleFormLast : model * world :=
  Eval vm_compute in after opts repo0 newRuleNoPrincipal.

Definition globalFormLast : model * world :=
  Eval vm_compute in after opts repo0 newGlobalRuleNoNamespace.

Definition thresholdTwo : model * world :=
  Eval vm_compute in after opts repo0 (newThresholdRule "2").

Definition thresholdTooLarge : model * world :=
  Eval vm_compute in after opts repo0 (newThresholdRule "9223372036854775808").

Definition secondRuleSelected : model * world :=
  Eval vm_compute in after opts lockedRepo (toRules ++ [KeyMsg "down"]).

Definition firstRuleSelected : model * world :=
  Eval vm_compute in after opts lockedRepo toRules.

Definition globalRulesOfRepo0 : model * world :=
  Eval vm_compute in after opts repo0 toGlobalRules.

Definition footerOnForm : model * world :=
  Eval vm_compute in after opts repo0 formWithFooter.

Definition globalRulesScreen : model * world :=
  Eval vm_compute in after opts repo2 toGlobalRules.

(** The policy menu, the rules screen of a writable repository with the
    second rule selected, and the read-only console after keys that write
    elsewhere. *)
Definition policyMenu : model * world :=
  Eval vm_compute in after opts repo0 [enter].

Definition trustMenu : model * world :=
  Eval vm_compute in after opts repo0 [KeyMsg "down"; enter].

Definition secondRuleWritable : model * world :=
  Eval vm_compute in after opts repo0 (toRules ++ [KeyMsg "down"]).

Definition writingKeys : list Msg :=
  [KeyMsg "d"; KeyMsg "y"; KeyMsg "a"; KeyMsg "u"; enter].

Definition readOnlyAfterKeys : model * world :=
  Eval vm_compute in after readOnlyOpts repo0 (toRules ++ writingKeys).

(** The threshold form with digits that run over 64 bits, then a letter. *)
Definition thresholdDigitsThenLetter : model * world :=
  Eval vm_compute in after opts repo0 (newThresholdRule "99999999999999999999x").

End Ref.


(** * The [attest authorize] command

    [internal/cmd/attest/authorize]: a command of the command line that
    records or revokes the authorization to merge a reference.  The [gittuf]
    API is external: its results are those of an arbitrary implementation.
    An error of the API is represented by its message. *)
Module authorize.

(** The calls made to the repository, with their arguments. *)
Inductive Call :=
| CallRemoveReferenceAuthorization
    (targetRef fromID targetTreeID : string) (signCommit : bool)
| CallAddReferenceAuthorization
    (targetRef fromRef : string) (signCommit : bool).

Class Gittuf := {
  Repository : Type;
  SignerVerifier : Type;
  LoadRepository : Repository + string;
  LoadSigner : Repository -> string -> SignerVerifier + string;
  RemoveReferenceAuthorization :
    Repository -> SignerVerifier -> string -> string -> string -> bool ->
    option string;
  AddReferenceAuthorization :
    Repository -> SignerVerifier -> string -> string -> bool -> option string
}.

(** [options]; [p] is reduced to the one field the command reads. *)
Record options := {
  p_SigningKey : string;
  fromRef : string;
  revoke : bool
}.

Definition set_fromRef (f : string) (o : options) : options :=
  {| p_SigningKey := p_SigningKey o; fromRef := f; revoke := revoke o |}.

(** What a run of the command does: it returns its error ([None] is [nil])
    after the calls it made to the repository, or an index expression
    [args[i]] is out of range and the program panics. *)
Inductive outcome :=
| Returns (err : option string) (calls : list Call)
| Panics.

Definition insufficient : string :=
  "insufficient parameters for revoking authorization, requires <targetRef> <fromID> <targetTreeID>".

Section Command.
Context `{Gittuf}.

(** The result of the API call [c]. *)
Definition perform (repo : Repository) (signer : SignerVerifier) (c : Call)
  : option string :=
  match c with
  | CallRemoveReferenceAuthorization targetRef fromID targetTreeID sign =>
      RemoveReferenceAuthorization
        repo signer targetRef fromID targetTreeID sign
  | CallAddReferenceAuthorization targetRef from sign =>
      AddReferenceAuthorization repo signer targetRef from sign
  end.

Definition call (repo : Repository) (signer : SignerVerifier) (c : Call)
  : outcome :=
  Returns (perform repo signer c) [c].

Definition Run (o : options) (args : list string) : outcome :=
  match LoadRepository with
  | inr err => Returns (Some err) []
  | inl repo =>
      match LoadSigner repo (p_SigningKey o) with
      | inr err => Returns (Some err) []
      | inl signer =>
          if revoke o then
            if (length args <? 3)%nat then Returns (Some insufficient) []
            else
              match args !! 0%nat with
              | None => Panics
              | Some a0 =>
                  match args !! 1%nat with
                  | None => Panics
                  | Some a1 =>
                      match args !! 2%nat with
                      | None => Panics
                      | Some a2 =>
                          call repo signer
                            (CallRemoveReferenceAuthorization a0 a1 a2 true)
                      end
                  end
              end
          else
            match args !! 0%nat with
            | None => Panics
            | Some a0 =>
                call repo signer
                  (CallAddReferenceAuthorization a0 (fromRef o) true)
            end
      end
  end.

(** ** The command as [cobra] runs it

    [cobra] parses the flags into the options, validates the positional
    arguments with [Args], checks that the flags marked as required were
    given, and only then calls [RunE]. *)
Inductive usageError :=
| TooFewArgs (min received : nat)
| RequiredFlagNotSet (name : string).

Inductive execution :=
| Usage (e : usageError)
| Ran (r : outcome).

(** [cobra.MinimumNArgs(n)]. *)
Definition MinimumNArgs (n : nat) (args : list string) : option usageError :=
  if (length args <? n)%nat then Some (TooFewArgs n (length args)) else None.

(** The flags of a command line: [None] where the flag is not given. *)
Record flags := {
  flag_fromRef : option string;
  flag_revoke : option bool
}.

Record Command := {
  Use : string;
  Short : string;
  Args : list string -> option usageError;
  RunE : options -> list string -> outcome;
  DisableAutoGenTag : bool;
  (** The options the flags are bound to, with the defaults of the flags,
      and the flags marked as required. *)
  bound : options;
  required : list string
}.

(** [AddFlags]: [from-ref] defaults to the empty string and is required,
    [revoke] defaults to false. *)
Definition AddFlags (c : Command) : Command :=
  {| Use := Use c; Short := Short c; Args := Args c; RunE := RunE c;
     DisableAutoGenTag := DisableAutoGenTag c;
     bound := {| p_SigningKey := p_SigningKey (bound c);
                 fromRef := ""; revoke := false |};
     required := "from-ref" :: required c |}.

Definition New (persistent_SigningKey : string) : Command :=
  AddFlags
    {| Use := "authorize";
       Short := "Add or revoke reference authorization";
       Args := MinimumNArgs 1;
       RunE := Run;
       DisableAutoGenTag := true;
       bound := {| p_SigningKey := persistent_SigningKey;
                   fromRef := ""; revoke := false |};
       required := [] |}.

(** The part of [Command.execute] the command relies on. *)
Definition execute (c : Command) (f : flags) (args : list string)
  : execution :=
  let o := {| p_SigningKey := p_SigningKey (bound c);
              fromRef := default (fromRef (bound c)) (flag_fromRef f);
              revoke := default (revoke (bound c)) (flag_revoke f) |} in
  match Args c args with
  | Some e => Usage e
  | None =>
      if bool_decide ("from-ref" ∈ required c)
         && negb (bool_decide (is_Some (flag_fromRef f)))
      then Usage (RequiredFlagNotSet "from-ref")
      else Ran (RunE c o args)
  end.

End Command.

(** A reference implementation of the API: a repository that loads, a
    signer for every key but the empty one, and calls that succeed unless
    the target reference is empty. *)
#[local] Instance memory : Gittuf := {|
  Repository := unit;
  SignerVerifier := string;
  LoadRepository := inl tt;
  LoadSigner := fun _ key =>
    if String.eqb key ""
    then inr "signing key not specified in Git configuration"
    else inl key;
  RemoveReferenceAuthorization := fun _ _ targetRef _ _ _ =>
    if String.eqb targetRef "" then Some "unknown reference" else None;
  AddReferenceAuthorization := fun _ _ targetRef _ _ =>
    if String.eqb targetRef "" then Some "unknown reference" else None
|}.

End authorize.
(** * Verification *)

Local Open Scope list_scope.

(** ** The string functions *)

Lemma Split_nonempty s sep : strings.Split s sep <> [].
Proof.
  induction s as [|c s IH]; simpl; [discriminate|].
  destruct (Ascii.eqb c sep); [discriminate|].
  destruct (strings.Split s sep); discriminate.
Qed.

Lemma Split_nosep p sep :
  strings.hasByte p sep = false -> strings.Split p sep = [p].
Proof.
  induction p as [|c p IH]; simpl; [done|].
  intros Hb. apply orb_false_elim in Hb as [Hc Hp].
  rewrite Hc, (IH Hp). done.
Qed.

Lemma Split_app_sep p sep s :
  strings.hasByte p sep = false ->
  strings.Split (p +:+ String sep s) sep = p :: strings.Split s sep.
Proof.
  induction p as [|c p IH]; simpl; intros Hb.
  - by rewrite Ascii.eqb_refl.
  - apply orb_false_elim in Hb as [Hc Hp]. rewrite Hc, (IH Hp). done.
Qed.

Lemma Split_cons_nosep c s sep :
  Ascii.eqb c sep = false ->
  strings.Split (String c s) sep =
    match strings.Split s sep with
    | [] => [String c EmptyString]
    | p :: ps => String c p :: ps
    end.
Proof. intros Hc. simpl. by rewrite Hc. Qed.

(** Splitting a joined list at the commas gives the elements back, each but
    the first behind the space of the separator. *)
Lemma Split_Join p ps :
  Forall (fun q => strings.hasByte q "," = false) (p :: ps) ->
  strings.Split (strings.Join (p :: ps) ", ") "," = p :: map (String " ") ps.
Proof.
  revert p. induction ps as [|q ps IH]; intros p Hall.
  - simpl. apply Split_nosep. by inversion Hall.
  - inversion Hall as [|? ? Hp Hrest]; subst.
    change (strings.Join (p :: q :: ps) ", ")
      with (p +:+ String "," (String " " (strings.Join (q :: ps) ", "))).
    rewrite Split_app_sep by done.
    rewrite Split_cons_nosep by done.
    rewrite (IH q Hrest). done.
Qed.

Lemma TrimSpace_space p :
  strings.TrimSpace (String " " p) = strings.TrimSpace p.
Proof. reflexivity. Qed.

Lemma splitAndTrim_nonempty s : splitAndTrim s <> [].
Proof.
  unfold splitAndTrim. pose proof (Split_nonempty s ",").
  destruct (strings.Split s ","); [done|discriminate].
Qed.

Lemma splitAndTrim_Join ps :
  joinable ps -> splitAndTrim (strings.Join ps ", ") = ps.
Proof.
  intros [Hne Hall]. destruct ps as [|p ps]; [done|].
  unfold splitAndTrim. rewrite Split_Join.
  2:{ eapply Forall_impl; [exact Hall|]. by intros ? []. }
  inversion Hall as [|? ? [_ Hp] Hrest]; subst. cbn [map]. rewrite Hp. f_equal.
  clear -Hrest. induction Hrest as [|q qs [_ Hq] _ IH]; [done|].
  cbn [map]. rewrite TrimSpace_space, Hq, IH. done.
Qed.

Example splitAndTrim_principals :
  splitAndTrim "bob, carol ,dave" = ["bob"; "carol"; "dave"].
Proof. reflexivity. Qed.

Example splitAndTrim_keeps_empty_parts : splitAndTrim "a,, " = ["a"; ""; ""].
Proof. reflexivity. Qed.

(** ** Decimal numerals: [Atoi] reads what [%d] prints *)

Example Atoi_number : strconv.Atoi "-12" = (-12, None).
Proof. reflexivity. Qed.

Example Atoi_syntax_error : strconv.Atoi "1x" = (0, Some strconv.ErrSyntax).
Proof. reflexivity. Qed.

Example Atoi_range_error :
  strconv.Atoi "-9223372036854775809"
  = (-9223372036854775808, Some strconv.ErrRange).
Proof. vm_compute. reflexivity. Qed.

Example Sprintf_d_negative : fmt.Sprintf_d (-42) = "-42".
Proof. reflexivity. Qed.

Lemma uintZ_pos d :
  forall acc, uintZ d (Z.pos acc) = Z.pos (Pos.of_uint_acc d acc).
Proof.
  induction d; intros acc; simpl; try done;
    match goal with
    | |- uintZ _ ?a = Z.pos (Pos.of_uint_acc _ ?b) =>
        replace a with (Z.pos b) by lia; apply IHd
    end.
Qed.

Lemma uintZ_0 d : uintZ d 0 = Z.of_N (Pos.of_uint d).
Proof. induction d; simpl; first [done | apply uintZ_pos]. Qed.

Lemma uintZ_ge d : forall acc, 0 <= acc -> acc <= uintZ d acc.
Proof.
  induction d; intros acc Hacc; simpl; try lia;
    match goal with
    | |- _ <= uintZ _ ?a => specialize (IHd a); lia
    end.
Qed.

(** The digit loop on the digits of a numeral that fits 64 bits. *)
Lemma parseUintLoop_uint d : forall acc,
  0 <= acc -> uintZ d acc <= strconv.maxUint64 ->
  strconv.parseUintLoop (NilEmpty.string_of_uint d) acc = (uintZ d acc, None).
Proof.
  unfold strconv.maxUint64.
  induction d; intros acc Hacc Hmax; cbn [NilEmpty.string_of_uint uintZ] in *;
    try done;
    match type of Hmax with
    | uintZ _ ?a <= _ =>
        pose proof (uintZ_ge d a ltac:(lia));
        cbn [strconv.parseUintLoop];
        change (strconv.isDigit _) with true; cbv iota;
        match goal with
        | |- context [Z.of_nat (nat_of_ascii ?c) - 48] =>
            let v := eval vm_compute in (Z.of_nat (nat_of_ascii c) - 48) in
            change (Z.of_nat (nat_of_ascii c) - 48) with v
        end
    end.
  all: unfold strconv.maxUint64.
  all: change (2 ^ 64) with 18446744073709551616 in *.
  all: change ((18446744073709551616 - 1) `div` 10 + 1)
         with 1844674407370955162.
  all: cbv zeta.
  all: destruct (Z.leb_spec 1844674407370955162 acc); [lia|].
  all: rewrite Z.mod_small by lia.
  all: match goal with
       | |- context [(?x <? ?y) || _] => destruct (Z.ltb_spec x y); [lia|]
       end.
  all: match goal with
       | |- context [(?x <? ?y)] => destruct (Z.ltb_spec x y); [lia|]
       end.
  all: cbn [orb].
  all: match goal with
       | |- strconv.parseUintLoop _ ?a = (uintZ _ ?b, _) =>
           replace a with b by lia; apply IHd; lia
       end.
Qed.

Lemma string_of_uint_nonnil d :
  d <> Decimal.Nil -> NilZero.string_of_uint d = NilEmpty.string_of_uint d.
Proof. by destruct d. Qed.

Lemma ParseUint_uint d :
  d <> Decimal.Nil -> uintZ d 0 <= strconv.maxUint64 ->
  strconv.ParseUint (NilEmpty.string_of_uint d) = (uintZ d 0, None).
Proof.
  intros Hd Hmax. unfold strconv.ParseUint.
  rewrite <- (parseUintLoop_uint d 0) by (done || lia).
  by destruct d.
Qed.

Lemma string_of_uint_head d :
  d <> Decimal.Nil ->
  exists c rest, NilEmpty.string_of_uint d = String c rest
    /\ Ascii.eqb c "-" = false /\ Ascii.eqb c "+" = false.
Proof. destruct d; [done|..]; intros _; simpl; eauto. Qed.

Lemma Atoi_Sprintf_d n :
  - 2 ^ 63 <= n < 2 ^ 63 -> strconv.Atoi (fmt.Sprintf_d n) = (n, None).
Proof.
  intros Hn. unfold fmt.Sprintf_d.
  destruct n as [|p|p]; [done|..]; cbn [Z.to_int NilZero.string_of_int].
  - pose proof (Unsigned.to_uint_nonnil p) as Hnil.
    assert (Hval : uintZ (Pos.to_uint p) 0 = Z.pos p)
      by (rewrite uintZ_0, DecimalPos.Unsigned.of_to; done).
    rewrite string_of_uint_nonnil by done.
    destruct (string_of_uint_head _ Hnil) as (c & rest & Hs & Hm & Hp).
    unfold strconv.Atoi, strconv.ParseInt. rewrite Hs, Hm, Hp.
    cbn [orb negb andb].
    rewrite <- Hs, ParseUint_uint, Hval
      by (done || rewrite Hval; unfold strconv.maxUint64; lia).
    unfold strconv.intSize. change (2 ^ (64 - 1)) with (2 ^ 63).
    destruct (Z.leb_spec (2 ^ 63) (Z.pos p)); [lia|done].
  - pose proof (Unsigned.to_uint_nonnil p) as Hnil.
    assert (Hval : uintZ (Pos.to_uint p) 0 = Z.pos p)
      by (rewrite uintZ_0, DecimalPos.Unsigned.of_to; done).
    rewrite string_of_uint_nonnil by done.
    unfold strconv.Atoi, strconv.ParseInt.
    change (Ascii.eqb "-" "-") with true.
    change (Ascii.eqb "-" "+") with false.
    cbn [orb negb andb].
    rewrite ParseUint_uint, Hval
      by (done || rewrite Hval; unfold strconv.maxUint64; lia).
    unfold strconv.intSize. change (2 ^ (64 - 1)) with (2 ^ 63).
    destruct (Z.ltb_spec (2 ^ 63) (Z.pos p)); [lia|]. f_equal.
Qed.

(** A syntax error leaves 0; a range error leaves the bound of the sign. *)
Lemma Atoi_syntax_zero s :
  snd (strconv.Atoi s) = Some strconv.ErrSyntax -> fst (strconv.Atoi s) = 0.
Proof.
  unfold strconv.Atoi, strconv.ParseInt. destruct s as [|c s]; [done|].
  destruct (strconv.ParseUint _) as [un [[|]|]]; [done|..];
    repeat case_match; simpl; congruence.
Qed.

Lemma Atoi_range_clamped s :
  snd (strconv.Atoi s) = Some strconv.ErrRange ->
  fst (strconv.Atoi s) = 2 ^ 63 - 1 \/ fst (strconv.Atoi s) = - 2 ^ 63.
Proof.
  unfold strconv.Atoi, strconv.ParseInt, strconv.intSize.
  change (2 ^ (64 - 1)) with (2 ^ 63).
  destruct s as [|c s]; [done|].
  destruct (strconv.ParseUint _) as [un [[|]|]]; [done|..];
    repeat case_match; simpl; auto; congruence.
Qed.

(** ** [Atoi] on any field *)

Lemma isDigit_value c :
  strconv.isDigit c = true -> 0 <= Z.of_nat (nat_of_ascii c) - 48 <= 9.
Proof.
  unfold strconv.isDigit. rewrite andb_true_iff, !Nat.leb_le. lia.
Qed.

Lemma decimalValueFrom_ge digits : forall n,
  0 <= n -> Forall (fun c => strconv.isDigit c = true)
              (list_ascii_of_string digits) ->
  n <= decimalValueFrom n digits.
Proof.
  induction digits as [|c s IH]; intros n Hn Hd; simpl; [lia|].
  inversion Hd as [|? ? Hc Hs]; subst. apply isDigit_value in Hc.
  specialize (IH (n * 10 + (Z.of_nat (nat_of_ascii c) - 48)) ltac:(lia) Hs).
  lia.
Qed.

Lemma leadingDigits_digits s :
  Forall (fun c => strconv.isDigit c = true)
    (list_ascii_of_string (leadingDigits s)).
Proof.
  induction s as [|c s IH]; simpl; [constructor|].
  destruct (strconv.isDigit c) eqn:Hc; simpl; [by constructor|constructor].
Qed.

(** The digit loop: a range error as soon as the digits read exceed 64
    bits, whatever follows; else a syntax error at a byte that is no digit;
    else the number read. *)
Lemma parseUintLoop_reads s : forall n,
  0 <= n <= strconv.maxUint64 ->
  strconv.parseUintLoop s n
  = if 2 ^ 64 <=? decimalValueFrom n (leadingDigits s)
    then (strconv.maxUint64, Some strconv.ErrRange)
    else if String.eqb (leadingDigits s) s
         then (decimalValueFrom n (leadingDigits s), None)
         else (0, Some strconv.ErrSyntax).
Proof.
  unfold strconv.maxUint64. change (2 ^ 64) with 18446744073709551616.
  induction s as [|c s IH]; intros n Hn.
  - simpl. destruct (Z.leb_spec 18446744073709551616 n); [lia|done].
  - cbn [strconv.parseUintLoop leadingDigits].
    destruct (strconv.isDigit c) eqn:Hc.
    2: { cbn [decimalValueFrom String.eqb].
         destruct (Z.leb_spec 18446744073709551616 n); [lia|done]. }
    pose proof (isDigit_value c Hc) as Hd.
    cbn [decimalValueFrom String.eqb]. rewrite Ascii.eqb_refl.
    unfold strconv.maxUint64. change (2 ^ 64) with 18446744073709551616.
    change ((18446744073709551616 - 1) `div` 10 + 1)
      with 1844674407370955162.
    cbv zeta.
    set (n' := n * 10 + (Z.of_nat (nat_of_ascii c) - 48)).
    pose proof (decimalValueFrom_ge (leadingDigits s) n' ltac:(lia)
                  (leadingDigits_digits s)) as Hge.
    destruct (Z.leb_spec 1844674407370955162 n) as [Hcut|Hcut].
    { destruct (Z.leb_spec 18446744073709551616
                  (decimalValueFrom n' (leadingDigits s))); [done|lia]. }
    destruct (Z.leb_spec 18446744073709551616 n') as [Hov|Hov].
    + replace (n' mod 18446744073709551616)
        with (n' - 18446744073709551616).
      2: { symmetry. rewrite <- (Z_mod_plus_full n' (-1)).
           apply Z.mod_small. lia. }
      destruct (Z.ltb_spec (n' - 18446744073709551616) (n * 10)); [|lia].
      cbn [orb].
      destruct (Z.leb_spec 18446744073709551616
                  (decimalValueFrom n' (leadingDigits s))); [done|lia].
    + rewrite Z.mod_small by lia.
      destruct (Z.ltb_spec n' (n * 10)); [lia|].
      destruct (Z.ltb_spec (18446744073709551616 - 1) n'); [lia|].
      cbn [orb]. rewrite IH by lia. done.
Qed.

(** [Atoi] on any field.  Digits that run over 64 bits give a range error
    and the bound of the sign, whatever follows them; a decimal number gives
    the nearest value of the range of [int], with a range error when that is
    not the number; any other field gives a syntax error and 0. *)
Lemma Atoi_reads s :
  strconv.Atoi s
  = if digitsOverflow s then (boundOfSign s, Some strconv.ErrRange)
    else if isDecimal s
         then (clampInt (numberOf s),
               if (- 2 ^ 63 <=? numberOf s) && (numberOf s <=? 2 ^ 63 - 1)
               then None else Some strconv.ErrRange)
         else (0, Some strconv.ErrSyntax).
Proof.
  unfold strconv.Atoi, strconv.ParseInt, strconv.intSize, digitsOverflow,
    isDecimal, numberOf, boundOfSign, clampInt, decimalValue.
  change (2 ^ (64 - 1)) with 9223372036854775808.
  change (2 ^ 63) with 9223372036854775808.
  change (2 ^ 64) with 18446744073709551616.
  destruct s as [|c rest]; [done|].
  cbn [unsignedPart negative].
  set (u := if Ascii.eqb c "+" || Ascii.eqb c "-" then rest else String c rest).
  cbv zeta. unfold strconv.ParseUint.
  destruct u as [|c' u'] eqn:Hu; [done|].
  rewrite parseUintLoop_reads by (unfold strconv.maxUint64; lia).
  change (2 ^ 64) with 18446744073709551616.
  pose proof (decimalValueFrom_ge (leadingDigits (String c' u')) 0
                ltac:(lia) (leadingDigits_digits _)) as Hge.
  set (v := decimalValueFrom 0 (leadingDigits (String c' u'))) in *.
  cbn [String.eqb negb andb].
  destruct (Z.leb_spec 18446744073709551616 v) as [Hov|Hov].
  { unfold strconv.maxUint64. change (2 ^ 64) with 18446744073709551616.
    by destruct (Ascii.eqb c "-"). }
  destruct (String.eqb_spec (leadingDigits (String c' u')) (String c' u'))
    as [Hall|Hall]; [|done].
  fold v. rewrite <- Hall. fold v.
  destruct (Ascii.eqb c "-"); cbn [negb andb].
  all: repeat match goal with
       | |- context [?a <=? ?b] => destruct (Z.leb_spec a b)
       | |- context [?a <? ?b] => destruct (Z.ltb_spec a b)
       end; cbn [andb]; try lia; f_equal; lia.
Qed.

(** ** The console *)

Section ConsoleFacts.

Context `{Bubbles} `{RuleStore}.

Implicit Types (m : model) (w : world) (key : string).

(** *** Focus cycling *)

Lemma cycleFocus_len key m :
  len (inputs (cycleFocus key m)) = len (inputs m).
Proof.
  unfold cycleFocus, len. repeat case_match; simpl; by rewrite length_imap.
Qed.

Lemma forwardKey_not_backward key :
  forwardKey key -> String.eqb key "up" || String.eqb key "shift+tab" = false.
Proof. by intros [-> | ->]. Qed.

Lemma backwardKey_eqb key :
  backwardKey key -> String.eqb key "up" || String.eqb key "shift+tab" = true.
Proof. by intros [-> | ->]. Qed.

Lemma cycleFocus_forward key m :
  forwardKey key -> 0 <= focusIndex m < len (inputs m) ->
  focusIndex (cycleFocus key m) = (focusIndex m + 1) mod len (inputs m).
Proof.
  intros Hk Hf. unfold cycleFocus. rewrite (forwardKey_not_backward _ Hk).
  destruct (Z.ltb_spec (focusIndex m) (len (inputs m) - 1)); simpl.
  - by rewrite Z.mod_small by lia.
  - replace (focusIndex m + 1) with (len (inputs m)) by lia.
    by rewrite Z.mod_same by lia.
Qed.

Lemma cycleFocus_forward_iter keys : forall m,
  Forall forwardKey keys -> 0 <= focusIndex m < len (inputs m) ->
  focusIndex (fold_left (fun m key => cycleFocus key m) keys m)
  = (focusIndex m + len keys) mod len (inputs m).
Proof.
  induction keys as [|key keys IH]; intros m Hall Hf.
  - unfold len at 1. simpl. rewrite Z.add_0_r, Z.mod_small; lia.
  - inversion Hall as [|? ? Hk Hrest]; subst. cbn [fold_left].
    pose proof (cycleFocus_forward key m Hk Hf) as Hstep.
    pose proof (cycleFocus_len key m) as Hlen.
    rewrite IH, Hlen, Hstep; [|done|].
    + rewrite Z.add_mod_idemp_l by lia. f_equal. unfold len. simpl length. lia.
    + rewrite Hlen, Hstep. apply Z.mod_pos_bound. lia.
Qed.

(** C8. After N forward cycles ([tab] or [down]) from focus index 0 on a form
    with [field_count > 0] fields the focus index is [N mod field_count]; a
    forward cycle from the last index gives 0, and a backward cycle ([up] or
    [shift+tab]) from index 0 gives the last index. *)
Theorem C8_cycleFocus_mod m (keys : list string) :
  0 < len (inputs m) -> focusIndex m = 0 -> Forall forwardKey keys ->
  focusIndex (fold_left (fun m key => cycleFocus key m) keys m)
    = len keys mod len (inputs m)
  /\ (forall m' key, forwardKey key -> 0 < len (inputs m') ->
        focusIndex m' = len (inputs m') - 1 ->
        focusIndex (cycleFocus key m') = 0)
  /\ (forall m' key, backwardKey key -> focusIndex m' = 0 ->
        focusIndex (cycleFocus key m') = len (inputs m') - 1).
Proof.
  intros Hn Hf Hall. split_and!.
  - rewrite cycleFocus_forward_iter by (done || lia). by rewrite Hf.
  - intros m' key Hk Hn' Hf'. rewrite cycleFocus_forward by (done || lia).
    replace (focusIndex m' + 1) with (len (inputs m')) by lia.
    by rewrite Z.mod_same by lia.
  - intros m' key Hk Hf'. unfold cycleFocus.
    rewrite (backwardKey_eqb _ Hk), Hf'. done.
Qed.


(** *** The monad *)

Ltac munfold :=
  unfold bind, ret, panic, fetch, mutate, at_ in *.

(** Case analysis on every branch of a handler. *)
Ltac branches :=
  repeat (munfold; simpl in *;
          first [ progress simplify_eq
                | case_match ]).

(** *** What the delegation to a widget leaves unchanged *)

Lemma delegate_frame msg m w m' cmd w' :
  delegate msg m w = Done (m', cmd) w' ->
  sameCore m m' /\ len (inputs m') = len (inputs m) /\ w' = w.
Proof.
  unfold delegate, sameCore, len. intros Hd.
  branches; rewrite ?length_insert; done.
Qed.

Lemma delegateToList_frame msg m w m' cmd w' :
  delegateToList msg m w = Done (m', cmd) w' ->
  sameCore m m' /\ inputs m' = inputs m /\ w' = w.
Proof. unfold delegateToList, sameCore. intros Hd. branches; done. Qed.

Lemma delegateToList_done msg m w :
  exists m' cmd, delegateToList msg m w = Done (m', cmd) w.
Proof.
  unfold delegateToList. munfold.
  destruct (m_screen m); destruct (list_Update _ _); eauto.
Qed.

Lemma resize_frame W Hh m :
  sameCore m (resize W Hh m) /\ inputs (resize W Hh m) = inputs m.
Proof. unfold resize, sameCore. by destruct lipgloss_frameSize. Qed.

Lemma initGlobalRuleInputsPrefilled_frame gr m :
  let m' := initGlobalRuleInputsPrefilled gr m in
  m_screen m' = m_screen m /\ confirmDelete m' = confirmDelete m
  /\ deleteTarget m' = deleteTarget m /\ footer m' = footer m
  /\ rules m' = rules m /\ globalRules m' = globalRules m
  /\ readOnly m' = readOnly m /\ focusIndex m' = 0
  /\ len (inputs m') = 4.
Proof. unfold initGlobalRuleInputsPrefilled. by case_match. Qed.

Lemma refreshRules_frame m w m' w' :
  refreshRules m w = Done m' w' ->
  m_screen m' = m_screen m /\ confirmDelete m' = confirmDelete m
  /\ deleteTarget m' = deleteTarget m /\ footer m' = footer m
  /\ globalRules m' = globalRules m /\ mutations w' = mutations w.
Proof. unfold refreshRules, mutations. intros Hr. branches; done. Qed.

Lemma refreshGlobalRules_frame m w m' w' :
  refreshGlobalRules m w = Done m' w' ->
  m_screen m' = m_screen m /\ confirmDelete m' = confirmDelete m
  /\ deleteTarget m' = deleteTarget m /\ footer m' = footer m
  /\ rules m' = rules m /\ mutations w' = mutations w.
Proof. unfold refreshGlobalRules, mutations. intros Hr. branches; done. Qed.

(** *** The invariant *)

Lemma initialModel_wellFormed o w0 m w :
  initialModel o w0 = Done (inl m) w -> wellFormed m.
Proof.
  unfold initialModel, wellFormed. intros Hi. branches; done.
Qed.

Ltac unfold_handlers H :=
  unfold screenKey, handleEnter, handleRulesListKey, handlePolicyFormSubmit,
    handleGlobalFormSubmit, handleReorderUp, handleReorderDown, reorder,
    handleDeleteConfirm, refreshRules, refreshGlobalRules, delegate,
    delegateToList in H.

Lemma cycleFocus_wellFormed key m :
  wellFormed m -> wellFormed (cycleFocus key m).
Proof.
  unfold wellFormed, onListScreen. intros (Ho & Hf & Hn).
  rewrite cycleFocus_len. unfold cycleFocus.
  repeat case_match; simpl; split_and!; auto; lia.
Qed.

Ltac close_wf :=
  unfold wellFormed, onListScreen, len in *; simpl;
  rewrite ?length_insert;
  repeat match goal with
         | Hs : m_screen ?m = _ |- context [m_screen ?m] => rewrite Hs
         end;
  simpl; split_and!; auto; try congruence; try lia.

Lemma Update_wellFormed m msg w m' cmd w' :
  wellFormed m -> Update m msg w = Done (m', cmd) w' -> wellFormed m'.
Proof.
  intros Hinv Hu.
  destruct msg as [W Hh|key|tag]; cbn [Update] in Hu.
  - apply delegate_frame in Hu as [(Hs & Hc & _ & _ & _ & _ & _ & Hf) [Hl _]].
    destruct (resize_frame W Hh m)
      as ((Hs' & Hc' & _ & _ & _ & _ & _ & Hf') & Hi).
    unfold wellFormed, onListScreen in *.
    rewrite Hs, Hc, Hs', Hc', Hf, Hf', Hl, Hi. done.
  - destruct (confirmDelete m) eqn:Hcd.
    + destruct Hinv as (Ho & Hf & Hn). unfold_handlers Hu.
      branches; close_wf.
    + destruct Hinv as (_ & Hf & Hn).
      unfold_handlers Hu.
      branches; try (apply cycleFocus_wellFormed); close_wf.
      * destruct (m_screen m); simpl in *; auto; discriminate.
      * pose proof (initGlobalRuleInputsPrefilled_frame g m) as Hfr.
        cbv zeta in Hfr. intros Hc. destruct Hfr as (_ & Hc' & _). congruence.
      * pose proof (initGlobalRuleInputsPrefilled_frame g m) as Hfr.
        cbv zeta in Hfr. lia.
      * pose proof (initGlobalRuleInputsPrefilled_frame g m) as Hfr.
        cbv zeta in Hfr. unfold len in Hfr. lia.
      * pose proof (initGlobalRuleInputsPrefilled_frame g m) as Hfr.
        cbv zeta in Hfr. unfold len in Hfr. intros _. apply Hfr.
  - apply delegate_frame in Hu as [(Hs & Hc & _ & _ & _ & _ & _ & Hf) [Hl _]].
    unfold wellFormed, onListScreen in *. rewrite Hs, Hc, Hf, Hl. done.
Qed.

Lemma reachable_wellFormed m w : reachable m w -> wellFormed m.
Proof.
  induction 1 as [o w0 m w Hi | m w msg m' cmd w' _ IH Hu].
  - by eapply initialModel_wellFormed.
  - by eapply Update_wellFormed.
Qed.

(** *** Quitting *)

(** C3 (amended). [ctrl+c] quits from every state in which the delete
    confirmation is not open.  While it is open the overlay takes the key as
    it takes every key: it closes, the target is cleared, no command is
    returned and the store is not called. *)
Theorem C3_ctrl_c_quits_outside_overlay m w :
  (confirmDelete m = false ->
     Update m (KeyMsg "ctrl+c") w = Done (m, Quit) w)
  /\ (confirmDelete m = true ->
     Update m (KeyMsg "ctrl+c") w
     = Done (set_deleteTarget "" (set_confirmDelete false m), nilCmd) w).
Proof.
  split; intros Hcd; unfold Update; rewrite Hcd; [done|].
  unfold handleDeleteConfirm. by munfold.
Qed.

(** *** Read-only mode *)

(** C5. In read-only mode each of the keys a, e, d, u, k, j on the rules or
    global rules screen leaves both collections and the world (so the store)
    unchanged, and the console stays on its list screen. *)
Theorem C5_read_only_keys m w key :
  readOnly m = true -> onListScreen m ->
  In key ["a"; "e"; "d"; "u"; "k"; "j"] ->
  exists m' cmd,
    Update m (KeyMsg key) w = Done (m', cmd) w
    /\ rules m' = rules m /\ globalRules m' = globalRules m
    /\ m_screen m' = m_screen m /\ isFormScreen (m_screen m') = false.
Proof.
  intros Hro Hlist Hkey.
  assert (Hform : isFormScreen (m_screen m) = false)
    by (destruct Hlist as [-> | ->]; done).
  assert (Hnoty : String.eqb key "y" = false
                  /\ String.eqb key "ctrl+c" = false
                  /\ String.eqb key "q" = false
                  /\ String.eqb key "esc" = false).
  { simpl in Hkey. destruct_or!; subst; done. }
  destruct Hnoty as (Hy & Hc & Hq & He).
  unfold Update. destruct (confirmDelete m) eqn:Hcd.
  - unfold handleDeleteConfirm. rewrite Hy. munfold.
    eexists _, _. split_and!; done.
  - rewrite Hc, Hq, He.
    assert (Hsk : screenKey (KeyMsg key) key m
                  = delegateToList (KeyMsg key) m).
    { unfold screenKey, handleRulesListKey. rewrite Hro.
      destruct Hlist as [-> | ->]; done. }
    rewrite Hsk.
    destruct (delegateToList_done (KeyMsg key) m w) as (m' & cmd & Hd).
    pose proof (delegateToList_frame _ _ _ _ _ _ Hd)
      as ((Hs & _ & _ & _ & Hr & Hg & _) & _).
    exists m', cmd. rewrite Hs. done.
Qed.

(** *** The delete confirmation *)

Lemma mutations_cons_ne (c : StoreCall) (l : list StoreCall) : c :: l <> l.
Proof.
  intros Heq. apply (f_equal length) in Heq. simpl in Heq. lia.
Qed.

(** C4. While the delete confirmation is open, every key closes it and
    clears the target.  The key [y] makes exactly one write to the store, the
    removal of the target from the list underneath; any other key leaves the
    world (so the store) and both collections as they are. *)
Theorem C4_delete_confirmation m w key :
  reachable m w -> confirmDelete m = true ->
  exists m' w',
    Update m (KeyMsg key) w = Done (m', nilCmd) w'
    /\ confirmDelete m' = false /\ deleteTarget m' = ""
    /\ (key = "y" -> mutations w' = removeCall m :: mutations w)
    /\ (key <> "y" ->
        w' = w /\ rules m' = rules m /\ globalRules m' = globalRules m)
    /\ (mutations w' <> mutations w <-> key = "y").
Proof.
  intros Hreach Hcd.
  destruct (reachable_wellFormed _ _ Hreach) as (Hlist & _).
  specialize (Hlist Hcd).
  unfold Update. rewrite Hcd. unfold handleDeleteConfirm, removeCall.
  destruct (String.eqb_spec key "y") as [-> | Hne].
  - destruct Hlist as [Hs | Hs]; rewrite Hs;
      unfold refreshRules, refreshGlobalRules, mutations; branches;
      eexists _, _; (split; [reflexivity|]); simpl;
      split_and!; try done;
      try (split; [done | intros _; apply mutations_cons_ne]).
  - munfold. eexists _, _. split; [reflexivity|]. simpl.
    split_and!; try done. all: try (intros []; done).
Qed.

(** *** Form submit *)

(** Enter on the last field of the rule form: one write to the store, with
    the rule of the three fields and its split principals. *)
Lemma handlePolicyFormSubmit_last m w i0 i1 i2 :
  inputs m = [i0; i1; i2] -> focusIndex m = 2 -> onPolicyForm m ->
  let r := mkRule (Value i0) (Value i1) (Value i2) in
  let keys := splitAndTrim (Value i2) in
  exists m' w',
    handlePolicyFormSubmit m w = Done (m', nilCmd) w'
    /\ mutations w' = policySubmitCall (m_screen m) r keys :: mutations w
    /\ match snd (policySubmit m r keys (repo w)) with
       | Some e => m' = set_footer ("Error: " +:+ e) m
       | None =>
           m_screen m' = screenPolicyRules
           /\ footer m' = match m_screen m with
                          | screenPolicyAddRule => "Rule added successfully!"
                          | _ => "Rule updated successfully!"
                          end
       end.
Proof.
  intros Hin Hf Hs r keys.
  unfold handlePolicyFormSubmit, policySubmit, policySubmitCall, mutations,
    refreshRules.
  rewrite Hin, Hf. subst r keys.
  destruct Hs as [Hs | Hs]; rewrite Hs; branches;
    eexists _, _; split_and!; simpl; try done.
Qed.

(** Enter on the last field of the global rule form. *)
Lemma handleGlobalFormSubmit_last m w i0 i1 i2 i3 :
  inputs m = [i0; i1; i2; i3] -> focusIndex m = 3 -> onGlobalForm m ->
  let gr := mkGlobalRule (Value i0) (Value i1) (splitAndTrim (Value i2))
              (submittedThreshold (Value i1) (Value i3)) in
  exists m' w',
    handleGlobalFormSubmit m w = Done (m', nilCmd) w'
    /\ mutations w' = globalSubmitCall (m_screen m) gr :: mutations w
    /\ match snd (globalSubmit m gr (repo w)) with
       | Some e => m' = set_footer ("Error: " +:+ e) m
       | None =>
           m_screen m' = screenTrustGlobalRules
           /\ footer m' = match m_screen m with
                          | screenTrustAddGlobalRule => "Global rule added!"
                          | _ => "Global rule updated!"
                          end
       end.
Proof.
  intros Hin Hf Hs gr.
  unfold handleGlobalFormSubmit, globalSubmit, globalSubmitCall, mutations,
    refreshGlobalRules.
  rewrite Hin, Hf. subst gr. unfold submittedThreshold.
  destruct Hs as [Hs | Hs]; rewrite Hs; branches;
    eexists _, _; split_and!; simpl; try done.
Qed.

Lemma formScreen_cases m :
  isFormScreen (m_screen m) = true -> onPolicyForm m \/ onGlobalForm m.
Proof.
  unfold onPolicyForm, onGlobalForm. destruct (m_screen m); simpl; auto;
    discriminate.
Qed.

(** Enter on a form screen without the overlay is the submit handler of the
    form. *)
Lemma Update_enter_form m w :
  confirmDelete m = false ->
  (onPolicyForm m ->
     Update m (KeyMsg "enter") w = handlePolicyFormSubmit m w)
  /\ (onGlobalForm m ->
     Update m (KeyMsg "enter") w = handleGlobalFormSubmit m w).
Proof.
  intros Hcd. unfold Update, screenKey. rewrite Hcd.
  split; intros [Hs | Hs]; rewrite Hs; done.
Qed.

Lemma list_of_len3 {A} (l : list A) :
  len l = 3 -> exists a b c, l = [a; b; c].
Proof.
  unfold len. destruct l as [|a [|b [|c [|d l]]]]; simpl; intros Hl; try lia.
  eauto.
Qed.

Lemma list_of_len4 {A} (l : list A) :
  len l = 4 -> exists a b c d, l = [a; b; c; d].
Proof.
  unfold len. destruct l as [|a [|b [|c [|d [|e l]]]]]; simpl; intros Hl;
    try lia.
  eauto.
Qed.

(** C7. On a form screen, Enter with the focus before the last field is a
    forward focus cycle: the focus index grows by one and the world (so the
    store) is untouched.  A step of Enter that calls the store started on the
    last field, and Enter on the last field makes exactly one write, the Add
    or Update of the screen. *)
Theorem C7_enter_submits_on_last_field_only m w :
  reachable m w -> isFormScreen (m_screen m) = true ->
  (focusIndex m < len (inputs m) - 1 ->
     Update m (KeyMsg "enter") w = Done (cycleFocus "tab" m, nilCmd) w
     /\ focusIndex (cycleFocus "tab" m) = focusIndex m + 1)
  /\ (forall m' cmd w',
        Update m (KeyMsg "enter") w = Done (m', cmd) w' ->
        calls w' <> calls w -> focusIndex m = len (inputs m) - 1)
  /\ (focusIndex m = len (inputs m) - 1 ->
      exists m' w' c,
        Update m (KeyMsg "enter") w = Done (m', nilCmd) w'
        /\ mutations w' = c :: mutations w
        /\ isSubmitOf (m_screen m) c = true).
Proof.
  intros Hreach Hform.
  destruct (reachable_wellFormed _ _ Hreach) as (Ho & Hf & Hn).
  assert (Hcd : confirmDelete m = false).
  { destruct (confirmDelete m); [|done].
    destruct (Ho eq_refl) as [Hs | Hs]; rewrite Hs in Hform; discriminate. }
  destruct (Update_enter_form m w Hcd) as [Hp Hg].
  assert (Hadv : focusIndex m < len (inputs m) - 1 ->
            Update m (KeyMsg "enter") w = Done (cycleFocus "tab" m, nilCmd) w).
  { intros Hlt. apply Z.ltb_lt in Hlt.
    destruct (formScreen_cases m Hform) as [Hs | Hs].
    - rewrite (Hp Hs). unfold handlePolicyFormSubmit. by rewrite Hlt.
    - rewrite (Hg Hs). unfold handleGlobalFormSubmit. by rewrite Hlt. }
  split_and!.
  - intros Hlt. split; [by apply Hadv|].
    rewrite cycleFocus_forward by (by left || lia).
    apply Z.mod_small. lia.
  - intros m' cmd w' Hu Hcalls.
    destruct (Z.lt_ge_cases (focusIndex m) (len (inputs m) - 1)) as [Hlt|];
      [|lia].
    rewrite (Hadv Hlt) in Hu. inversion Hu; subst. by destruct Hcalls.
  - intros Hlast. specialize (Hn Hform).
    destruct (formScreen_cases m Hform) as [Hs | Hs].
    + assert (Hc : fieldCount (m_screen m) = 3)
        by (destruct Hs as [-> | ->]; done).
      destruct (list_of_len3 (inputs m)) as (i0 & i1 & i2 & Hin); [lia|].
      destruct (handlePolicyFormSubmit_last m w i0 i1 i2 Hin) as
        (m' & w' & Hsub & Hmut & _); [lia|done|].
      rewrite (Hp Hs). eexists m', w', _. split_and!; [done..|].
      destruct Hs as [-> | ->]; done.
    + assert (Hc : fieldCount (m_screen m) = 4)
        by (destruct Hs as [-> | ->]; done).
      destruct (list_of_len4 (inputs m)) as (i0 & i1 & i2 & i3 & Hin); [lia|].
      destruct (handleGlobalFormSubmit_last m w i0 i1 i2 i3 Hin) as
        (m' & w' & Hsub & Hmut & _); [lia|done|].
      rewrite (Hg Hs). eexists m', w', _. split_and!; [done..|].
      destruct Hs as [-> | ->]; done.
Qed.

(** *** Comma-separated fields *)

(** C10. [splitAndTrim] never returns the empty list, and gives the list of
    the empty string on the empty string: Enter on the last field of a rule
    form whose principals field is empty calls the store with the principals
    [[""]], and on the last field of a global rule form whose namespaces
    field is empty with a global rule of patterns [[""]]. *)
Theorem C10_split_never_empty :
  (forall s, splitAndTrim s <> [])
  /\ splitAndTrim "" = [""]
  /\ (forall m w i0 i1 i2,
        confirmDelete m = false -> onPolicyForm m ->
        inputs m = [i0; i1; i2] -> focusIndex m = 2 -> Value i2 = "" ->
        exists m' w',
          Update m (KeyMsg "enter") w = Done (m', nilCmd) w'
          /\ mutations w'
             = policySubmitCall (m_screen m)
                 (mkRule (Value i0) (Value i1) "") [""] :: mutations w)
  /\ (forall m w i0 i1 i2 i3,
        confirmDelete m = false -> onGlobalForm m ->
        inputs m = [i0; i1; i2; i3] -> focusIndex m = 3 -> Value i2 = "" ->
        exists m' w',
          Update m (KeyMsg "enter") w = Done (m', nilCmd) w'
          /\ mutations w'
             = globalSubmitCall (m_screen m)
                 (mkGlobalRule (Value i0) (Value i1) [""]
                    (submittedThreshold (Value i1) (Value i3)))
               :: mutations w).
Proof.
  split_and!.
  - apply splitAndTrim_nonempty.
  - reflexivity.
  - intros m w i0 i1 i2 Hcd Hs Hin Hf Hv.
    destruct (Update_enter_form m w Hcd) as [Hp _]. rewrite (Hp Hs).
    destruct (handlePolicyFormSubmit_last m w i0 i1 i2 Hin Hf Hs)
      as (m' & w' & Hsub & Hmut & _).
    rewrite Hv in Hmut. eauto.
  - intros m w i0 i1 i2 i3 Hcd Hs Hin Hf Hv.
    destruct (Update_enter_form m w Hcd) as [_ Hg]. rewrite (Hg Hs).
    destruct (handleGlobalFormSubmit_last m w i0 i1 i2 i3 Hin Hf Hs)
      as (m' & w' & Hsub & Hmut & _).
    rewrite Hv in Hmut. eauto.
Qed.

(** *** The threshold of a global rule *)

(** C9 (amended). Enter on the last field of the global rule form always
    calls the store, whatever the threshold field holds.  The threshold of
    the submitted rule is 0 when the type field is not the threshold type;
    otherwise it is the value [Atoi] leaves for the threshold field, its
    error dropped.  When the field is a decimal number (an optional sign
    followed by one or more digits) that is the number if it lies in the
    range of [int] (2 for ["2"]), and the nearest bound of [int] otherwise.
    When the field is no decimal number it is 0, unless the digits after the
    sign run over 64 bits before the first character that is no digit:
    [Atoi] then stops with a range error before it reads that character, and
    the threshold is the bound of the sign, [2^63 - 1] or [-2^63]. *)
Theorem C9_threshold_of_submit m w i0 i1 i2 i3 :
  confirmDelete m = false -> onGlobalForm m ->
  inputs m = [i0; i1; i2; i3] -> focusIndex m = 3 ->
  exists m' w' thr,
    Update m (KeyMsg "enter") w = Done (m', nilCmd) w'
    /\ mutations w'
       = globalSubmitCall (m_screen m)
           (mkGlobalRule (Value i0) (Value i1) (splitAndTrim (Value i2)) thr)
         :: mutations w
    /\ (Value i1 <> GlobalRuleThresholdType -> thr = 0)
    /\ (Value i1 = GlobalRuleThresholdType ->
        thr = fst (strconv.Atoi (Value i3))
        /\ (isDecimal (Value i3) = true ->
            thr = clampInt (numberOf (Value i3))
            /\ (- 2 ^ 63 <= numberOf (Value i3) <= 2 ^ 63 - 1 ->
                thr = numberOf (Value i3)
                /\ snd (strconv.Atoi (Value i3)) = None)
            /\ (numberOf (Value i3) < - 2 ^ 63 -> thr = - 2 ^ 63)
            /\ (2 ^ 63 - 1 < numberOf (Value i3) -> thr = 2 ^ 63 - 1))
        /\ (isDecimal (Value i3) = false ->
            (digitsOverflow (Value i3) = false ->
             thr = 0
             /\ snd (strconv.Atoi (Value i3)) = Some strconv.ErrSyntax)
            /\ (digitsOverflow (Value i3) = true ->
                thr = boundOfSign (Value i3)
                /\ snd (strconv.Atoi (Value i3)) = Some strconv.ErrRange))
        /\ (snd (strconv.Atoi (Value i3)) = Some strconv.ErrSyntax ->
            thr = 0)
        /\ (snd (strconv.Atoi (Value i3)) = Some strconv.ErrRange ->
            thr = boundOfSign (Value i3)
            /\ (thr = 2 ^ 63 - 1 \/ thr = - 2 ^ 63))
        /\ (Value i3 = "2" -> thr = 2)).
Proof.
  intros Hcd Hs Hin Hf.
  destruct (Update_enter_form m w Hcd) as [_ Hg]. rewrite (Hg Hs).
  destruct (handleGlobalFormSubmit_last m w i0 i1 i2 i3 Hin Hf Hs)
    as (m' & w' & Hsub & Hmut & _).
  eexists m', w', _. split_and!; [exact Hsub | exact Hmut | ..].
  - intros Hne. unfold submittedThreshold.
    by destruct (String.eqb_spec (Value i1) GlobalRuleThresholdType).
  - intros Heq. unfold submittedThreshold. rewrite Heq. cbn [String.eqb].
    change (String.eqb GlobalRuleThresholdType GlobalRuleThresholdType)
      with true. cbv iota.
    pose proof (Atoi_reads (Value i3)) as Hread.
    split; [done|]. split; [|split; [|split; [|split]]].
    + intros Hdec. rewrite Hdec in Hread.
      assert (Hclamp : fst (strconv.Atoi (Value i3))
                       = clampInt (numberOf (Value i3))).
      { destruct (digitsOverflow (Value i3)) eqn:Hov; rewrite Hread; [|done].
        unfold isDecimal in Hdec. apply andb_true_iff in Hdec as [_ Hall].
        apply String.eqb_eq in Hall.
        unfold digitsOverflow in Hov. rewrite Hall in Hov.
        apply Z.leb_le in Hov. change (2 ^ 64) with 18446744073709551616 in Hov.
        unfold boundOfSign, clampInt, numberOf. cbn [fst].
        change (2 ^ 63) with 9223372036854775808.
        destruct (negative (Value i3)); lia. }
      rewrite Hclamp. unfold clampInt.
      change (2 ^ 63) with 9223372036854775808.
      split; [done|]. split; [|split; lia].
      intros Hin'. split; [lia|].
      destruct (digitsOverflow (Value i3)) eqn:Hov.
      * exfalso. unfold isDecimal in Hdec.
        apply andb_true_iff in Hdec as [_ Hall]. apply String.eqb_eq in Hall.
        unfold digitsOverflow in Hov. rewrite Hall in Hov.
        apply Z.leb_le in Hov. change (2 ^ 64) with 18446744073709551616 in Hov.
        unfold numberOf in Hin'. destruct (negative (Value i3)); lia.
      * rewrite Hread. cbn [snd].
        change (2 ^ 63) with 9223372036854775808.
        repeat match goal with
               | |- context [?a <=? ?b] => destruct (Z.leb_spec a b)
               end; cbn [andb]; (done || lia).
    + intros Hdec. rewrite Hdec in Hread.
      split; intros Hov; rewrite Hov in Hread; by rewrite Hread.
    + apply Atoi_syntax_zero.
    + intros Hrange. split; [|by apply Atoi_range_clamped].
      destruct (digitsOverflow (Value i3)) eqn:Hov; [by rewrite Hread|].
      destruct (isDecimal (Value i3)) eqn:Hdec;
        [|by rewrite Hread in Hrange].
      rewrite Hread in Hrange |- *. cbn [fst snd] in *.
      unfold isDecimal in Hdec. apply andb_true_iff in Hdec as [_ Hall].
      apply String.eqb_eq in Hall.
      unfold digitsOverflow in Hov. rewrite Hall in Hov.
      pose proof (decimalValueFrom_ge (leadingDigits (unsignedPart (Value i3)))
                    0 ltac:(lia) (leadingDigits_digits _)) as Hge.
      rewrite Hall in Hge. fold (decimalValue (unsignedPart (Value i3))) in Hge.
      unfold boundOfSign, clampInt, numberOf in *.
      change (2 ^ 63) with 9223372036854775808 in *.
      destruct (negative (Value i3));
        repeat match type of Hrange with
               | context [?a <=? ?b] => destruct (Z.leb_spec a b)
               end; cbn [andb] in Hrange; try done; lia.
    + by intros ->.
Qed.

(** *** Reordering *)

Lemma swap_adjacent_nat {A} (pre : list A) a b post :
  (pre ++ a :: b :: post) !! length pre = Some a
  /\ (pre ++ a :: b :: post) !! S (length pre) = Some b
  /\ <[S (length pre) := a]> (<[length pre := b]> (pre ++ a :: b :: post))
     = pre ++ b :: a :: post
  /\ <[length pre := b]> (<[S (length pre) := a]> (pre ++ a :: b :: post))
     = pre ++ b :: a :: post.
Proof.
  induction pre as [|x pre (IH1 & IH2 & IH3 & IH4)]; simpl; [done|].
  split_and!; [done | done | by rewrite IH3 | by rewrite IH4].
Qed.

(** The swap of two neighbours, from either of them. *)
Lemma swap_adjacent {A} (pre : list A) a b post :
  swap (pre ++ a :: b :: post) (len pre) (len pre + 1)
    = Some (pre ++ b :: a :: post)
  /\ swap (pre ++ a :: b :: post) (len pre + 1) (len pre)
    = Some (pre ++ b :: a :: post).
Proof.
  destruct (swap_adjacent_nat pre a b post) as (H1 & H2 & H3 & H4).
  unfold swap, index, len.
  destruct (Z.ltb_spec (Z.of_nat (length pre)) 0); [lia|].
  destruct (Z.ltb_spec (Z.of_nat (length pre) + 1) 0); [lia|].
  replace (Z.to_nat (Z.of_nat (length pre) + 1)) with (S (length pre)) by lia.
  rewrite Nat2Z.id, H1, H2, H3, H4. done.
Qed.

Lemma reorder_failed m w i j rs e :
  swap (rules m) i j = Some rs ->
  snd (repoReorderRules (options_ m) rs (repo w)) = Some e ->
  exists w',
    reorder i j m w
    = Done (set_footer ("Error reordering rules: " +:+ e) (set_rules rs m),
            nilCmd) w'
    /\ mutations w' = CallReorderRules rs :: mutations w.
Proof.
  intros Hswap Herr. unfold reorder, mutations. rewrite Hswap. munfold.
  simpl in *. destruct (repoReorderRules _ _ _) as [r' err]. simpl in *.
  subst err. eauto.
Qed.

(** C1 (amended). A reorder that swaps two neighbouring rules and whose
    persistence call fails does not undo the swap: the model it returns has
    the two rules exchanged, its footer reports the error of the store, and
    its list view is the one from before.  The store was called with the
    swapped sequence. *)
Theorem C1_failed_reorder_keeps_the_swap m w pre a b post e :
  rules m = pre ++ a :: b :: post ->
  snd (repoReorderRules (options_ m) (pre ++ b :: a :: post) (repo w))
    = Some e ->
  (list_Index (ruleList m) = len pre + 1 ->
     exists m' w',
       handleReorderUp m w = Done (m', nilCmd) w'
       /\ rules m' = pre ++ b :: a :: post
       /\ footer m' = "Error reordering rules: " +:+ e
       /\ ruleList m' = ruleList m
       /\ mutations w'
          = CallReorderRules (pre ++ b :: a :: post) :: mutations w)
  /\ (list_Index (ruleList m) = len pre ->
     exists m' w',
       handleReorderDown m w = Done (m', nilCmd) w'
       /\ rules m' = pre ++ b :: a :: post
       /\ footer m' = "Error reordering rules: " +:+ e
       /\ ruleList m' = ruleList m
       /\ mutations w'
          = CallReorderRules (pre ++ b :: a :: post) :: mutations w).
Proof.
  intros Hrules Herr.
  destruct (swap_adjacent pre a b post) as [Hdown Hup].
  split; intros Hidx.
  - unfold handleReorderUp. rewrite Hidx.
    destruct (Z.ltb_spec 0 (len pre + 1)); [|unfold len in *; lia].
    replace (len pre + 1 - 1) with (len pre) by lia.
    destruct (reorder_failed m w (len pre + 1) (len pre)
                (pre ++ b :: a :: post) e) as (w' & Hr & Hm);
      [by rewrite Hrules | done |].
    rewrite Hr. eexists _, w'. split_and!; done.
  - unfold handleReorderDown. rewrite Hidx, Hrules.
    destruct (Z.ltb_spec (len pre) (len (pre ++ a :: b :: post) - 1)) as [|Hge].
    2:{ unfold len in Hge. rewrite length_app in Hge. simpl in Hge. lia. }
    destruct (reorder_failed m w (len pre) (len pre + 1)
                (pre ++ b :: a :: post) e) as (w' & Hr & Hm);
      [by rewrite Hrules | done |].
    rewrite Hr. eexists _, w'. split_and!; done.
Qed.

(** *** The footer *)

Lemma backwardKey_of_eqb key :
  String.eqb key "up" || String.eqb key "shift+tab" = true -> backwardKey key.
Proof.
  intros Hb. apply orb_true_iff in Hb as [Hb | Hb];
    apply String.eqb_eq in Hb; [by left | by right].
Qed.

Lemma cycleFocus_footer key m :
  footer (cycleFocus key m)
  = if (String.eqb key "up" || String.eqb key "shift+tab")
       && (0 <? focusIndex m)
    then "" else footer m.
Proof. unfold cycleFocus. repeat case_match; simpl in *; done. Qed.

#[local] Opaque cycleFocus.

Ltac mutation_absurd :=
  simpl in *;
  match goal with
  | Hm : _ :: List.filter isMutation ?l = List.filter isMutation ?l |- _ =>
      by destruct (mutations_cons_ne _ _ Hm)
  end.

(** C2 (amended). A key press leaves the footer as it was unless it is [esc]
    outside the overlay, or it makes a write to the store (the outcome of a
    create, update, delete or reorder), or it is a backward focus cycle
    ([up], [shift+tab]) on a form from a field that is not the first: that
    one clears the footer.  The forward focus keys ([tab], [down]) on a form
    leave the footer unchanged, and so do the backward keys on the first
    field. *)
Theorem C2_footer_persists m w key m' cmd w' :
  Update m (KeyMsg key) w = Done (m', cmd) w' ->
  (mutations w' = mutations w ->
   key <> "esc" \/ confirmDelete m = true ->
   ~ clearsOnBack m key ->
   footer m' = footer m)
  /\ (clearsOnBack m key -> footer m' = "")
  /\ (confirmDelete m = false -> isFormScreen (m_screen m) = true ->
      forwardKey key \/ (backwardKey key /\ focusIndex m <= 0) ->
      footer m' = footer m).
Proof.
  intros Hu. split_and!.
  - intros Hmut Hesc Hback. unfold Update in Hu.
    destruct (confirmDelete m) eqn:Hcd.
    + unfold_handlers Hu. unfold mutations in *.
      branches; try done; try mutation_absurd.
    + destruct Hesc as [Hesc | ?]; [|done].
      destruct (String.eqb_spec key "esc"); [done|].
      assert (Hcyc : forall k, k = key \/ k = "tab" ->
                isFormScreen (m_screen m) = true ->
                footer (cycleFocus k m) = footer m).
      { intros k Hk Hform. rewrite cycleFocus_footer.
        destruct (_ || _) eqn:Hb; [|done].
        destruct (Z.ltb_spec 0 (focusIndex m)); [|done].
        destruct Hk as [-> | ->]; [|done].
        destruct Hback. split_and!; auto using backwardKey_of_eqb. }
      unfold_handlers Hu. unfold mutations in *.
      branches; try done; try mutation_absurd;
        try (apply Hcyc; [auto | first [done | congruence]]).
      pose proof (initGlobalRuleInputsPrefilled_frame g m) as Hfr.
      cbv zeta in Hfr. simpl. by destruct Hfr as (_ & _ & _ & -> & _).
  - intros (Hcd & Hform & Hbk & Hpos). unfold Update in Hu. rewrite Hcd in Hu.
    assert (Hk : String.eqb key "ctrl+c" = false /\ String.eqb key "q" = false
                 /\ String.eqb key "esc" = false
                 /\ String.eqb key "enter" = false
                 /\ isCycleKey key = true)
      by (destruct Hbk as [-> | ->]; done).
    destruct Hk as (Hk1 & Hk2 & Hk3 & Hk4 & Hk5).
    rewrite Hk1, Hk2, Hk3 in Hu. unfold screenKey in Hu.
    rewrite Hk4, Hk5 in Hu.
    destruct (m_screen m); try discriminate; munfold; simplify_eq;
      rewrite cycleFocus_footer, (backwardKey_eqb _ Hbk);
      by destruct (Z.ltb_spec 0 (focusIndex m)); [|lia].
  - intros Hcd Hform Hkey. unfold Update in Hu. rewrite Hcd in Hu.
    assert (Hk : String.eqb key "ctrl+c" = false /\ String.eqb key "q" = false
                 /\ String.eqb key "esc" = false
                 /\ String.eqb key "enter" = false
                 /\ isCycleKey key = true)
      by (destruct Hkey as [[-> | ->] | [[-> | ->] _]]; done).
    destruct Hk as (Hk1 & Hk2 & Hk3 & Hk4 & Hk5).
    rewrite Hk1, Hk2, Hk3 in Hu. unfold screenKey in Hu.
    rewrite Hk4, Hk5 in Hu.
    assert (Hnc : (String.eqb key "up" || String.eqb key "shift+tab")
                  && (0 <? focusIndex m) = false).
    { destruct Hkey as [Hfw | [Hbk Hle]].
      - by rewrite (forwardKey_not_backward _ Hfw).
      - rewrite (backwardKey_eqb _ Hbk).
        by destruct (Z.ltb_spec 0 (focusIndex m)); [lia|]. }
    destruct (m_screen m); try discriminate; munfold; simplify_eq;
      by rewrite cycleFocus_footer, Hnc.
Qed.

#[local] Transparent cycleFocus.

(** *** Editing without a change *)

Lemma Update_e_rule m w sel r :
  m_screen m = screenPolicyRules -> readOnly m = false ->
  confirmDelete m = false ->
  list_SelectedItem (ruleList m) = Some sel ->
  find (fun r => String.eqb (name r) (title sel)) (rules m) = Some r ->
  Update m (KeyMsg "e") w
  = Done (set_m_screen screenPolicyEditRule (initRuleInputsPrefilled r m),
          nilCmd) w.
Proof.
  intros Hs Hro Hcd Hsel Hfind. unfold Update, screenKey, handleRulesListKey.
  rewrite Hcd, Hs, Hro. simpl. rewrite Hsel, Hfind. done.
Qed.

Lemma Update_e_globalRule m w sel gr :
  m_screen m = screenTrustGlobalRules -> readOnly m = false ->
  confirmDelete m = false ->
  list_SelectedItem (globalRuleList m) = Some sel ->
  find (fun gr => String.eqb (ruleName gr) (title sel)) (globalRules m)
    = Some gr ->
  Update m (KeyMsg "e") w
  = Done (set_m_screen screenTrustEditGlobalRule
            (initGlobalRuleInputsPrefilled gr m), nilCmd) w.
Proof.
  intros Hs Hro Hcd Hsel Hfind. unfold Update, screenKey, handleRulesListKey.
  rewrite Hcd, Hs, Hro. simpl. rewrite Hsel, Hfind. done.
Qed.

Lemma cycleFocus_frame key m :
  m_screen (cycleFocus key m) = m_screen m
  /\ confirmDelete (cycleFocus key m) = confirmDelete m
  /\ options_ (cycleFocus key m) = options_ m
  /\ map Value (inputs (cycleFocus key m)) = map Value (inputs m).
Proof.
  assert (Hv : forall f (l : list textinput),
            map Value (imap (refocus f) l) = map Value l).
  { intros f l. apply list_eq. intros i.
    rewrite !list_lookup_fmap, list_lookup_imap.
    destruct (l !! i) as [t|]; [|done]. simpl.
    unfold refocus. by case_match. }
  unfold cycleFocus. repeat case_match; simpl; rewrite Hv; done.
Qed.

(** Enter before the last field of a form. *)
Lemma Update_enter_advance m w :
  confirmDelete m = false -> isFormScreen (m_screen m) = true ->
  focusIndex m < len (inputs m) - 1 ->
  Update m (KeyMsg "enter") w = Done (cycleFocus "tab" m, nilCmd) w.
Proof.
  intros Hcd Hform Hlt. apply Z.ltb_lt in Hlt.
  destruct (Update_enter_form m w Hcd) as [Hp Hg].
  destruct (formScreen_cases m Hform) as [Hs | Hs].
  - rewrite (Hp Hs). unfold handlePolicyFormSubmit. by rewrite Hlt.
  - rewrite (Hg Hs). unfold handleGlobalFormSubmit. by rewrite Hlt.
Qed.

(** Enter on each field before the last one of a fresh form: the focus is on
    the last field, the values of the fields are as they were and the world
    is untouched. *)
Lemma run_enter_to_last (n : nat) : forall m w,
  confirmDelete m = false -> isFormScreen (m_screen m) = true ->
  0 <= focusIndex m -> focusIndex m + Z.of_nat n = len (inputs m) - 1 ->
  exists m',
    (forall rest, run (repeat (KeyMsg "enter") n ++ rest) m w = run rest m' w)
    /\ focusIndex m' = len (inputs m) - 1
    /\ m_screen m' = m_screen m /\ confirmDelete m' = false
    /\ options_ m' = options_ m
    /\ map Value (inputs m') = map Value (inputs m).
Proof.
  induction n as [|n IH]; intros m w Hcd Hform Hf0 Hf.
  - exists m. split_and!; try done. lia.
  - destruct (cycleFocus_frame "tab" m) as (Hs & Hc & Ho & Hv).
    pose proof (cycleFocus_len "tab" m) as Hl.
    assert (Hlt : focusIndex m < len (inputs m) - 1) by lia.
    pose proof (cycleFocus_forward "tab" m (or_introl eq_refl)
                  ltac:(lia)) as Hfi.
    rewrite Z.mod_small in Hfi by lia.
    destruct (IH (cycleFocus "tab" m) w)
      as (m' & Hrun & Hf' & Hs' & Hc' & Ho' & Hv');
      [congruence | congruence | lia | lia |].
    exists m'. split_and!; try congruence.
    intros rest. cbn [repeat app run]. unfold bind at 1.
    rewrite Update_enter_advance by done. apply Hrun.
Qed.

Lemma roundtrip_rule m w sel r :
  m_screen m = screenPolicyRules -> readOnly m = false ->
  confirmDelete m = false ->
  list_SelectedItem (ruleList m) = Some sel ->
  find (fun r => String.eqb (name r) (title sel)) (rules m) = Some r ->
  keptAsIs (name r) -> keptAsIs (pattern r) -> keptAsIs (key r) ->
  exists m' w',
    run (editAndSubmit 3) m w = Done m' w'
    /\ mutations w' = CallUpdateRule r (splitAndTrim (key r)) :: mutations w
    /\ (snd (repoUpdateRule (options_ m) r (splitAndTrim (key r)) (repo w))
          = None ->
        m_screen m' = screenPolicyRules
        /\ footer m' = "Rule updated successfully!").
Proof.
  intros Hs Hro Hcd Hsel Hfind Hn Hp Hk. unfold keptAsIs in *.
  unfold editAndSubmit. cbn [run]. unfold bind at 1.
  rewrite (Update_e_rule m w sel r) by done. cbn [fst].
  set (m1 := set_m_screen screenPolicyEditRule (initRuleInputsPrefilled r m)).
  destruct (run_enter_to_last 2 m1 w)
    as (m3 & Hrun & Hf3 & Hs3 & Hc3 & Ho3 & Hv3);
    [done..|].
  change (repeat (KeyMsg "enter") 3)
    with (repeat (KeyMsg "enter") 2 ++ [KeyMsg "enter"]).
  rewrite Hrun. cbn [run]. unfold bind at 1.
  destruct (list_of_len3 (inputs m3)) as (i0 & i1 & i2 & Hin).
  { apply (f_equal length) in Hv3. rewrite !length_map in Hv3.
    unfold len. rewrite Hv3. done. }
  rewrite Hin in Hv3. simpl in Hv3. rewrite Hn, Hp, Hk in Hv3.
  injection Hv3 as Hv0 Hv1 Hv2.
  destruct (Update_enter_form m3 w Hc3) as [Hpf _].
  assert (Hon : onPolicyForm m3) by (right; by rewrite Hs3).
  rewrite (Hpf Hon).
  destruct (handlePolicyFormSubmit_last m3 w i0 i1 i2 Hin) as
    (m' & w' & Hsub & Hmut & Hres); [by rewrite Hf3 | done |].
  rewrite Hv0, Hv1, Hv2 in Hmut, Hres.
  replace (mkRule (name r) (pattern r) (key r)) with r in * by (by destruct r).
  rewrite Hsub. exists m', w'. split_and!.
  - done.
  - rewrite Hmut, Hs3. done.
  - intros Hok. unfold policySubmit in Hres. rewrite Hs3, Ho3 in Hres.
    simpl in Hres. rewrite Hok in Hres. done.
Qed.

Lemma roundtrip_globalRule m w sel gr :
  m_screen m = screenTrustGlobalRules -> readOnly m = false ->
  confirmDelete m = false ->
  list_SelectedItem (globalRuleList m) = Some sel ->
  find (fun gr => String.eqb (ruleName gr) (title sel)) (globalRules m)
    = Some gr ->
  formFaithful gr ->
  exists m' w',
    run (editAndSubmit 4) m w = Done m' w'
    /\ mutations w' = CallUpdateGlobalRule (resubmitted gr) :: mutations w
    /\ (snd (repoUpdateGlobalRule (options_ m) (resubmitted gr) (repo w))
          = None ->
        m_screen m' = screenTrustGlobalRules
        /\ footer m' = "Global rule updated!").
Proof.
  intros Hs Hro Hcd Hsel Hfind (Hn & Ht & Hp & Hj & Hthr).
  unfold keptAsIs in *.
  unfold editAndSubmit. cbn [run]. unfold bind at 1.
  rewrite (Update_e_globalRule m w sel gr) by done. cbn [fst].
  set (m1 := set_m_screen screenTrustEditGlobalRule
               (initGlobalRuleInputsPrefilled gr m)).
  pose proof (initGlobalRuleInputsPrefilled_frame gr m) as Hfr.
  cbv zeta in Hfr. destruct Hfr as (_ & Hc1 & _ & _ & _ & _ & _ & Hf1 & Hl1).
  assert (Hv1 : map Value (inputs m1)
                = [ruleName gr; ruleType gr;
                   strings.Join (rulePatterns gr) ", ";
                   if String.eqb (ruleType gr) GlobalRuleThresholdType
                   then fmt.Sprintf_d (threshold gr) else ""]).
  { subst m1. unfold initGlobalRuleInputsPrefilled.
    destruct (String.eqb_spec (ruleType gr) GlobalRuleThresholdType) as [He|];
      simpl; rewrite Hn, Ht, Hp; [|done].
    destruct (Hthr He) as [-> _]. done. }
  assert (Ho1 : options_ m1 = options_ m).
  { subst m1. unfold initGlobalRuleInputsPrefilled. by case_match. }
  destruct (run_enter_to_last 3 m1 w)
    as (m4 & Hrun & Hf4 & Hs4 & Hc4 & Ho4 & Hv4);
    [subst m1; simpl; congruence | done | subst m1; simpl; lia
    | subst m1; simpl; lia |].
  change (repeat (KeyMsg "enter") 4)
    with (repeat (KeyMsg "enter") 3 ++ [KeyMsg "enter"]).
  rewrite Hrun. cbn [run]. unfold bind at 1.
  destruct (list_of_len4 (inputs m4)) as (i0 & i1 & i2 & i3 & Hin).
  { apply (f_equal length) in Hv4. rewrite !length_map in Hv4.
    unfold len in *. rewrite Hv4. subst m1. simpl. lia. }
  rewrite Hv1, Hin in Hv4. simpl in Hv4. injection Hv4 as Hv0 Hv1' Hv2 Hv3.
  destruct (Update_enter_form m4 w Hc4) as [_ Hgf].
  assert (Hon : onGlobalForm m4) by (right; by rewrite Hs4).
  rewrite (Hgf Hon).
  destruct (handleGlobalFormSubmit_last m4 w i0 i1 i2 i3 Hin) as
    (m' & w' & Hsub & Hmut & Hres);
    [rewrite Hf4; subst m1; simpl; lia | done |].
  assert (Hgr : mkGlobalRule (Value i0) (Value i1) (splitAndTrim (Value i2))
                  (submittedThreshold (Value i1) (Value i3))
                = resubmitted gr).
  { rewrite Hv0, Hv1', Hv2, Hv3, splitAndTrim_Join by done.
    unfold resubmitted, submittedThreshold. f_equal.
    destruct (String.eqb_spec (ruleType gr) GlobalRuleThresholdType) as [He|];
      [|done].
    destruct (Hthr He) as [_ Hrange]. by rewrite Atoi_Sprintf_d. }
  rewrite Hgr in Hmut, Hres.
  rewrite Hsub. exists m', w'. split_and!.
  - done.
  - rewrite Hmut, Hs4. done.
  - intros Hok. unfold globalSubmit in Hres. rewrite Hs4, Ho4, Ho1 in Hres.
    simpl in Hres. rewrite Hok in Hres. done.
Qed.

Lemma resubmitted_threshold gr :
  ruleType gr = GlobalRuleThresholdType -> resubmitted gr = gr.
Proof.
  intros He. unfold resubmitted. rewrite He.
  change (String.eqb GlobalRuleThresholdType GlobalRuleThresholdType) with true.
  cbv iota. rewrite <- He. by destruct gr.
Qed.

(** C6 (amended). An edit submitted without a change ([e], then Enter on
    each field) makes one write to the store, the update of the edited
    entity.  For a rule whose three fields the text inputs keep as they are,
    the update carries the rule itself and the principals split from its key;
    when the store accepts it the console is back on the rules screen with
    the footer "Rule updated successfully!".  For a global rule the update
    carries the name, the type and the patterns of the rule, and its
    threshold when the type is the threshold type (0 otherwise), provided the
    text inputs keep the fields as they are and the patterns are not empty,
    hold no comma and have no white space at their ends. *)
Theorem C6_unchanged_edit_resubmits_the_entity m w sel :
  readOnly m = false -> confirmDelete m = false ->
  (forall r,
     m_screen m = screenPolicyRules ->
     list_SelectedItem (ruleList m) = Some sel ->
     find (fun r => String.eqb (name r) (title sel)) (rules m) = Some r ->
     keptAsIs (name r) -> keptAsIs (pattern r) -> keptAsIs (key r) ->
     exists m' w',
       run (editAndSubmit 3) m w = Done m' w'
       /\ mutations w'
          = CallUpdateRule r (splitAndTrim (key r)) :: mutations w
       /\ (snd (repoUpdateRule (options_ m) r (splitAndTrim (key r))
                  (repo w)) = None ->
           m_screen m' = screenPolicyRules
           /\ footer m' = "Rule updated successfully!"))
  /\ (forall gr,
     m_screen m = screenTrustGlobalRules ->
     list_SelectedItem (globalRuleList m) = Some sel ->
     find (fun gr => String.eqb (ruleName gr) (title sel)) (globalRules m)
       = Some gr ->
     formFaithful gr ->
     exists m' w',
       run (editAndSubmit 4) m w = Done m' w'
       /\ mutations w' = CallUpdateGlobalRule (resubmitted gr) :: mutations w
       /\ ruleName (resubmitted gr) = ruleName gr
       /\ ruleType (resubmitted gr) = ruleType gr
       /\ rulePatterns (resubmitted gr) = rulePatterns gr
       /\ (ruleType gr = GlobalRuleThresholdType ->
           threshold (resubmitted gr) = threshold gr)
       /\ (snd (repoUpdateGlobalRule (options_ m) (resubmitted gr) (repo w))
             = None ->
           m_screen m' = screenTrustGlobalRules
           /\ footer m' = "Global rule updated!")).
Proof.
  intros Hro Hcd. split.
  - intros r Hs Hsel Hfind Hn Hp Hk. by eapply roundtrip_rule.
  - intros gr Hs Hsel Hfind Hff.
    destruct (roundtrip_globalRule m w sel gr) as (m' & w' & Hrun & Hmut & Hok);
      [done..|].
    exists m', w'. split_and!; try done.
    intros He. by rewrite resubmitted_threshold.
Qed.

(** *** Runs *)

Lemma reachable_run msgs : forall m w m' w',
  reachable m w -> run msgs m w = Done m' w' -> reachable m' w'.
Proof.
  induction msgs as [|msg msgs IH]; intros m w m' w' Hr Hrun.
  - cbn in Hrun. unfold ret in Hrun. by simplify_eq.
  - cbn [run] in Hrun. unfold bind in Hrun.
    destruct (Update m msg w) as [[m1 cmd] w1|] eqn:Hu; [|done].
    eapply IH; [|exact Hrun]. by eapply reach_step.
Qed.

(** ** Further properties of the console *)

(** *** Navigation *)

Ltac rewrite_screens :=
  repeat match goal with
         | Hs : m_screen ?m = _ |- context [m_screen ?m] => rewrite Hs
         end.

#[local] Opaque edge.

(** X1. Every message moves the console along the navigation graph: a form
    is entered only from its list screen and left only to it, a list screen
    only from and to its menu, and the menus only from and to the first
    screen. *)
Theorem X1_steps_follow_the_navigation_graph m msg w m' cmd w' :
  Update m msg w = Done (m', cmd) w' -> edge (m_screen m) (m_screen m') = true.
Proof.
  intros Hu. destruct msg as [W Hh|key|tag]; cbn [Update] in Hu.
  - apply delegate_frame in Hu as [(Hs & _) _].
    destruct (resize_frame W Hh m) as ((Hs' & _) & _).
    rewrite Hs, Hs'. by destruct (m_screen m).
  - unfold_handlers Hu.
    branches; simpl; rewrite_screens;
      try (pose proof (initGlobalRuleInputsPrefilled_frame g m) as Hfr;
           cbv zeta in Hfr);
      try (vm_compute; reflexivity);
      try (destruct (m_screen m); vm_compute; reflexivity);
      try (destruct (m_screen a); vm_compute; reflexivity);
      try (destruct (m_screen m'); vm_compute; reflexivity).
  - apply delegate_frame in Hu as [(Hs & _) _]. rewrite Hs.
    by destruct (m_screen m).
Qed.

#[local] Transparent edge.

(** *** Read-only sessions *)

Lemma Update_readOnly_flag m msg w m' cmd w' :
  Update m msg w = Done (m', cmd) w' -> readOnly m' = readOnly m.
Proof.
  intros Hu. destruct msg as [W Hh|key|tag]; cbn [Update] in Hu.
  - apply delegate_frame in Hu as [(_ & _ & _ & _ & _ & _ & Hr & _) _].
    destruct (resize_frame W Hh m) as ((_ & _ & _ & _ & _ & _ & Hr' & _) & _).
    congruence.
  - unfold_handlers Hu. branches; try done.
    pose proof (initGlobalRuleInputsPrefilled_frame g m) as Hfr.
    cbv zeta in Hfr. simpl. by destruct Hfr as (_ & _ & _ & _ & _ & _ & -> & _).
  - by apply delegate_frame in Hu as [(_ & _ & _ & _ & _ & _ & Hr & _) _].
Qed.

Lemma Update_readOnly_quiet m msg w m' cmd w' :
  readOnly m = true -> isFormScreen (m_screen m) = false ->
  confirmDelete m = false ->
  Update m msg w = Done (m', cmd) w' ->
  isFormScreen (m_screen m') = false /\ confirmDelete m' = false
  /\ mutations w' = mutations w.
Proof.
  intros Hro Hform Hcd Hu. destruct msg as [W Hh|key|tag]; cbn [Update] in Hu.
  - apply delegate_frame in Hu as [(Hs & Hc & _) [_ ->]].
    destruct (resize_frame W Hh m) as ((Hs' & Hc' & _) & _).
    rewrite Hs, Hc, Hs', Hc'. done.
  - rewrite Hcd in Hu. unfold_handlers Hu. unfold mutations.
    branches; simpl; rewrite_screens; try done.
    by destruct (m_screen m).
  - apply delegate_frame in Hu as [(Hs & Hc & _) [_ ->]].
    rewrite Hs, Hc. done.
Qed.

Lemma initialModel_readOnlySafe o w0 m w :
  initialModel o w0 = Done (inl m) w -> readOnlySafe m.
Proof. unfold initialModel, readOnlySafe. intros Hi. branches; done. Qed.

Lemma reachable_readOnlySafe m w : reachable m w -> readOnlySafe m.
Proof.
  induction 1 as [o w0 m w Hi | m w msg m' cmd w' _ IH Hu].
  - by eapply initialModel_readOnlySafe.
  - intros Hro. rewrite (Update_readOnly_flag _ _ _ _ _ _ Hu) in Hro.
    destruct (IH Hro) as [Hform Hcd].
    by destruct (Update_readOnly_quiet _ _ _ _ _ _ Hro Hform Hcd Hu) as (? & ? & _).
Qed.

(** X2. A read-only console never writes to the store: from a reachable
    read-only state, whatever messages follow, the console stays read-only,
    makes no store write, opens no form and no delete confirmation. *)
Theorem X2_read_only_session_never_writes msgs : forall m w m' w',
  reachable m w -> readOnly m = true ->
  run msgs m w = Done m' w' ->
  readOnly m' = true /\ mutations w' = mutations w
  /\ isFormScreen (m_screen m') = false /\ confirmDelete m' = false.
Proof.
  induction msgs as [|msg msgs IH]; intros m w m' w' Hr Hro Hrun.
  - cbn in Hrun. unfold ret in Hrun. simplify_eq.
    destruct (reachable_readOnlySafe _ _ Hr Hro). done.
  - cbn [run] in Hrun. unfold bind in Hrun.
    destruct (Update m msg w) as [[m1 cmd] w1|] eqn:Hu; [|done].
    destruct (reachable_readOnlySafe _ _ Hr Hro) as [Hform Hcd].
    destruct (Update_readOnly_quiet _ _ _ _ _ _ Hro Hform Hcd Hu)
      as (_ & _ & Hmut).
    pose proof (Update_readOnly_flag _ _ _ _ _ _ Hu) as Hflag.
    destruct (IH m1 w1 m' w') as (? & Hmut' & ? & ?);
      [by eapply reach_step | congruence | exact Hrun |].
    split_and!; congruence.
Qed.

(** *** The delete flow *)

Lemma initialModel_tidy o w0 m w :
  initialModel o w0 = Done (inl m) w -> tidy m.
Proof. unfold initialModel, tidy. intros Hi. branches; done. Qed.

Lemma Update_tidy m msg w m' cmd w' :
  tidy m -> Update m msg w = Done (m', cmd) w' -> tidy m'.
Proof.
  unfold tidy. intros Ht Hu.
  destruct msg as [W Hh|key|tag]; cbn [Update] in Hu.
  - apply delegate_frame in Hu as [(_ & Hc & Hd & _) _].
    destruct (resize_frame W Hh m) as ((_ & Hc' & Hd' & _) & _).
    rewrite Hc, Hd, Hc', Hd'. done.
  - unfold_handlers Hu.
    branches; simpl; try done; try (intros; apply Ht; congruence).
    pose proof (initGlobalRuleInputsPrefilled_frame g m) as Hfr.
    cbv zeta in Hfr. destruct Hfr as (_ & -> & -> & _). auto.
  - apply delegate_frame in Hu as [(_ & Hc & Hd & _) _].
    rewrite Hc, Hd. done.
Qed.

Lemma reachable_tidy m w : reachable m w -> tidy m.
Proof.
  induction 1 as [o w0 m w Hi | m w msg m' cmd w' _ IH Hu].
  - by eapply initialModel_tidy.
  - by eapply Update_tidy.
Qed.

(** The selection of the list under the overlay. *)
Lemma Update_d m w sel :
  onListScreen m -> readOnly m = false -> confirmDelete m = false ->
  (match m_screen m with
   | screenPolicyRules => list_SelectedItem (ruleList m)
   | _ => list_SelectedItem (globalRuleList m)
   end) = Some sel ->
  Update m (KeyMsg "d") w
  = Done (set_deleteTarget (title sel) (set_confirmDelete true m), nilCmd) w.
Proof.
  intros Hs Hro Hcd Hsel. unfold Update, screenKey, handleRulesListKey.
  rewrite Hcd, Hro.
  destruct Hs as [Hs | Hs]; rewrite Hs in *; simpl; by rewrite Hsel.
Qed.

Lemma close_overlay_id m t :
  confirmDelete m = false -> deleteTarget m = "" ->
  set_deleteTarget ""
    (set_confirmDelete false
       (set_deleteTarget t (set_confirmDelete true m))) = m.
Proof. destruct m. simpl. by intros -> ->. Qed.

(** X3. A cancelled deletion leaves no trace: on a list screen of a console
    that can write, [d] on a selected item followed by any key other than [y]
    gives back the very same model and world; in between, the overlay is
    open on the title of the selected item and the store is untouched. *)
Theorem X3_cancelled_deletion_is_a_no_op m w sel key :
  reachable m w -> onListScreen m -> readOnly m = false ->
  confirmDelete m = false ->
  (match m_screen m with
   | screenPolicyRules => list_SelectedItem (ruleList m)
   | _ => list_SelectedItem (globalRuleList m)
   end) = Some sel ->
  key <> "y" ->
  (exists m1,
     Update m (KeyMsg "d") w = Done (m1, nilCmd) w
     /\ confirmDelete m1 = true /\ deleteTarget m1 = title sel
     /\ m_screen m1 = m_screen m)
  /\ run [KeyMsg "d"; KeyMsg key] m w = Done m w.
Proof.
  intros Hr Hs Hro Hcd Hsel Hkey.
  pose proof (Update_d m w sel Hs Hro Hcd Hsel) as Hd.
  split; [eexists; split; [exact Hd | done]|].
  cbn [run]. unfold bind at 1. rewrite Hd. cbn [fst].
  unfold bind, Update. cbn [confirmDelete set_deleteTarget set_confirmDelete].
  unfold handleDeleteConfirm.
  destruct (String.eqb_spec key "y"); [done|]. munfold. cbn [fst].
  rewrite close_overlay_id; [done | done |].
  by apply (reachable_tidy m w).
Qed.

(** X4. A confirmed deletion of a rule: [d] on the selected rule followed by
    [y] makes one store write, the removal of a rule with the selected title.
    When the store accepts it the model holds the rules of the store after
    the removal, its list view is rebuilt from them and the footer reports
    the removal; when the store refuses, the rules and the list view are as
    before and the footer carries the error.  The overlay is closed either
    way and the console stays on the rules screen. *)
Theorem X4_confirmed_rule_deletion m w sel :
  m_screen m = screenPolicyRules -> readOnly m = false ->
  confirmDelete m = false ->
  list_SelectedItem (ruleList m) = Some sel ->
  exists m' w',
    run [KeyMsg "d"; KeyMsg "y"] m w = Done m' w'
    /\ mutations w' = CallRemoveRule (mkRule (title sel) "" "") :: mutations w
    /\ repo w'
       = fst (repoRemoveRule (options_ m) (mkRule (title sel) "" "") (repo w))
    /\ confirmDelete m' = false /\ deleteTarget m' = ""
    /\ m_screen m' = screenPolicyRules
    /\ match snd (repoRemoveRule (options_ m) (mkRule (title sel) "" "")
                    (repo w)) with
       | None =>
           rules m' = getCurrRules (options_ m) (repo w')
           /\ ruleList m' = list_SetItems (map ruleItem (rules m')) (ruleList m)
           /\ footer m' = "Rule removed successfully!"
       | Some e =>
           rules m' = rules m /\ ruleList m' = ruleList m
           /\ footer m' = "Error removing rule: " +:+ e
       end.
Proof.
  intros Hs Hro Hcd Hsel.
  assert (Hd : Update m (KeyMsg "d") w
               = Done (set_deleteTarget (title sel) (set_confirmDelete true m),
                       nilCmd) w).
  { apply Update_d; [by left | done | done | by rewrite Hs]. }
  cbn [run]. unfold bind at 1. rewrite Hd. cbn [fst].
  unfold bind at 1, Update. cbn [confirmDelete set_deleteTarget set_confirmDelete].
  unfold handleDeleteConfirm. cbn [String.eqb Ascii.eqb Bool.eqb].
  cbn [m_screen set_deleteTarget set_confirmDelete]. rewrite Hs.
  unfold refreshRules, mutations. munfold. simpl.
  destruct (repoRemoveRule _ _ _) as [r' [e|]]; simpl;
    eexists _, _; split_and!; simpl; try done.
Qed.

(** *** Reordering *)

Lemma adjacent_decompose {A} (s : list A) (k : Z) a b :
  index s k = Some a -> index s (k + 1) = Some b ->
  exists pre post, s = pre ++ a :: b :: post /\ len pre = k.
Proof.
  unfold index. intros Ha Hb.
  destruct (Z.ltb_spec k 0); [done|].
  destruct (Z.ltb_spec (k + 1) 0); [lia|].
  replace (Z.to_nat (k + 1)) with (S (Z.to_nat k)) in Hb by lia.
  exists (take (Z.to_nat k) s), (drop (S (S (Z.to_nat k))) s). split.
  - rewrite <- (take_drop_middle s (Z.to_nat k) a Ha) at 1. do 2 f_equal.
    apply (drop_S s b (S (Z.to_nat k))). exact Hb.
  - unfold len. rewrite length_take.
    apply lookup_lt_Some in Ha. lia.
Qed.

Lemma reorder_Permutation m w i j m' cmd w' :
  j = i + 1 \/ i = j + 1 ->
  reorder i j m w = Done (m', cmd) w' ->
  rules m ≡ₚ rules m' /\ globalRules m' = globalRules m
  /\ m_screen m' = m_screen m.
Proof.
  intros Hadj Hr. unfold reorder in Hr.
  destruct (swap (rules m) i j) as [rs|] eqn:Hswap; [|done].
  assert (Hperm : rules m ≡ₚ rs).
  { unfold swap in Hswap.
    destruct (index (rules m) i) as [a|] eqn:Ha; [|done].
    destruct (index (rules m) j) as [b|] eqn:Hb; [|done].
    destruct Hadj as [-> | ->].
    - destruct (adjacent_decompose _ _ _ _ Ha Hb) as (pre & post & Hs & Hl).
      destruct (swap_adjacent pre a b post) as [Hsw _].
      unfold swap in Hsw. rewrite <- Hs, Hl, Ha, Hb in Hsw.
      rewrite Hswap in Hsw. simplify_eq. rewrite Hs at 1.
      apply Permutation_app_head, perm_swap.
    - destruct (adjacent_decompose _ _ _ _ Hb Ha) as (pre & post & Hs & Hl).
      destruct (swap_adjacent pre b a post) as [_ Hsw].
      unfold swap in Hsw. rewrite <- Hs, Hl, Ha, Hb in Hsw.
      rewrite Hswap in Hsw. simplify_eq. rewrite Hs at 1.
      apply Permutation_app_head, perm_swap. }
  branches; done.
Qed.

(** X5. A reorder only permutes: whatever the store answers, the rules of the
    model [handleReorderUp] or [handleReorderDown] returns are a permutation
    of the rules before (so as many), and the global rules and the screen are
    as before.  At the boundaries nothing happens at all: with the cursor on
    the first rule [handleReorderUp], and with the cursor on the last rule or
    beyond [handleReorderDown], returns the model and the world unchanged. *)
Theorem X5_reorder_permutes_the_rules m w :
  (forall m' cmd w',
     handleReorderUp m w = Done (m', cmd) w'
     \/ handleReorderDown m w = Done (m', cmd) w' ->
     rules m ≡ₚ rules m' /\ length (rules m') = length (rules m)
     /\ globalRules m' = globalRules m /\ m_screen m' = m_screen m)
  /\ (list_Index (ruleList m) <= 0 ->
      handleReorderUp m w = Done (m, nilCmd) w)
  /\ (len (rules m) - 1 <= list_Index (ruleList m) ->
      handleReorderDown m w = Done (m, nilCmd) w).
Proof.
  split_and!.
  - assert (Hboth : forall m' cmd w',
              handleReorderUp m w = Done (m', cmd) w'
              \/ handleReorderDown m w = Done (m', cmd) w' ->
              rules m ≡ₚ rules m' /\ globalRules m' = globalRules m
              /\ m_screen m' = m_screen m).
    { intros m' cmd w' [Hu | Hu].
      - unfold handleReorderUp in Hu. case_match.
        + eapply reorder_Permutation; [|exact Hu]. right. lia.
        + unfold ret in Hu. by simplify_eq.
      - unfold handleReorderDown in Hu. case_match.
        + eapply reorder_Permutation; [|exact Hu]. by left.
        + unfold ret in Hu. by simplify_eq. }
    intros m' cmd w' Hu. destruct (Hboth m' cmd w' Hu) as (Hp & Hg & Hs).
    split_and!; try done. by rewrite Hp.
  - intros Hle. unfold handleReorderUp.
    by destruct (Z.ltb_spec 0 (list_Index (ruleList m))); [lia|].
  - intros Hle. unfold handleReorderDown.
    by destruct (Z.ltb_spec (list_Index (ruleList m)) (len (rules m) - 1));
      [lia|].
Qed.

(** X6. A reorder the store accepts: with the cursor on the second of two
    neighbouring rules [handleReorderUp], and with the cursor on the first of
    them [handleReorderDown], exchanges the two, sends the whole new sequence
    to the store in one write, rebuilds the list view from the new sequence
    and sets the footer "Rules reordered successfully!".  The rules are not
    fetched again from the store. *)
Theorem X6_accepted_reorder m w pre a b post :
  rules m = pre ++ a :: b :: post ->
  snd (repoReorderRules (options_ m) (pre ++ b :: a :: post) (repo w)) = None ->
  let done_ (r : outcome (model * Cmd)) :=
    exists m' w',
      r = Done (m', nilCmd) w'
      /\ rules m' = pre ++ b :: a :: post
      /\ ruleList m'
         = list_SetItems (map ruleItem (pre ++ b :: a :: post)) (ruleList m)
      /\ footer m' = "Rules reordered successfully!"
      /\ calls w' = CallReorderRules (pre ++ b :: a :: post) :: calls w
      /\ repo w'
         = fst (repoReorderRules (options_ m) (pre ++ b :: a :: post) (repo w))
  in
  (list_Index (ruleList m) = len pre + 1 -> done_ (handleReorderUp m w))
  /\ (list_Index (ruleList m) = len pre -> done_ (handleReorderDown m w)).
Proof.
  intros Hrules Hok done_.
  destruct (swap_adjacent pre a b post) as [Hdown Hup].
  assert (Hre : forall i j,
            swap (rules m) i j = Some (pre ++ b :: a :: post) ->
            done_ (reorder i j m w)).
  { intros i j Hswap. unfold done_, reorder. rewrite Hswap. munfold.
    simpl in *. destruct (repoReorderRules _ _ _) as [r' err]. simpl in *.
    subst err. eexists _, _. split_and!; done. }
  split; intros Hidx.
  - unfold handleReorderUp. rewrite Hidx.
    destruct (Z.ltb_spec 0 (len pre + 1)); [|unfold len in *; lia].
    replace (len pre + 1 - 1) with (len pre) by lia.
    apply Hre. by rewrite Hrules.
  - unfold handleReorderDown. rewrite Hidx, Hrules.
    destruct (Z.ltb_spec (len pre) (len (pre ++ a :: b :: post) - 1)) as [|Hge].
    2:{ unfold len in Hge. rewrite length_app in Hge. simpl in Hge. lia. }
    apply Hre. by rewrite Hrules.
Qed.

(** *** Index safety *)

Lemma index_None {A} (s : list A) (i : Z) :
  index s i = None -> i < 0 \/ len s <= i.
Proof.
  unfold index, len. destruct (Z.ltb_spec i 0); [auto|].
  intros Hn. apply lookup_ge_None in Hn. lia.
Qed.

Lemma swap_None {A} (s : list A) (i j : Z) :
  swap s i j = None -> i < 0 \/ len s <= i \/ j < 0 \/ len s <= j.
Proof.
  unfold swap. intros Hs.
  destruct (index s i) eqn:Hi; [|apply index_None in Hi; lia].
  destruct (index s j) eqn:Hj; [done|apply index_None in Hj; lia].
Qed.

Ltac out_of_range :=
  exfalso;
  repeat match goal with
         | Hn : ?x = ?x -> _ |- _ => specialize (Hn eq_refl)
         end;
  match goal with
  | Hi : index _ _ = None |- _ => apply index_None in Hi
  | Hs : swap _ _ _ = None |- _ => apply swap_None in Hs
  end;
  repeat match goal with
         | Hb : (_ <? _) = true |- _ => apply Z.ltb_lt in Hb
         | Hb : (_ <? _) = false |- _ => apply Z.ltb_ge in Hb
         end;
  unfold len in *; simpl in *; lia.

(** X7. No index is out of range: from a reachable state whose list cursor
    points into the rules, every message is handled without a panic. *)
Theorem X7_no_index_out_of_range m w msg :
  reachable m w -> cursorInRules m ->
  exists m' cmd w', Update m msg w = Done (m', cmd) w'.
Proof.
  intros Hr [Hc0 Hc1]. destruct (reachable_wellFormed _ _ Hr) as (_ & Hf & Hn).
  destruct (Update m msg w) as [[m' cmd] w'|] eqn:Hu; [eauto|]. exfalso.
  destruct msg as [W Hh|key|tag]; cbn [Update] in Hu.
  - unfold delegate in Hu.
    destruct (resize_frame W Hh m) as ((Hs & _ & _ & _ & _ & _ & _ & Hfi) & Hin).
    rewrite Hs, Hfi, Hin in Hu. branches; out_of_range.
  - unfold_handlers Hu. branches; out_of_range.
  - unfold delegate in Hu. branches; out_of_range.
Qed.

(** *** Leaving with esc *)

(** X8. Three presses of [esc] lead to the first screen from anywhere: with
    the overlay closed, the model after them is the model before with the
    screen set to the first screen and the footer cleared, nothing else
    changed, and the world is untouched.  From a form two presses are not
    enough: they lead to the menu above the list of the form. *)
Theorem X8_esc_unwinds_to_the_first_screen m w :
  confirmDelete m = false ->
  run (repeat (KeyMsg "esc") 3) m w
    = Done (set_m_screen screenChoice (set_footer "" m)) w
  /\ (isFormScreen (m_screen m) = true ->
      run (repeat (KeyMsg "esc") 2) m w
      = Done (set_m_screen (escTarget (escTarget (m_screen m)))
                (set_footer "" m)) w
      /\ escTarget (escTarget (m_screen m)) <> screenChoice).
Proof.
  intros Hcd. destruct m as [s ? ? ? ? ? ? ? ? ? ? ? ? ? ? ? cd ?].
  simpl in Hcd. subst cd. split.
  - by destruct s.
  - intros Hform. by destruct s.
Qed.

(** *** The focus of a form *)

Lemma cycleFocus_backward key m :
  backwardKey key -> 0 <= focusIndex m < len (inputs m) ->
  focusIndex (cycleFocus key m) = (focusIndex m - 1) mod len (inputs m).
Proof.
  intros Hk Hf. unfold cycleFocus. rewrite (backwardKey_eqb _ Hk).
  destruct (Z.ltb_spec 0 (focusIndex m)); simpl.
  - by rewrite Z.mod_small by lia.
  - replace (focusIndex m - 1) with (-1) by lia.
    rewrite <- (Z.mod_add _ 1) by lia.
    rewrite Z.mod_small by lia. lia.
Qed.

Lemma cycleFocus_inputs key m :
  inputs (cycleFocus key m)
  = imap (refocus (focusIndex (cycleFocus key m))) (inputs m).
Proof. unfold cycleFocus. by repeat case_match. Qed.

Lemma initInputs_singleFocus fields m :
  singleFocus (set_focusIndex 0 (set_inputs (initInputs fields) m)).
Proof.
  intros i t. simpl. unfold initInputs.
  rewrite list_lookup_imap. destruct (fields !! i) as [f|]; [|done].
  simpl. intros [= <-]. unfold initInput. by destruct i.
Qed.

(** X9. [cycleFocus] keeps the single-focus discipline whatever the inputs
    were before: after it exactly the input at the new focus index is focused
    and in the focused style, every other input is blurred.  It changes no
    value of a field and no number of fields.  The fresh forms of
    [initRuleInputs] and [initGlobalRuleInputs] have three and four empty
    fields with the focus on the first. *)
Theorem X9_single_focus key m :
  singleFocus (cycleFocus key m)
  /\ map Value (inputs (cycleFocus key m)) = map Value (inputs m)
  /\ len (inputs (cycleFocus key m)) = len (inputs m)
  /\ singleFocus (initRuleInputs m) /\ focusIndex (initRuleInputs m) = 0
  /\ map Value (inputs (initRuleInputs m)) = [""; ""; ""]
  /\ singleFocus (initGlobalRuleInputs m)
  /\ focusIndex (initGlobalRuleInputs m) = 0
  /\ map Value (inputs (initGlobalRuleInputs m)) = [""; ""; ""; ""].
Proof.
  split_and!; try done.
  - intros i t. rewrite cycleFocus_inputs, list_lookup_imap.
    destruct (inputs m !! i) as [t0|]; [|done]. simpl. intros [= <-].
    unfold refocus. by destruct (Z.of_nat i =? _).
  - apply cycleFocus_frame.
  - apply cycleFocus_len.
  - apply initInputs_singleFocus.
  - apply initInputs_singleFocus.
Qed.

Lemma cycleFocus_range key m :
  0 <= focusIndex m < len (inputs m) ->
  0 <= focusIndex (cycleFocus key m) < len (inputs m).
Proof.
  intros Hf. unfold cycleFocus. repeat case_match; simpl; lia.
Qed.

Lemma cycleFocus_backward_iter keys : forall m,
  Forall backwardKey keys -> 0 <= focusIndex m < len (inputs m) ->
  focusIndex (fold_left (fun m key => cycleFocus key m) keys m)
  = (focusIndex m - len keys) mod len (inputs m).
Proof.
  induction keys as [|key keys IH]; intros m Hall Hf.
  - unfold len at 1. simpl. rewrite Z.sub_0_r, Z.mod_small; lia.
  - inversion Hall as [|? ? Hk Hrest]; subst. cbn [fold_left].
    pose proof (cycleFocus_backward key m Hk Hf) as Hstep.
    pose proof (cycleFocus_len key m) as Hlen.
    rewrite IH, Hlen, Hstep; [|done|].
    + rewrite Zminus_mod_idemp_l. f_equal. unfold len. simpl length. lia.
    + rewrite Hlen, Hstep. apply Z.mod_pos_bound. lia.
Qed.

(** X10. Backward focus cycles mirror the forward ones: from a focus index
    [f] on a form of [n] fields, N backward cycles ([up], [shift+tab]) lead
    to [(f - N) mod n], a backward cycle undoes a forward cycle and a forward
    cycle undoes a backward one. *)
Theorem X10_backward_cycles m (keys : list string) :
  0 <= focusIndex m < len (inputs m) -> Forall backwardKey keys ->
  focusIndex (fold_left (fun m key => cycleFocus key m) keys m)
    = (focusIndex m - len keys) mod len (inputs m)
  /\ (forall fw bw, forwardKey fw -> backwardKey bw ->
        focusIndex (cycleFocus bw (cycleFocus fw m)) = focusIndex m
        /\ focusIndex (cycleFocus fw (cycleFocus bw m)) = focusIndex m).
Proof.
  intros Hf Hall. split; [by apply cycleFocus_backward_iter|].
  intros fw bw Hfw Hbw.
  pose proof (cycleFocus_range fw m Hf) as Hr1.
  pose proof (cycleFocus_range bw m Hf) as Hr2.
  rewrite <- (cycleFocus_len fw m) in Hr1.
  rewrite <- (cycleFocus_len bw m) in Hr2.
  split.
  - rewrite cycleFocus_backward, cycleFocus_len, cycleFocus_forward by done.
    rewrite Zminus_mod_idemp_l.
    replace (focusIndex m + 1 - 1) with (focusIndex m) by lia.
    apply Z.mod_small. lia.
  - rewrite cycleFocus_forward, cycleFocus_len, cycleFocus_backward by done.
    rewrite Zplus_mod_idemp_l.
    replace (focusIndex m - 1 + 1) with (focusIndex m) by lia.
    apply Z.mod_small. lia.
Qed.

(** *** The outcome of a submit *)

(** X11. Enter on the last field of the rule form.  When the store refuses
    the rule the console stays on the form with every field as typed: the
    model is the old one with the footer "Error: " and the error, and the
    store is not read again.  When the store accepts it the rules of the
    model are fetched from the store, the list view is rebuilt from them, the
    console is on the rules screen, and the global rules and the inputs are
    as before. *)
Theorem X11_rule_submit_outcome m w i0 i1 i2 :
  confirmDelete m = false -> onPolicyForm m ->
  inputs m = [i0; i1; i2] -> focusIndex m = 2 ->
  let r := mkRule (Value i0) (Value i1) (Value i2) in
  let keys := splitAndTrim (Value i2) in
  let call := policySubmitCall (m_screen m) r keys in
  let repo' := fst (policySubmit m r keys (repo w)) in
  match snd (policySubmit m r keys (repo w)) with
  | Some e =>
      Update m (KeyMsg "enter") w
      = Done (set_footer ("Error: " +:+ e) m, nilCmd)
          (mkWorld repo' (call :: calls w))
  | None =>
      exists m',
        Update m (KeyMsg "enter") w
        = Done (m', nilCmd)
            (mkWorld repo' (CallGetCurrRules :: call :: calls w))
        /\ m_screen m' = screenPolicyRules
        /\ rules m' = getCurrRules (options_ m) repo'
        /\ ruleList m' = list_SetItems (map ruleItem (rules m')) (ruleList m)
        /\ globalRules m' = globalRules m /\ inputs m' = inputs m
  end.
Proof.
  intros Hcd Hs Hin Hf r keys call repo'.
  destruct (Update_enter_form m w Hcd) as [Hp _]. rewrite (Hp Hs).
  subst r keys call repo'.
  unfold handlePolicyFormSubmit, policySubmit, policySubmitCall, refreshRules.
  rewrite Hin, Hf. munfold. simpl.
  destruct Hs as [Hs | Hs]; rewrite Hs; simpl;
    match goal with
    | |- context [?f (options_ m) ?r ?k (repo w)] =>
        destruct (f (options_ m) r k (repo w)) as [r' [e|]]
    end; simpl; try done; eexists; split_and!; simpl; done.
Qed.

(** X12. Enter on the last field of the global rule form: as for the rule
    form, a refusal of the store leaves the form and its fields as they are
    under the footer "Error: ...", and an acceptance fetches the global rules
    from the store, rebuilds their list view and leads to the global rules
    screen; the rules are untouched. *)
Theorem X12_global_rule_submit_outcome m w i0 i1 i2 i3 :
  confirmDelete m = false -> onGlobalForm m ->
  inputs m = [i0; i1; i2; i3] -> focusIndex m = 3 ->
  let gr := mkGlobalRule (Value i0) (Value i1) (splitAndTrim (Value i2))
              (submittedThreshold (Value i1) (Value i3)) in
  let call := globalSubmitCall (m_screen m) gr in
  let repo' := fst (globalSubmit m gr (repo w)) in
  match snd (globalSubmit m gr (repo w)) with
  | Some e =>
      Update m (KeyMsg "enter") w
      = Done (set_footer ("Error: " +:+ e) m, nilCmd)
          (mkWorld repo' (call :: calls w))
  | None =>
      exists m',
        Update m (KeyMsg "enter") w
        = Done (m', nilCmd)
            (mkWorld repo' (CallGetGlobalRules :: call :: calls w))
        /\ m_screen m' = screenTrustGlobalRules
        /\ globalRules m' = getGlobalRules (options_ m) repo'
        /\ globalRuleList m'
           = list_SetItems (map globalRuleItem (globalRules m'))
               (globalRuleList m)
        /\ rules m' = rules m /\ inputs m' = inputs m
  end.
Proof.
  intros Hcd Hs Hin Hf gr call repo'.
  destruct (Update_enter_form m w Hcd) as [_ Hg]. rewrite (Hg Hs).
  subst gr call repo'.
  unfold handleGlobalFormSubmit, globalSubmit, globalSubmitCall,
    refreshGlobalRules, submittedThreshold.
  rewrite Hin, Hf. munfold. simpl.
  destruct (String.eqb (Value i1) GlobalRuleThresholdType); simpl;
    (destruct Hs as [Hs | Hs]; rewrite Hs; simpl;
     match goal with
     | |- context [?f (options_ m) ?g (repo w)] =>
         destruct (f (options_ m) g (repo w)) as [r' [e|]]
     end; simpl; try done; eexists; split_and!; simpl; done).
Qed.

(** *** Entering the lists and the forms *)

(** X13. Enter on a menu.  On the policy menu with an item selected the
    console goes to the rules screen and shows the rules the store has at
    that moment: they are fetched (one read, no write) and the list view is
    rebuilt from them; likewise on the trust menu for the global rules.  On
    the first screen an item that is neither "Policy" nor "Trust" leads
    nowhere. *)
Theorem X13_enter_loads_the_collection m w it :
  confirmDelete m = false ->
  (m_screen m = screenPolicy ->
   list_SelectedItem (policyScreenList m) = Some it ->
   exists m',
     Update m (KeyMsg "enter") w
     = Done (m', nilCmd) (mkWorld (repo w) (CallGetCurrRules :: calls w))
     /\ m_screen m' = screenPolicyRules
     /\ rules m' = getCurrRules (options_ m) (repo w)
     /\ ruleList m' = list_SetItems (map ruleItem (rules m')) (ruleList m)
     /\ footer m' = footer m /\ globalRules m' = globalRules m)
  /\ (m_screen m = screenTrust ->
     list_SelectedItem (trustScreenList m) = Some it ->
     exists m',
       Update m (KeyMsg "enter") w
       = Done (m', nilCmd) (mkWorld (repo w) (CallGetGlobalRules :: calls w))
       /\ m_screen m' = screenTrustGlobalRules
       /\ globalRules m' = getGlobalRules (options_ m) (repo w)
       /\ globalRuleList m'
          = list_SetItems (map globalRuleItem (globalRules m'))
              (globalRuleList m)
       /\ footer m' = footer m /\ rules m' = rules m)
  /\ (m_screen m = screenChoice ->
     list_SelectedItem (choiceList m) = Some it ->
     title it <> "Policy" -> title it <> "Trust" ->
     Update m (KeyMsg "enter") w = Done (m, nilCmd) w).
Proof.
  intros Hcd. unfold Update, screenKey, handleEnter, refreshRules,
    refreshGlobalRules. rewrite Hcd. simpl.
  split_and!; intros Hs Hsel; rewrite Hs; simpl; rewrite Hsel; munfold; simpl.
  - eexists. split_and!; done.
  - eexists. split_and!; done.
  - intros Hp Ht.
    destruct (String.eqb_spec (title it) "Policy"); [done|].
    by destruct (String.eqb_spec (title it) "Trust").
Qed.

(** X14. [a] on a list screen of a console that can write opens the empty
    form of that list, whatever the inputs held before: every field is
    empty, the focus is on the first field and on it alone, and the footer,
    the collections and the world are as before. *)
Theorem X14_add_opens_an_empty_form m w :
  onListScreen m -> readOnly m = false -> confirmDelete m = false ->
  exists m',
    Update m (KeyMsg "a") w = Done (m', nilCmd) w
    /\ m_screen m' = match m_screen m with
                     | screenPolicyRules => screenPolicyAddRule
                     | _ => screenTrustAddGlobalRule
                     end
    /\ Forall (fun t => Value t = "") (inputs m')
    /\ len (inputs m') = fieldCount (m_screen m')
    /\ focusIndex m' = 0 /\ singleFocus m'
    /\ footer m' = footer m /\ rules m' = rules m
    /\ globalRules m' = globalRules m.
Proof.
  intros Hs Hro Hcd. unfold Update, screenKey, handleRulesListKey.
  rewrite Hcd, Hro.
  pose proof (initInputs_singleFocus ruleFields m) as Hr.
  pose proof (initInputs_singleFocus globalRuleFields m) as Hg.
  destruct Hs as [Hs | Hs]; rewrite Hs; simpl; munfold;
    eexists; split_and!; try done; simpl; repeat constructor.
Qed.

Lemma find_first {A} (P : A -> bool) (pre : list A) x post :
  Forall (fun y => P y = false) pre -> P x = true ->
  find P (pre ++ x :: post) = Some x.
Proof.
  induction 1 as [|y pre Hy _ IH]; intros Hx; simpl.
  - by rewrite Hx.
  - rewrite Hy. by apply IH.
Qed.

Lemma find_none {A} (P : A -> bool) (l : list A) :
  Forall (fun y => P y = false) l -> find P l = None.
Proof. induction 1 as [|y l Hy _ IH]; simpl; [done|]. by rewrite Hy. Qed.

(** X15. [e] on the rules screen edits the first rule that bears the title
    of the selected item: rules of the same name further down are never
    reached.  The form is prefilled with what the text inputs keep of its
    name, pattern and key, the focus is on the first field and the world is
    untouched.  When no rule bears the title no form is opened: the key goes
    to the list. *)
Theorem X15_edit_takes_the_first_match m w sel :
  m_screen m = screenPolicyRules -> readOnly m = false ->
  confirmDelete m = false ->
  list_SelectedItem (ruleList m) = Some sel ->
  (forall pre r post,
     rules m = pre ++ r :: post -> name r = title sel ->
     Forall (fun x => name x <> title sel) pre ->
     exists m',
       Update m (KeyMsg "e") w = Done (m', nilCmd) w
       /\ m_screen m' = screenPolicyEditRule
       /\ map Value (inputs m')
          = [textinput_kept 64 (name r); textinput_kept 64 (pattern r);
             textinput_kept 64 (key r)]
       /\ focusIndex m' = 0 /\ rules m' = rules m /\ footer m' = footer m)
  /\ (Forall (fun x => name x <> title sel) (rules m) ->
      Update m (KeyMsg "e") w = delegateToList (KeyMsg "e") m w).
Proof.
  intros Hs Hro Hcd Hsel.
  assert (Hneq : forall l,
            Forall (fun x => name x <> title sel) l ->
            Forall (fun x => String.eqb (name x) (title sel) = false) l).
  { intros l Hl. eapply Forall_impl; [exact Hl|].
    intros x Hx. by apply String.eqb_neq. }
  split.
  - intros pre r post Hrules Hname Hpre.
    rewrite (Update_e_rule m w sel r Hs Hro Hcd Hsel).
    + eexists. split_and!; done.
    + rewrite Hrules. apply find_first; [by apply Hneq|].
      by apply String.eqb_eq.
  - intros Hall. unfold Update, screenKey, handleRulesListKey.
    rewrite Hcd, Hs, Hro. simpl. rewrite Hsel.
    by rewrite (find_none _ _ (Hneq _ Hall)).
Qed.

(** *** Start-up *)

(** X16. How the console starts.  It fails, before any read of the store,
    when the repository cannot be loaded, and when writing is wanted and
    loading the signer fails for another reason than a missing key.
    Otherwise it starts on the first screen with the overlay closed and the
    empty rule form; it is read-only exactly when read-only mode was asked
    for or no signing key is configured, and the footer explains the
    read-only mode only in the latter case.  When read-only mode is asked for
    the signer is not loaded at all.  The two collections are fetched from
    the store, but the two list views start empty. *)
Theorem X16_start_up o w0 :
  let started (ro : bool) (ft : string) :=
    exists m,
      initialModel o w0
      = Done (inl m)
          (mkWorld (repo w0)
             (CallGetGlobalRules :: CallGetCurrRules :: calls w0))
      /\ m_screen m = screenChoice /\ confirmDelete m = false
      /\ readOnly m = ro /\ footer m = ft
      /\ rules m = getCurrRules o (repo w0)
      /\ globalRules m = getGlobalRules o (repo w0)
      /\ ruleList m = newMenuList "Policy Rules" []
      /\ globalRuleList m = newMenuList "Global Rules" []
      /\ map Value (inputs m) = [""; ""; ""] /\ focusIndex m = 0 in
  match LoadRepository (repo w0) with
  | Some e => initialModel o w0 = Done (inr e) w0
  | None =>
      if o_readOnly o then started true ""
      else
        match LoadSigner (o_SigningKey o) (repo w0) with
        | SignerLoaded => started false ""
        | ErrSigningKeyNotSpecified =>
            started true
              "No signing key found in Git config, running in read-only mode."
        | SignerError e =>
            initialModel o w0
            = Done (inr ("failed to load signing key from Git config: "
                         +:+ e)) w0
        end
  end.
Proof.
  intros started. subst started. unfold initialModel.
  destruct (LoadRepository (repo w0)); [done|].
  destruct (o_readOnly o); simpl;
    [|destruct (LoadSigner (o_SigningKey o) (repo w0))];
    munfold; simpl; try done; eexists; split_and!; done.
Qed.

(** *** Comma-separated fields, both ways *)

Lemma Split_length s sep :
  length (strings.Split s sep) = S (countByte s sep).
Proof.
  induction s as [|c s IH]; simpl; [done|].
  destruct (Ascii.eqb c sep); simpl; [by rewrite IH|].
  destruct (strings.Split s sep); simpl in *; lia.
Qed.

Lemma countByte_app p q sep :
  countByte (p +:+ q) sep = (countByte p sep + countByte q sep)%nat.
Proof. induction p as [|c p IH]; simpl; [done|]. rewrite IH. lia. Qed.

Lemma countByte_0 p sep :
  countByte p sep = 0%nat <-> strings.hasByte p sep = false.
Proof.
  induction p as [|c p IH]; simpl; [done|].
  destruct (Ascii.eqb c sep); simpl; [split; [lia|done]|]. exact IH.
Qed.

Lemma countByte_Join p ps :
  countByte (strings.Join (p :: ps) ", ") ","
  = (countByte p "," + (length ps
     + foldr (fun q n => countByte q "," + n) 0 ps))%nat.
Proof.
  revert p. induction ps as [|q ps IH]; intros p.
  - simpl. lia.
  - change (strings.Join (p :: q :: ps) ", ")
      with (p +:+ ", " +:+ strings.Join (q :: ps) ", ").
    rewrite !countByte_app, IH. simpl. lia.
Qed.

Lemma foldr_count_0 (ps : list string) :
  foldr (fun q n => countByte q "," + n)%nat 0%nat ps = 0%nat ->
  Forall (fun q => strings.hasByte q "," = false) ps.
Proof.
  induction ps as [|q ps IH]; simpl; intros Hz; constructor.
  - apply countByte_0. lia.
  - apply IH. lia.
Qed.

(** X17. The namespaces of a global rule survive the form exactly when they
    are [joinable]: splitting and trimming the patterns joined with ", "
    gives the patterns back if and only if the list is not empty and no
    pattern holds a comma or has white space at its ends. *)
Theorem X17_join_then_split (ps : list string) :
  splitAndTrim (strings.Join ps ", ") = ps <-> joinable ps.
Proof.
  split; [|apply splitAndTrim_Join].
  intros Heq. destruct ps as [|p ps].
  { by destruct (splitAndTrim_nonempty (strings.Join [] ", ")). }
  assert (Hcomma : Forall (fun q => strings.hasByte q "," = false) (p :: ps)).
  { pose proof (f_equal length Heq) as Hlen.
    unfold splitAndTrim in Hlen.
    rewrite length_map, Split_length, countByte_Join in Hlen.
    simpl in Hlen. constructor.
    - apply countByte_0. lia.
    - apply foldr_count_0. lia. }
  unfold splitAndTrim in Heq. rewrite Split_Join in Heq by done.
  cbn [map] in Heq. injection Heq as Hp Hps.
  split; [done|].
  inversion Hcomma as [|? ? Hcp Hcps]; subst. constructor; [done|].
  clear Hp Hcp Hcomma. revert Hps Hcps.
  induction ps as [|q ps IH]; intros Hps Hcps; [constructor|].
  cbn [map] in Hps. injection Hps as Hq Hps.
  inversion Hcps; subst. constructor; [|by apply IH].
  split; [done|]. by rewrite TrimSpace_space in Hq.
Qed.

Lemma parseUintLoop_range s : forall acc,
  0 <= acc <= strconv.maxUint64 ->
  0 <= fst (strconv.parseUintLoop s acc) <= strconv.maxUint64.
Proof.
  unfold strconv.maxUint64. change (2 ^ 64) with 18446744073709551616.
  induction s as [|c s IH]; intros acc Hacc; simpl; [done|].
  destruct (strconv.isDigit c); simpl; [|lia].
  unfold strconv.maxUint64. change (2 ^ 64) with 18446744073709551616.
  destruct (_ <=? acc); simpl; [lia|].
  destruct (_ || _) eqn:Hov; simpl; [lia|].
  apply orb_false_elim in Hov as [_ Hle]. apply Z.ltb_ge in Hle.
  apply IH. split; [|exact Hle].
  apply Z.mod_pos_bound. lia.
Qed.

(** X18. Whatever is typed into the threshold field, [Atoi] leaves a value
    of the range of [int]: the threshold the global rule form submits lies
    between [-2^63] and [2^63 - 1].  A threshold of that range printed with
    [%d], as the prefilled form does, is parsed back to itself without an
    error. *)
Theorem X18_threshold_is_an_int (type field : string) :
  - 2 ^ 63 <= fst (strconv.Atoi field) <= 2 ^ 63 - 1
  /\ - 2 ^ 63 <= submittedThreshold type field <= 2 ^ 63 - 1
  /\ (forall n, - 2 ^ 63 <= n < 2 ^ 63 ->
        strconv.Atoi (fmt.Sprintf_d n) = (n, None)
        /\ submittedThreshold GlobalRuleThresholdType (fmt.Sprintf_d n) = n).
Proof.
  assert (Hatoi : forall s,
            - 2 ^ 63 <= fst (strconv.Atoi s) <= 2 ^ 63 - 1).
  { intros s. unfold strconv.Atoi, strconv.ParseInt, strconv.intSize.
    change (2 ^ (64 - 1)) with (2 ^ 63).
    destruct s as [|c s]; [simpl; lia|].
    match goal with
    | |- context [strconv.ParseUint ?d] =>
        assert (Hun : 0 <= fst (strconv.ParseUint d) <= strconv.maxUint64)
    end.
    { unfold strconv.ParseUint.
      case_match; [simpl; unfold strconv.maxUint64; lia|].
      apply parseUintLoop_range. unfold strconv.maxUint64. lia. }
    destruct (strconv.ParseUint _) as [un [[|]|]]; simpl in *; try lia;
      repeat case_match; simpl;
      repeat match goal with
             | Hb : _ && _ = false |- _ => apply andb_false_iff in Hb as [Hb|Hb]
             | Hb : negb _ = false |- _ => apply negb_false_iff in Hb
             | Hb : (_ <=? _) = false |- _ => apply Z.leb_gt in Hb
             | Hb : (_ <? _) = false |- _ => apply Z.ltb_ge in Hb
             end; try congruence; lia. }
  split; [apply Hatoi|]. split.
  - unfold submittedThreshold.
    destruct (String.eqb type GlobalRuleThresholdType); [apply Hatoi|].
    split; vm_compute; discriminate.
  - intros n Hn. pose proof (Atoi_Sprintf_d n Hn) as Hrt.
    split; [exact Hrt|]. unfold submittedThreshold.
    change (String.eqb GlobalRuleThresholdType GlobalRuleThresholdType)
      with true. cbv iota. by rewrite Hrt.
Qed.

(** ** What [splitAndTrim] returns *)

Ltac trim_scan IH :=
  let c1 := fresh "c" in let c2 := fresh "c" in let c3 := fresh "c" in
  let l1 := fresh "l" in let l2 := fresh "l" in let l3 := fresh "l" in
  let E1 := fresh "E" in let E2 := fresh "E" in let E3 := fresh "E" in
  let use l pre0 :=
    (let pre := fresh "pre" in let Hpre := fresh "Hpre" in
     let Hid := fresh "Hid" in
     destruct (IH l ltac:(simpl in *; lia)) as [[pre Hpre] Hid];
     split; [exists (pre0 ++ pre); simpl; by rewrite <- Hpre | done]) in
  let stop :=
    (split; [by exists []|];
     cbn [strings.trimLeft strings.trimLeftRev];
     rewrite ?E1, ?E2, ?E3; done) in
  intros [|c1 l1] ?; [split; [by exists []|done]|];
  cbn [strings.trimLeft strings.trimLeftRev];
  match goal with |- context [strings.isSpace1 ?c] =>
    destruct (strings.isSpace1 c) eqn:E1 end; [use l1 [c1]|];
  destruct l1 as [|c2 l2]; [stop|];
  match goal with |- context [strings.isSpace2 ?a ?b] =>
    destruct (strings.isSpace2 a b) eqn:E2 end; [use l2 [c1; c2]|];
  destruct l2 as [|c3 l3]; [stop|];
  match goal with |- context [strings.isSpace3 ?a ?b ?c] =>
    destruct (strings.isSpace3 a b c) eqn:E3 end; [use l3 [c1; c2; c3]|];
  stop.

Lemma trimLeft_scan n : forall l, (length l <= n)%nat ->
  (exists pre, l = pre ++ strings.trimLeft l)
  /\ strings.trimLeft (strings.trimLeft l) = strings.trimLeft l.
Proof.
  induction n as [|n IH].
  - intros [|c l] Hl; [|simpl in Hl; lia]. split; [by exists []|done].
  - trim_scan IH.
Qed.

Lemma trimLeftRev_scan n : forall l, (length l <= n)%nat ->
  (exists pre, l = pre ++ strings.trimLeftRev l)
  /\ strings.trimLeftRev (strings.trimLeftRev l) = strings.trimLeftRev l.
Proof.
  induction n as [|n IH].
  - intros [|c l] Hl; [|simpl in Hl; lia]. split; [by exists []|done].
  - trim_scan IH.
Qed.

Lemma trimLeft_suffix l : exists pre, l = pre ++ strings.trimLeft l.
Proof. exact (proj1 (trimLeft_scan (length l) l (le_n _))). Qed.

Lemma trimLeftRev_suffix l : exists pre, l = pre ++ strings.trimLeftRev l.
Proof. exact (proj1 (trimLeftRev_scan (length l) l (le_n _))). Qed.

Lemma trimLeft_shorter l : (length (strings.trimLeft l) <= length l)%nat.
Proof.
  destruct (trimLeft_suffix l) as [pre Hpre]. rewrite Hpre at 2.
  rewrite length_app. lia.
Qed.

Lemma trimLeftRev_shorter l :
  (length (strings.trimLeftRev l) <= length l)%nat.
Proof.
  destruct (trimLeftRev_suffix l) as [pre Hpre]. rewrite Hpre at 2.
  rewrite length_app. lia.
Qed.

Lemma trimLeft_cons c1 l1 :
  strings.trimLeft (c1 :: l1)
  = if strings.isSpace1 c1 then strings.trimLeft l1
    else match l1 with
         | c2 :: l2 =>
             if strings.isSpace2 c1 c2 then strings.trimLeft l2
             else match l2 with
                  | c3 :: l3 =>
                      if strings.isSpace3 c1 c2 c3 then strings.trimLeft l3
                      else c1 :: l1
                  | [] => c1 :: l1
                  end
         | [] => c1 :: l1
         end.
Proof. reflexivity. Qed.

Lemma trimLeftRev_cons c1 l1 :
  strings.trimLeftRev (c1 :: l1)
  = if strings.isSpace1 c1 then strings.trimLeftRev l1
    else match l1 with
         | c2 :: l2 =>
             if strings.isSpace2 c2 c1 then strings.trimLeftRev l2
             else match l2 with
                  | c3 :: l3 =>
                      if strings.isSpace3 c3 c2 c1 then strings.trimLeftRev l3
                      else c1 :: l1
                  | [] => c1 :: l1
                  end
         | [] => c1 :: l1
         end.
Proof. reflexivity. Qed.

(** A scan that returns its argument does so on every prefix of it. *)
Ltac too_long shorter H :=
  exfalso;
  let Hs := fresh "Hs" in
  match type of H with
  | strings.trimLeft ?x = _ => pose proof (shorter x) as Hs
  | strings.trimLeftRev ?x = _ => pose proof (shorter x) as Hs
  end;
  rewrite H in Hs; simpl in Hs; lia.

Ltac trim_prefix shorter :=
  let H := fresh "H" in
  let c1 := fresh "c" in let c2 := fresh "c" in let c3 := fresh "c" in
  let l := fresh "l" in
  intros [|c1 l] post H; [done|];
  rewrite <- app_comm_cons in H;
  rewrite ?trimLeft_cons, ?trimLeftRev_cons in H |- *;
  destruct (strings.isSpace1 c1); [too_long shorter H|];
  destruct l as [|c2 l]; [done|]; cbn [app] in H |- *;
  match type of H with context [strings.isSpace2 ?a ?b] =>
    destruct (strings.isSpace2 a b) end; [too_long shorter H|];
  destruct l as [|c3 l]; [done|]; cbn [app] in H |- *;
  match type of H with context [strings.isSpace3 ?a ?b ?c] =>
    destruct (strings.isSpace3 a b c) end; [too_long shorter H|];
  done.

Lemma trimLeft_prefix : forall l post,
  strings.trimLeft (l ++ post) = l ++ post -> strings.trimLeft l = l.
Proof. trim_prefix trimLeft_shorter. Qed.

Lemma TrimSpace_bytes s :
  exists pre post,
    list_ascii_of_string s
    = pre ++ list_ascii_of_string (strings.TrimSpace s) ++ post.
Proof.
  unfold strings.TrimSpace, strings.trimRight.
  rewrite list_ascii_of_string_of_list_ascii.
  destruct (trimLeft_suffix (list_ascii_of_string s)) as [pre Hpre].
  destruct (trimLeftRev_suffix
              (rev (strings.trimLeft (list_ascii_of_string s))))
    as [post Hpost].
  exists pre, (rev post). rewrite <- rev_app_distr, <- Hpost.
  by rewrite rev_involutive.
Qed.

Lemma TrimSpace_idempotent s :
  strings.TrimSpace (strings.TrimSpace s) = strings.TrimSpace s.
Proof.
  set (a := strings.trimLeft (list_ascii_of_string s)).
  assert (Hl : list_ascii_of_string (strings.TrimSpace s)
               = rev (strings.trimLeftRev (rev a)))
    by apply list_ascii_of_string_of_list_ascii.
  assert (Ha : strings.trimLeft a = a)
    by exact (proj2 (trimLeft_scan _ _ (le_n _))).
  destruct (trimLeftRev_suffix (rev a)) as [post Hpost].
  assert (Hb : strings.trimLeft (rev (strings.trimLeftRev (rev a)))
               = rev (strings.trimLeftRev (rev a))).
  { apply (trimLeft_prefix _ (rev post)).
    by rewrite <- rev_app_distr, <- Hpost, rev_involutive. }
  unfold strings.TrimSpace at 1. rewrite Hl, Hb. unfold strings.trimRight.
  rewrite rev_involutive.
  by rewrite (proj2 (trimLeftRev_scan _ _ (le_n _))).
Qed.

Lemma hasByte_In s sep :
  strings.hasByte s sep = true <-> In sep (list_ascii_of_string s).
Proof.
  induction s as [|c s IH]; simpl; [split; [discriminate|done]|].
  by rewrite orb_true_iff, IH, Ascii.eqb_eq.
Qed.

Lemma TrimSpace_hasByte s sep :
  strings.hasByte s sep = false ->
  strings.hasByte (strings.TrimSpace s) sep = false.
Proof.
  intros Hs. apply not_true_is_false. intros Ht.
  apply hasByte_In in Ht. apply not_true_iff_false in Hs. apply Hs.
  apply hasByte_In. destruct (TrimSpace_bytes s) as (pre & post & ->).
  apply in_or_app. right. apply in_or_app. by left.
Qed.

Lemma Split_parts s sep :
  Forall (fun p => strings.hasByte p sep = false) (strings.Split s sep).
Proof.
  induction s as [|c s IH]; simpl; [by repeat constructor|].
  destruct (Ascii.eqb c sep) eqn:Hc; [by constructor|].
  destruct (strings.Split s sep) as [|p ps];
    [by repeat constructor; simpl; rewrite Hc|].
  inversion IH; subst. constructor; [|done]. simpl. by rewrite Hc.
Qed.

(** X19. What [splitAndTrim] returns is clean: there is at least one
    part, no part holds a comma, and no part starts or ends with white
    space ([TrimSpace] leaves it as it is).  So the principals and the
    namespaces a form submits are shown by the edit form, which joins them
    with a comma and a space, in a field that is split back into the same
    parts. *)
Theorem X19_submitted_parts_are_clean (s : string) :
  joinable (splitAndTrim s)
  /\ splitAndTrim (strings.Join (splitAndTrim s) ", ") = splitAndTrim s.
Proof.
  assert (Hj : joinable (splitAndTrim s)).
  { split; [apply splitAndTrim_nonempty|]. unfold splitAndTrim.
    apply Forall_map. eapply Forall_impl; [apply Split_parts|].
    intros p Hp. simpl. split; [by apply TrimSpace_hasByte|].
    apply TrimSpace_idempotent. }
  split; [exact Hj|]. by apply splitAndTrim_Join.
Qed.

End ConsoleFacts.

(** ** The [attest authorize] command *)

Section AuthorizeFacts.
Context `{authorize.Gittuf}.

Lemma Run_loaded (o : authorize.options) (args : list string) repo signer :
  authorize.LoadRepository = inl repo ->
  authorize.LoadSigner repo (authorize.p_SigningKey o) = inl signer ->
  authorize.Run o args =
    if authorize.revoke o then
      match args with
      | a0 :: a1 :: a2 :: _ =>
          authorize.call repo signer
            (authorize.CallRemoveReferenceAuthorization a0 a1 a2 true)
      | _ => authorize.Returns (Some authorize.insufficient) []
      end
    else
      match args with
      | a0 :: _ =>
          authorize.call repo signer
            (authorize.CallAddReferenceAuthorization
               a0 (authorize.fromRef o) true)
      | [] => authorize.Panics
      end.
Proof.
  intros Hr Hs. unfold authorize.Run. rewrite Hr, Hs.
  destruct (authorize.revoke o); [|by destruct args].
  by destruct args as [|a0 [|a1 [|a2 rest]]].
Qed.

Lemma Run_panics (o : authorize.options) (args : list string) :
  authorize.Run o args = authorize.Panics ->
  (exists repo signer,
      authorize.LoadRepository = inl repo
      /\ authorize.LoadSigner repo (authorize.p_SigningKey o) = inl signer)
  /\ authorize.revoke o = false /\ args = [].
Proof.
  intros Hp.
  destruct authorize.LoadRepository as [repo|e] eqn:Hr;
    [|by unfold authorize.Run in Hp; rewrite Hr in Hp].
  destruct (authorize.LoadSigner repo (authorize.p_SigningKey o))
    as [signer|e] eqn:Hs;
    [|by unfold authorize.Run in Hp; rewrite Hr, Hs in Hp].
  rewrite (Run_loaded o args repo signer Hr Hs) in Hp.
  destruct (authorize.revoke o).
  - by destruct args as [|a0 [|a1 [|a2 rest]]].
  - destruct args; [|done]. split_and!; [by exists repo, signer|done..].
Qed.

(** X20. An index expression of [Run] is out of range in one situation
    only: the repository and the signer are loaded, [revoke] is not set and
    there is no positional argument.  The command built by [New] rules it
    out: its argument validator [MinimumNArgs(1)] runs first, so a command
    line never makes [Run] panic; and [Run] is only reached with the
    [from-ref] flag given, on the options the flags were parsed into. *)
Theorem X20_authorize_never_panics
  (o : authorize.options) (key : string) (f : authorize.flags)
  (args : list string) :
  (authorize.Run o args = authorize.Panics <->
     (exists repo signer,
         authorize.LoadRepository = inl repo
         /\ authorize.LoadSigner repo (authorize.p_SigningKey o) = inl signer)
     /\ authorize.revoke o = false /\ args = [])
  /\ (forall r,
        authorize.execute (authorize.New key) f args = authorize.Ran r ->
        r <> authorize.Panics
        /\ args <> []
        /\ exists from,
             authorize.flag_fromRef f = Some from
             /\ r = authorize.Run
                      {| authorize.p_SigningKey := key;
                         authorize.fromRef := from;
                         authorize.revoke :=
                           default false (authorize.flag_revoke f) |} args).
Proof.
  split.
  - split; [apply Run_panics|].
    intros [(repo & signer & Hr & Hs) [Hrev ->]].
    by rewrite (Run_loaded o [] repo signer Hr Hs), Hrev.
  - intros r. unfold authorize.execute, authorize.New, authorize.AddFlags.
    cbn [authorize.Args authorize.RunE authorize.bound authorize.required
         authorize.p_SigningKey authorize.fromRef authorize.revoke].
    unfold authorize.MinimumNArgs.
    destruct args as [|a0 rest]; [done|]. cbn [length Nat.ltb Nat.leb].
    rewrite bool_decide_eq_true_2 by constructor.
    destruct (authorize.flag_fromRef f) as [from|] eqn:Hf; [|done].
    rewrite bool_decide_eq_true_2 by (by eexists). cbn [negb andb default].
    intros [= <-]. split_and!; [|done|by exists from].
    intros Hp. by apply Run_panics in Hp as (_ & _ & ?).
Qed.

(** X21. What a run that returns has done.  It made no call and returns
    an error (that of loading the repository, that of loading the signer, or
    the message on the parameters of a revocation given fewer than three
    arguments), or it made exactly one call, to sign: the removal of an
    authorization for the first three arguments when [revoke] is set, the
    addition of one for the first argument and [fromRef] otherwise, and it
    returns the result of that call.  So a run that returns [nil] made
    exactly one call. *)
Theorem X21_authorize_outcome
  (o : authorize.options) (args : list string) (err : option string)
  (calls : list authorize.Call) :
  authorize.Run o args = authorize.Returns err calls ->
  match calls with
  | [] =>
      (exists e, authorize.LoadRepository = inr e /\ err = Some e)
      \/ (exists repo e,
             authorize.LoadRepository = inl repo
             /\ authorize.LoadSigner repo (authorize.p_SigningKey o) = inr e
             /\ err = Some e)
      \/ (authorize.revoke o = true /\ (length args < 3)%nat
          /\ err = Some authorize.insufficient)
  | [c] =>
      (exists repo signer,
          authorize.LoadRepository = inl repo
          /\ authorize.LoadSigner repo (authorize.p_SigningKey o) = inl signer
          /\ err = authorize.perform repo signer c)
      /\ (if authorize.revoke o
          then exists a0 a1 a2 rest,
              args = a0 :: a1 :: a2 :: rest
              /\ c = authorize.CallRemoveReferenceAuthorization a0 a1 a2 true
          else exists a0 rest,
              args = a0 :: rest
              /\ c = authorize.CallAddReferenceAuthorization
                       a0 (authorize.fromRef o) true)
  | _ => False
  end.
Proof.
  intros Hrun.
  destruct authorize.LoadRepository as [repo|e] eqn:Hr.
  2: { unfold authorize.Run in Hrun. rewrite Hr in Hrun.
       injection Hrun as <- <-. left. by exists e. }
  destruct (authorize.LoadSigner repo (authorize.p_SigningKey o))
    as [signer|e] eqn:Hs.
  2: { unfold authorize.Run in Hrun. rewrite Hr, Hs in Hrun.
       injection Hrun as <- <-. right; left. by exists repo, e. }
  rewrite (Run_loaded o args repo signer Hr Hs) in Hrun.
  unfold authorize.call in Hrun.
  destruct (authorize.revoke o).
  - destruct args as [|a0 [|a1 [|a2 rest]]]; injection Hrun as <- <-;
      try (right; right; split_and!; [done|simpl; lia|done]).
    split; [by exists repo, signer|by exists a0, a1, a2, rest].
  - destruct args as [|a0 rest]; [done|]. injection Hrun as <- <-.
    split; [by exists repo, signer|by exists a0, rest].
Qed.

(** X22. [Run] reads a prefix of the positional arguments and nothing
    else of them: the first three when [revoke] is set, the first one
    otherwise; what follows is ignored without an error.  With [revoke] set
    the value of [fromRef] is not read either. *)
Theorem X22_authorize_reads_a_prefix
  (o : authorize.options) (args : list string) :
  ((if authorize.revoke o then 3 else 1) <= length args)%nat ->
  authorize.Run o args
  = authorize.Run o (take (if authorize.revoke o then 3 else 1)%nat args)
  /\ (authorize.revoke o = true ->
      forall from, authorize.Run (authorize.set_fromRef from o) args
                   = authorize.Run o args).
Proof.
  intros Hlen. unfold authorize.Run.
  destruct authorize.LoadRepository as [repo|e]; [|done].
  cbn [authorize.set_fromRef authorize.p_SigningKey authorize.revoke].
  destruct (authorize.LoadSigner repo (authorize.p_SigningKey o))
    as [signer|e]; [|done].
  destruct (authorize.revoke o).
  - destruct args as [|a0 [|a1 [|a2 rest]]]; simpl in Hlen; try lia. done.
  - destruct args as [|a0 rest]; simpl in Hlen; [lia|]. done.
Qed.

End AuthorizeFacts.

(** ** The console on the reference implementation *)

Import Ref.

Lemma after_reachable o r msgs :
  plays o r msgs = true -> reachable (after o r msgs).1 (after o r msgs).2.
Proof.
  unfold plays, after, play.
  destruct (initialModel o _) as [[m|e] w|] eqn:Hi; [|done..].
  destruct (run msgs m w) as [m' w'|] eqn:Hrun; [|done].
  intros _. simpl. eapply reachable_run; [|exact Hrun].
  by eapply reach_init.
Qed.

(** *** Instances of the theorems *)

Lemma scenario_reachable o r msgs (s : model * world) :
  plays o r msgs = true -> s = after o r msgs -> reachable s.1 s.2.
Proof. intros Hp ->. by apply after_reachable. Qed.

Ltac reach o r msgs :=
  apply (scenario_reachable o r msgs); vm_compute; reflexivity.

Lemma C8_witness :
  0 < len (inputs freshRuleForm.1)
  /\ focusIndex freshRuleForm.1 = 0
  /\ Forall forwardKey ["tab"; "down"; "tab"; "tab"]
  /\ focusIndex
       (fold_left (fun m key => cycleFocus key m) ["tab"; "down"; "tab"; "tab"]
          freshRuleForm.1) = 1.
Proof.
  assert (Hall : Forall forwardKey ["tab"; "down"; "tab"; "tab"])
    by (repeat constructor; (by left) || (by right)).
  assert (Hlen : 0 < len (inputs freshRuleForm.1)) by (vm_compute; reflexivity).
  assert (Hf : focusIndex freshRuleForm.1 = 0) by (vm_compute; reflexivity).
  split_and!; [exact Hlen | exact Hf | exact Hall |].
  destruct (C8_cycleFocus_mod freshRuleForm.1 _ Hlen Hf Hall) as [Hmod _].
  rewrite Hmod. vm_compute. reflexivity.
Defined.

Lemma C3_witness :
  confirmDelete rulesScreen.1 = false
  /\ Update rulesScreen.1 (KeyMsg "ctrl+c") rulesScreen.2
     = Done (rulesScreen.1, Quit) rulesScreen.2
  /\ confirmDelete overlayOpen.1 = true
  /\ Update overlayOpen.1 (KeyMsg "ctrl+c") overlayOpen.2
     = Done (set_deleteTarget "" (set_confirmDelete false overlayOpen.1),
             nilCmd) overlayOpen.2.
Proof.
  assert (H1 : confirmDelete rulesScreen.1 = false)
    by (vm_compute; reflexivity).
  assert (H2 : confirmDelete overlayOpen.1 = true) by (vm_compute; reflexivity).
  split_and!; [exact H1 | | exact H2 |].
  - exact (proj1 (C3_ctrl_c_quits_outside_overlay _ _) H1).
  - exact (proj2 (C3_ctrl_c_quits_outside_overlay _ _) H2).
Defined.

(** C3, as stated, fails with the overlay open: after [d] on the rules screen
    the console is reachable, and [ctrl+c] closes the overlay and returns no
    command. *)
Lemma C3_counterexample :
  reachable overlayOpen.1 overlayOpen.2
  /\ confirmDelete overlayOpen.1 = true
  /\ (exists m', Update overlayOpen.1 (KeyMsg "ctrl+c") overlayOpen.2
                 = Done (m', nilCmd) overlayOpen.2)
  /\ ~ (forall m w, reachable m w ->
          exists m' w', Update m (KeyMsg "ctrl+c") w = Done (m', Quit) w').
Proof.
  assert (Hr : reachable overlayOpen.1 overlayOpen.2)
    by reach opts repo0 (toRules ++ [KeyMsg "d"]).
  assert (Hu : exists m', Update overlayOpen.1 (KeyMsg "ctrl+c") overlayOpen.2
                          = Done (m', nilCmd) overlayOpen.2)
    by (eexists; vm_compute; reflexivity).
  split_and!; [exact Hr | vm_compute; reflexivity | exact Hu |].
  intros Hall. destruct (Hall _ _ Hr) as (m' & w' & Hq).
  destruct Hu as (m'' & Hu). rewrite Hu in Hq. discriminate.
Qed.

Lemma C5_witness :
  readOnly readOnlyRules.1 = true
  /\ onListScreen readOnlyRules.1
  /\ In "d" ["a"; "e"; "d"; "u"; "k"; "j"]
  /\ exists m' cmd,
       Update readOnlyRules.1 (KeyMsg "d") readOnlyRules.2
       = Done (m', cmd) readOnlyRules.2
       /\ rules m' = rules readOnlyRules.1
       /\ globalRules m' = globalRules readOnlyRules.1
       /\ m_screen m' = m_screen readOnlyRules.1
       /\ isFormScreen (m_screen m') = false.
Proof.
  assert (H1 : readOnly readOnlyRules.1 = true) by (vm_compute; reflexivity).
  assert (H2 : onListScreen readOnlyRules.1) by (left; vm_compute; reflexivity).
  assert (H3 : In "d" ["a"; "e"; "d"; "u"; "k"; "j"]) by (simpl; auto).
  split_and!; [exact H1 | exact H2 | exact H3 |].
  exact (C5_read_only_keys _ _ _ H1 H2 H3).
Defined.

Lemma C4_witness :
  reachable overlayOpen.1 overlayOpen.2
  /\ confirmDelete overlayOpen.1 = true
  /\ exists m' w',
       Update overlayOpen.1 (KeyMsg "Y") overlayOpen.2 = Done (m', nilCmd) w'
       /\ confirmDelete m' = false /\ deleteTarget m' = ""
       /\ w' = overlayOpen.2
       /\ rules m' = rules overlayOpen.1
       /\ globalRules m' = globalRules overlayOpen.1.
Proof.
  assert (Hr : reachable overlayOpen.1 overlayOpen.2)
    by reach opts repo0 (toRules ++ [KeyMsg "d"]).
  assert (Hc : confirmDelete overlayOpen.1 = true) by (vm_compute; reflexivity).
  split_and!; [exact Hr | exact Hc |].
  destruct (C4_delete_confirmation _ _ "Y" Hr Hc)
    as (m' & w' & Hu & Hc' & Ht & _ & Hn & _).
  destruct (Hn ltac:(discriminate)) as (Hw & Hrs & Hgs).
  exists m', w'. split_and!; assumption.
Defined.

Lemma C7_witness :
  reachable freshRuleForm.1 freshRuleForm.2
  /\ isFormScreen (m_screen freshRuleForm.1) = true
  /\ focusIndex freshRuleForm.1 < len (inputs freshRuleForm.1) - 1
  /\ Update freshRuleForm.1 (KeyMsg "enter") freshRuleForm.2
     = Done (cycleFocus "tab" freshRuleForm.1, nilCmd) freshRuleForm.2
  /\ focusIndex (cycleFocus "tab" freshRuleForm.1)
     = focusIndex freshRuleForm.1 + 1.
Proof.
  assert (Hr : reachable freshRuleForm.1 freshRuleForm.2)
    by reach opts repo0 (toRules ++ [KeyMsg "a"]).
  assert (Hf : isFormScreen (m_screen freshRuleForm.1) = true)
    by (vm_compute; reflexivity).
  assert (Hlt : focusIndex freshRuleForm.1 < len (inputs freshRuleForm.1) - 1)
    by (vm_compute; reflexivity).
  split_and!; [exact Hr | exact Hf | exact Hlt | ..];
    destruct (C7_enter_submits_on_last_field_only _ _ Hr Hf) as (Hadv & _);
    destruct (Hadv Hlt); assumption.
Defined.

Lemma C10_witness :
  confirmDelete ruleFormLast.1 = false
  /\ onPolicyForm ruleFormLast.1
  /\ map Value (inputs ruleFormLast.1) = ["R3"; "refs/heads/x"; ""]
  /\ focusIndex ruleFormLast.1 = 2
  /\ (exists m' w',
        Update ruleFormLast.1 (KeyMsg "enter") ruleFormLast.2
        = Done (m', nilCmd) w'
        /\ mutations w'
           = CallAddRule (mkRule "R3" "refs/heads/x" "") [""]
             :: mutations ruleFormLast.2)
  /\ confirmDelete globalFormLast.1 = false
  /\ onGlobalForm globalFormLast.1
  /\ map Value (inputs globalFormLast.1) = ["G3"; "block-force-pushes"; ""; ""]
  /\ focusIndex globalFormLast.1 = 3
  /\ (exists m' w',
        Update globalFormLast.1 (KeyMsg "enter") globalFormLast.2
        = Done (m', nilCmd) w'
        /\ mutations w'
           = CallAddGlobalRule (mkGlobalRule "G3" "block-force-pushes" [""] 0)
             :: mutations globalFormLast.2).
Proof.
  destruct C10_split_never_empty as (_ & _ & Hrule & Hglobal).
  assert (H1 : confirmDelete ruleFormLast.1 = false)
    by (vm_compute; reflexivity).
  assert (H2 : onPolicyForm ruleFormLast.1) by (left; vm_compute; reflexivity).
  assert (H3 : focusIndex ruleFormLast.1 = 2) by (vm_compute; reflexivity).
  assert (H4 : confirmDelete globalFormLast.1 = false)
    by (vm_compute; reflexivity).
  assert (H5 : onGlobalForm globalFormLast.1)
    by (left; vm_compute; reflexivity).
  assert (H6 : focusIndex globalFormLast.1 = 3) by (vm_compute; reflexivity).
  split_and!;
    [exact H1 | exact H2 | vm_compute; reflexivity | exact H3 |
    | exact H4 | exact H5 | vm_compute; reflexivity | exact H6 | ].
  - exact (Hrule ruleFormLast.1 ruleFormLast.2 _ _ _ H1 H2 eq_refl H3 eq_refl).
  - exact (Hglobal globalFormLast.1 globalFormLast.2 _ _ _ _ H4 H5 eq_refl H6
             eq_refl).
Defined.

Lemma C9_witness :
  confirmDelete thresholdTwo.1 = false
  /\ onGlobalForm thresholdTwo.1
  /\ map Value (inputs thresholdTwo.1)
     = ["T1"; "threshold"; "git:refs/heads/main"; "2"]
  /\ focusIndex thresholdTwo.1 = 3
  /\ (exists m' w',
        Update thresholdTwo.1 (KeyMsg "enter") thresholdTwo.2
        = Done (m', nilCmd) w'
        /\ mutations w'
           = CallAddGlobalRule
               (mkGlobalRule "T1" "threshold" ["git:refs/heads/main"] 2)
             :: mutations thresholdTwo.2)
  /\ confirmDelete thresholdDigitsThenLetter.1 = false
  /\ onGlobalForm thresholdDigitsThenLetter.1
  /\ map Value (inputs thresholdDigitsThenLetter.1)
     = ["T1"; "threshold"; "git:refs/heads/main"; "99999999999999999999x"]
  /\ focusIndex thresholdDigitsThenLetter.1 = 3
  /\ isDecimal "99999999999999999999x" = false
  /\ digitsOverflow "99999999999999999999x" = true
  /\ (exists m' w',
        Update thresholdDigitsThenLetter.1 (KeyMsg "enter")
          thresholdDigitsThenLetter.2
        = Done (m', nilCmd) w'
        /\ mutations w'
           = CallAddGlobalRule
               (mkGlobalRule "T1" "threshold" ["git:refs/heads/main"]
                  9223372036854775807)
             :: mutations thresholdDigitsThenLetter.2).
Proof.
  assert (H1 : confirmDelete thresholdTwo.1 = false)
    by (vm_compute; reflexivity).
  assert (H2 : onGlobalForm thresholdTwo.1) by (left; vm_compute; reflexivity).
  assert (H3 : focusIndex thresholdTwo.1 = 3) by (vm_compute; reflexivity).
  assert (L1 : confirmDelete thresholdDigitsThenLetter.1 = false)
    by (vm_compute; reflexivity).
  assert (L2 : onGlobalForm thresholdDigitsThenLetter.1)
    by (left; vm_compute; reflexivity).
  assert (L3 : focusIndex thresholdDigitsThenLetter.1 = 3)
    by (vm_compute; reflexivity).
  assert (L4 : isDecimal "99999999999999999999x" = false)
    by (vm_compute; reflexivity).
  assert (L5 : digitsOverflow "99999999999999999999x" = true)
    by (vm_compute; reflexivity).
  split_and!;
    [exact H1 | exact H2 | vm_compute; reflexivity | exact H3 |
    | exact L1 | exact L2 | vm_compute; reflexivity | exact L3
    | exact L4 | exact L5 |].
  - destruct (C9_threshold_of_submit thresholdTwo.1 thresholdTwo.2 _ _ _ _
                H1 H2 eq_refl H3)
      as (m' & w' & thr & Hu & Hmut & _ & Heq).
    destruct (Heq eq_refl) as (_ & _ & _ & _ & _ & Htwo).
    exists m', w'. split; [exact Hu|].
    rewrite Hmut, (Htwo eq_refl). vm_compute. reflexivity.
  - destruct (C9_threshold_of_submit thresholdDigitsThenLetter.1
                thresholdDigitsThenLetter.2 _ _ _ _ L1 L2 eq_refl L3)
      as (m' & w' & thr & Hu & Hmut & _ & Heq).
    destruct (Heq eq_refl) as (_ & _ & Hno & _).
    destruct (Hno L4) as [_ Hov]. destruct (Hov L5) as [Hthr _].
    exists m', w'. split; [exact Hu|].
    rewrite Hmut, Hthr. vm_compute. reflexivity.
Defined.

(** C9, as stated, fails on a threshold field that holds a decimal number out
    of the range of [int]: [Atoi] returns a range error, so the field does
    not parse as an integer, and the rule submitted has the largest [int] as
    its threshold, not 0. *)
Lemma C9_counterexample :
  reachable thresholdTooLarge.1 thresholdTooLarge.2
  /\ map Value (inputs thresholdTooLarge.1)
     = ["T1"; "threshold"; "git:refs/heads/main"; "9223372036854775808"]
  /\ strconv.Atoi "9223372036854775808"
     = (9223372036854775807, Some strconv.ErrRange)
  /\ (exists m' w',
        Update thresholdTooLarge.1 (KeyMsg "enter") thresholdTooLarge.2
        = Done (m', nilCmd) w'
        /\ mutations w'
           = [CallAddGlobalRule
                (mkGlobalRule "T1" "threshold" ["git:refs/heads/main"]
                   9223372036854775807)])
  /\ ~ (forall m w i0 i1 i2 i3 m' cmd w' gr,
          reachable m w -> onGlobalForm m ->
          inputs m = [i0; i1; i2; i3] -> focusIndex m = 3 ->
          Value i1 = GlobalRuleThresholdType ->
          snd (strconv.Atoi (Value i3)) <> None ->
          Update m (KeyMsg "enter") w = Done (m', cmd) w' ->
          head (mutations w') = Some (globalSubmitCall (m_screen m) gr) ->
          threshold gr = 0).
Proof.
  assert (Hr : reachable thresholdTooLarge.1 thresholdTooLarge.2)
    by reach opts repo0 (newThresholdRule "9223372036854775808").
  assert (Hu : exists m' w',
             Update thresholdTooLarge.1 (KeyMsg "enter") thresholdTooLarge.2
             = Done (m', nilCmd) w'
             /\ mutations w'
                = [CallAddGlobalRule
                     (mkGlobalRule "T1" "threshold" ["git:refs/heads/main"]
                        9223372036854775807)])
    by (eexists _, _; split; vm_compute; reflexivity).
  split_and!;
    [exact Hr | vm_compute; reflexivity | vm_compute; reflexivity | exact Hu |].
  intros Hall. destruct Hu as (m' & w' & Hu & Hmut).
  specialize (Hall thresholdTooLarge.1 thresholdTooLarge.2 _ _ _ _ m' nilCmd w'
                (mkGlobalRule "T1" "threshold" ["git:refs/heads/main"]
                   9223372036854775807)
                Hr ltac:(left; vm_compute; reflexivity) eq_refl
                ltac:(vm_compute; reflexivity) eq_refl
                ltac:(vm_compute; discriminate) Hu).
  rewrite Hmut in Hall. specialize (Hall eq_refl). discriminate.
Qed.

Lemma C1_witness :
  rules secondRuleSelected.1 = [] ++ R1 :: R2 :: []
  /\ snd (repoReorderRules (options_ secondRuleSelected.1)
            ([] ++ R2 :: R1 :: []) (repo secondRuleSelected.2))
     = Some "unable to write policy"
  /\ list_Index (ruleList secondRuleSelected.1) = len (@nil rule) + 1
  /\ (exists m' w',
        handleReorderUp secondRuleSelected.1 secondRuleSelected.2
        = Done (m', nilCmd) w'
        /\ rules m' = [R2; R1]
        /\ footer m' = "Error reordering rules: unable to write policy"
        /\ ruleList m' = ruleList secondRuleSelected.1)
  /\ rules firstRuleSelected.1 = [] ++ R1 :: R2 :: []
  /\ list_Index (ruleList firstRuleSelected.1) = len (@nil rule)
  /\ (exists m' w',
        handleReorderDown firstRuleSelected.1 firstRuleSelected.2
        = Done (m', nilCmd) w'
        /\ rules m' = [R2; R1]
        /\ footer m' = "Error reordering rules: unable to write policy"
        /\ ruleList m' = ruleList firstRuleSelected.1).
Proof.
  assert (H1 : rules secondRuleSelected.1 = [] ++ R1 :: R2 :: [])
    by (vm_compute; reflexivity).
  assert (H2 : snd (repoReorderRules (options_ secondRuleSelected.1)
                      ([] ++ R2 :: R1 :: []) (repo secondRuleSelected.2))
               = Some "unable to write policy")
    by (vm_compute; reflexivity).
  assert (H3 : list_Index (ruleList secondRuleSelected.1) = len (@nil rule) + 1)
    by (vm_compute; reflexivity).
  assert (H4 : rules firstRuleSelected.1 = [] ++ R1 :: R2 :: [])
    by (vm_compute; reflexivity).
  assert (H5 : snd (repoReorderRules (options_ firstRuleSelected.1)
                      ([] ++ R2 :: R1 :: []) (repo firstRuleSelected.2))
               = Some "unable to write policy")
    by (vm_compute; reflexivity).
  assert (H6 : list_Index (ruleList firstRuleSelected.1) = len (@nil rule))
    by (vm_compute; reflexivity).
  split_and!; [exact H1 | exact H2 | exact H3 | | exact H4 | exact H6 |].
  - destruct (C1_failed_reorder_keeps_the_swap _ _ _ _ _ _ _ H1 H2) as [Hup _].
    destruct (Hup H3) as (m' & w' & Hu & Hrs & Hf & Hl & _).
    exists m', w'. split_and!; assumption.
  - destruct (C1_failed_reorder_keeps_the_swap _ _ _ _ _ _ _ H4 H5) as [_ Hdn].
    destruct (Hdn H6) as (m' & w' & Hu & Hrs & Hf & Hl & _).
    exists m', w'. split_and!; assumption.
Defined.

(** C1, as stated, fails: with the second of two rules selected and a store
    that refuses the write, [u] leaves the rules of the model exchanged while
    the rules of the store are in their old order. *)
Lemma C1_counterexample :
  reachable secondRuleSelected.1 secondRuleSelected.2
  /\ rules secondRuleSelected.1 = [R1; R2]
  /\ (exists m' w',
        Update secondRuleSelected.1 (KeyMsg "u") secondRuleSelected.2
        = Done (m', nilCmd) w'
        /\ handleReorderUp secondRuleSelected.1 secondRuleSelected.2
           = Done (m', nilCmd) w'
        /\ mutations w' = [CallReorderRules [R2; R1]]
        /\ footer m' = "Error reordering rules: unable to write policy"
        /\ rules m' = [R2; R1]
        /\ getCurrRules (options_ m') (repo w') = [R1; R2])
  /\ ~ (forall m w m' cmd w' e,
          reachable m w ->
          handleReorderUp m w = Done (m', cmd) w' ->
          mutations w' = CallReorderRules (rules m') :: mutations w ->
          snd (repoReorderRules (options_ m) (rules m') (repo w)) = Some e ->
          rules m' = rules m).
Proof.
  assert (Hr : reachable secondRuleSelected.1 secondRuleSelected.2)
    by reach opts lockedRepo (toRules ++ [KeyMsg "down"]).
  assert (Hu : exists m' w',
        Update secondRuleSelected.1 (KeyMsg "u") secondRuleSelected.2
        = Done (m', nilCmd) w'
        /\ handleReorderUp secondRuleSelected.1 secondRuleSelected.2
           = Done (m', nilCmd) w'
        /\ mutations w' = [CallReorderRules [R2; R1]]
        /\ footer m' = "Error reordering rules: unable to write policy"
        /\ rules m' = [R2; R1]
        /\ getCurrRules (options_ m') (repo w') = [R1; R2])
    by (eexists _, _; split_and!; vm_compute; reflexivity).
  split_and!; [exact Hr | vm_compute; reflexivity | exact Hu |].
  intros Hall. destruct Hu as (m' & w' & _ & Hu & Hmut & _ & Hrs & _).
  specialize (Hall _ _ _ _ _ "unable to write policy" Hr Hu).
  rewrite Hmut, Hrs in Hall.
  specialize (Hall ltac:(vm_compute; reflexivity)
                ltac:(vm_compute; reflexivity)).
  vm_compute in Hall. discriminate.
Qed.

Lemma C2_witness :
  Update footerOnForm.1 (KeyMsg "tab") footerOnForm.2
  = Done (cycleFocus "tab" footerOnForm.1, nilCmd) footerOnForm.2
  /\ confirmDelete footerOnForm.1 = false
  /\ isFormScreen (m_screen footerOnForm.1) = true
  /\ forwardKey "tab"
  /\ footer footerOnForm.1 = "Rule removed successfully!"
  /\ footer (cycleFocus "tab" footerOnForm.1) = footer footerOnForm.1.
Proof.
  assert (Hu : Update footerOnForm.1 (KeyMsg "tab") footerOnForm.2
               = Done (cycleFocus "tab" footerOnForm.1, nilCmd) footerOnForm.2)
    by (vm_compute; reflexivity).
  assert (H1 : confirmDelete footerOnForm.1 = false)
    by (vm_compute; reflexivity).
  assert (H2 : isFormScreen (m_screen footerOnForm.1) = true)
    by (vm_compute; reflexivity).
  assert (H3 : forwardKey "tab") by (by left).
  split_and!;
    [exact Hu | exact H1 | exact H2 | exact H3 | vm_compute; reflexivity |].
  destruct (C2_footer_persists _ _ _ _ _ _ Hu) as (_ & _ & Hfw).
  exact (Hfw H1 H2 (or_introl H3)).
Defined.

(** C2, as stated, fails for the backward focus keys: on the rule form, with
    the focus on the second field and the footer of a deletion still shown,
    [up] clears the footer. *)
Lemma C2_counterexample :
  reachable footerOnForm.1 footerOnForm.2
  /\ m_screen footerOnForm.1 = screenPolicyAddRule
  /\ focusIndex footerOnForm.1 = 1
  /\ footer footerOnForm.1 = "Rule removed successfully!"
  /\ (exists m',
        Update footerOnForm.1 (KeyMsg "up") footerOnForm.2
        = Done (m', nilCmd) footerOnForm.2
        /\ footer m' = "")
  /\ ~ (forall m w key m' cmd w',
          reachable m w -> isFormScreen (m_screen m) = true ->
          In key ["tab"; "shift+tab"; "up"; "down"] ->
          Update m (KeyMsg key) w = Done (m', cmd) w' ->
          footer m' = footer m).
Proof.
  assert (Hr : reachable footerOnForm.1 footerOnForm.2)
    by reach opts repo0 formWithFooter.
  assert (Hu : exists m',
             Update footerOnForm.1 (KeyMsg "up") footerOnForm.2
             = Done (m', nilCmd) footerOnForm.2
             /\ footer m' = "")
    by (eexists; split; vm_compute; reflexivity).
  split_and!;
    [exact Hr | vm_compute; reflexivity | vm_compute; reflexivity
    | vm_compute; reflexivity | exact Hu |].
  intros Hall. destruct Hu as (m' & Hu & Hf).
  specialize (Hall _ _ "up" _ _ _ Hr ltac:(vm_compute; reflexivity)
                ltac:(simpl; auto) Hu).
  rewrite Hf in Hall. vm_compute in Hall. discriminate.
Qed.

Lemma C6_witness :
  readOnly rulesScreen.1 = false
  /\ confirmDelete rulesScreen.1 = false
  /\ m_screen rulesScreen.1 = screenPolicyRules
  /\ list_SelectedItem (ruleList rulesScreen.1) = Some (ruleItem R1)
  /\ find (fun r => String.eqb (name r) (title (ruleItem R1)))
       (rules rulesScreen.1) = Some R1
  /\ keptAsIs (name R1) /\ keptAsIs (pattern R1) /\ keptAsIs (key R1)
  /\ (exists m' w',
        run (editAndSubmit 3) rulesScreen.1 rulesScreen.2 = Done m' w'
        /\ mutations w'
           = CallUpdateRule (mkRule "R1" "refs/heads/main" "alice") ["alice"]
             :: mutations rulesScreen.2
        /\ m_screen m' = screenPolicyRules
        /\ footer m' = "Rule updated successfully!")
  /\ m_screen globalRulesOfRepo0.1 = screenTrustGlobalRules
  /\ list_SelectedItem (globalRuleList globalRulesOfRepo0.1)
     = Some (globalRuleItem G1)
  /\ formFaithful G1
  /\ (exists m' w',
        run (editAndSubmit 4) globalRulesOfRepo0.1 globalRulesOfRepo0.2
        = Done m' w'
        /\ mutations w'
           = CallUpdateGlobalRule G1 :: mutations globalRulesOfRepo0.2
        /\ m_screen m' = screenTrustGlobalRules
        /\ footer m' = "Global rule updated!").
Proof.
  assert (H1 : readOnly rulesScreen.1 = false) by (vm_compute; reflexivity).
  assert (H2 : confirmDelete rulesScreen.1 = false)
    by (vm_compute; reflexivity).
  assert (H3 : m_screen rulesScreen.1 = screenPolicyRules)
    by (vm_compute; reflexivity).
  assert (H4 : list_SelectedItem (ruleList rulesScreen.1) = Some (ruleItem R1))
    by (vm_compute; reflexivity).
  assert (H5 : find (fun r => String.eqb (name r) (title (ruleItem R1)))
                 (rules rulesScreen.1) = Some R1)
    by (vm_compute; reflexivity).
  assert (H6 : keptAsIs (name R1)) by (vm_compute; reflexivity).
  assert (H7 : keptAsIs (pattern R1)) by (vm_compute; reflexivity).
  assert (H8 : keptAsIs (key R1)) by (vm_compute; reflexivity).
  assert (G1' : readOnly globalRulesOfRepo0.1 = false)
    by (vm_compute; reflexivity).
  assert (G2' : confirmDelete globalRulesOfRepo0.1 = false)
    by (vm_compute; reflexivity).
  assert (G3 : m_screen globalRulesOfRepo0.1 = screenTrustGlobalRules)
    by (vm_compute; reflexivity).
  assert (G4 : list_SelectedItem (globalRuleList globalRulesOfRepo0.1)
               = Some (globalRuleItem G1))
    by (vm_compute; reflexivity).
  assert (G5 : find (fun gr => String.eqb (ruleName gr)
                                 (title (globalRuleItem G1)))
                 (globalRules globalRulesOfRepo0.1) = Some G1)
    by (vm_compute; reflexivity).
  assert (G6 : formFaithful G1).
  { unfold formFaithful, joinable.
    split_and!; try (vm_compute; reflexivity).
    - discriminate.
    - repeat constructor.
    - intros _. split_and!; vm_compute; (reflexivity || discriminate). }
  split_and!;
    [exact H1 | exact H2 | exact H3 | exact H4 | exact H5 | exact H6
    | exact H7 | exact H8 | | exact G3 | exact G4 | exact G6 |].
  - destruct (C6_unchanged_edit_resubmits_the_entity rulesScreen.1
                rulesScreen.2 (ruleItem R1) H1 H2) as [Hrule _].
    destruct (Hrule R1 H3 H4 H5 H6 H7 H8) as (m' & w' & Hrun & Hmut & Hok).
    destruct (Hok ltac:(vm_compute; reflexivity)) as [Hs Hf].
    exists m', w'. split_and!; [exact Hrun | | exact Hs | exact Hf].
    rewrite Hmut. vm_compute. reflexivity.
  - destruct (C6_unchanged_edit_resubmits_the_entity globalRulesOfRepo0.1
                globalRulesOfRepo0.2 (globalRuleItem G1) G1' G2')
      as [_ Hglobal].
    destruct (Hglobal G1 G3 G4 G5 G6)
      as (m' & w' & Hrun & Hmut & _ & _ & _ & _ & Hok).
    destruct (Hok ltac:(vm_compute; reflexivity)) as [Hs Hf].
    exists m', w'. split_and!; [exact Hrun | | exact Hs | exact Hf].
    rewrite Hmut. vm_compute. reflexivity.
Defined.

(** C6, as stated, fails for a global rule with a comma in a pattern: the
    patterns are joined with commas in the form and split at every comma on
    submit, so the update carries three patterns for the two of the rule. *)
Lemma C6_counterexample :
  reachable globalRulesScreen.1 globalRulesScreen.2
  /\ globalRules globalRulesScreen.1 = [G2]
  /\ list_SelectedItem (globalRuleList globalRulesScreen.1)
     = Some (globalRuleItem G2)
  /\ (exists m' w',
        run (editAndSubmit 4) globalRulesScreen.1 globalRulesScreen.2
        = Done m' w'
        /\ mutations w'
           = [CallUpdateGlobalRule
                (mkGlobalRule "G2" "block-force-pushes"
                   ["git:refs/heads/main"; "file:docs/a"; "b.md"] 0)])
  /\ ~ (forall m w sel gr m' w' gr',
          reachable m w -> m_screen m = screenTrustGlobalRules ->
          list_SelectedItem (globalRuleList m) = Some sel ->
          find (fun gr => String.eqb (ruleName gr) (title sel))
            (globalRules m) = Some gr ->
          run (editAndSubmit 4) m w = Done m' w' ->
          head (mutations w') = Some (CallUpdateGlobalRule gr') ->
          rulePatterns gr' = rulePatterns gr).
Proof.
  assert (Hr : reachable globalRulesScreen.1 globalRulesScreen.2)
    by reach opts repo2 toGlobalRules.
  assert (Hu : exists m' w',
        run (editAndSubmit 4) globalRulesScreen.1 globalRulesScreen.2
        = Done m' w'
        /\ mutations w'
           = [CallUpdateGlobalRule
                (mkGlobalRule "G2" "block-force-pushes"
                   ["git:refs/heads/main"; "file:docs/a"; "b.md"] 0)])
    by (eexists _, _; split; vm_compute; reflexivity).
  split_and!;
    [exact Hr | vm_compute; reflexivity | vm_compute; reflexivity | exact Hu |].
  intros Hall. destruct Hu as (m' & w' & Hu & Hmut).
  specialize (Hall _ _ (globalRuleItem G2) G2 _ _
                (mkGlobalRule "G2" "block-force-pushes"
                   ["git:refs/heads/main"; "file:docs/a"; "b.md"] 0)
                Hr ltac:(vm_compute; reflexivity)
                ltac:(vm_compute; reflexivity)
                ltac:(vm_compute; reflexivity) Hu).
  rewrite Hmut in Hall. specialize (Hall eq_refl). discriminate.
Qed.

Lemma X1_witness :
  Update rulesScreen.1 (KeyMsg "a") rulesScreen.2
  = Done (freshRuleForm.1, nilCmd) freshRuleForm.2
  /\ edge (m_screen rulesScreen.1) (m_screen freshRuleForm.1) = true.
Proof.
  assert (Hu : Update rulesScreen.1 (KeyMsg "a") rulesScreen.2
               = Done (freshRuleForm.1, nilCmd) freshRuleForm.2)
    by (vm_compute; reflexivity).
  split; [exact Hu|].
  exact (X1_steps_follow_the_navigation_graph _ _ _ _ _ _ Hu).
Defined.

Lemma X2_witness :
  reachable readOnlyRules.1 readOnlyRules.2
  /\ readOnly readOnlyRules.1 = true
  /\ run writingKeys readOnlyRules.1 readOnlyRules.2
     = Done readOnlyAfterKeys.1 readOnlyAfterKeys.2
  /\ readOnly readOnlyAfterKeys.1 = true
  /\ mutations readOnlyAfterKeys.2 = mutations readOnlyRules.2
  /\ isFormScreen (m_screen readOnlyAfterKeys.1) = false
  /\ confirmDelete readOnlyAfterKeys.1 = false.
Proof.
  assert (Hr : reachable readOnlyRules.1 readOnlyRules.2)
    by reach readOnlyOpts repo0 toRules.
  assert (Hro : readOnly readOnlyRules.1 = true) by (vm_compute; reflexivity).
  assert (Hrun : run writingKeys readOnlyRules.1 readOnlyRules.2
                 = Done readOnlyAfterKeys.1 readOnlyAfterKeys.2)
    by (vm_compute; reflexivity).
  split_and!; [exact Hr | exact Hro | exact Hrun | ..];
    destruct (X2_read_only_session_never_writes _ _ _ _ _ Hr Hro Hrun)
      as (? & ? & ? & ?); assumption.
Defined.

Lemma X3_witness :
  reachable rulesScreen.1 rulesScreen.2
  /\ onListScreen rulesScreen.1
  /\ readOnly rulesScreen.1 = false
  /\ confirmDelete rulesScreen.1 = false
  /\ list_SelectedItem (ruleList rulesScreen.1) = Some (ruleItem R1)
  /\ "n" <> "y"
  /\ run [KeyMsg "d"; KeyMsg "n"] rulesScreen.1 rulesScreen.2
     = Done rulesScreen.1 rulesScreen.2.
Proof.
  assert (Hr : reachable rulesScreen.1 rulesScreen.2)
    by reach opts repo0 toRules.
  assert (H1 : onListScreen rulesScreen.1) by (left; vm_compute; reflexivity).
  assert (H2 : readOnly rulesScreen.1 = false) by (vm_compute; reflexivity).
  assert (H3 : confirmDelete rulesScreen.1 = false)
    by (vm_compute; reflexivity).
  assert (H4 : list_SelectedItem (ruleList rulesScreen.1) = Some (ruleItem R1))
    by (vm_compute; reflexivity).
  assert (H5 : "n" <> "y") by discriminate.
  split_and!; [exact Hr | exact H1 | exact H2 | exact H3 | exact H4 | exact H5 |].
  exact (proj2 (X3_cancelled_deletion_is_a_no_op rulesScreen.1 rulesScreen.2
                  (ruleItem R1) "n" Hr H1 H2 H3 H4 H5)).
Defined.

Lemma X4_witness :
  m_screen rulesScreen.1 = screenPolicyRules
  /\ readOnly rulesScreen.1 = false
  /\ confirmDelete rulesScreen.1 = false
  /\ list_SelectedItem (ruleList rulesScreen.1) = Some (ruleItem R1)
  /\ exists m' w',
       run [KeyMsg "d"; KeyMsg "y"] rulesScreen.1 rulesScreen.2 = Done m' w'
       /\ mutations w' = [CallRemoveRule (mkRule "R1" "" "")]
       /\ confirmDelete m' = false /\ deleteTarget m' = ""
       /\ m_screen m' = screenPolicyRules.
Proof.
  assert (H1 : m_screen rulesScreen.1 = screenPolicyRules)
    by (vm_compute; reflexivity).
  assert (H2 : readOnly rulesScreen.1 = false) by (vm_compute; reflexivity).
  assert (H3 : confirmDelete rulesScreen.1 = false)
    by (vm_compute; reflexivity).
  assert (H4 : list_SelectedItem (ruleList rulesScreen.1) = Some (ruleItem R1))
    by (vm_compute; reflexivity).
  split_and!; [exact H1 | exact H2 | exact H3 | exact H4 |].
  destruct (X4_confirmed_rule_deletion rulesScreen.1 rulesScreen.2
              (ruleItem R1) H1 H2 H3 H4)
    as (m' & w' & Hrun & Hmut & _ & Hc & Ht & Hs & _).
  exists m', w'. split_and!; [exact Hrun | | exact Hc | exact Ht | exact Hs].
  rewrite Hmut. vm_compute. reflexivity.
Defined.

Lemma X5_witness :
  list_Index (ruleList firstRuleSelected.1) <= 0
  /\ handleReorderUp firstRuleSelected.1 firstRuleSelected.2
     = Done (firstRuleSelected.1, nilCmd) firstRuleSelected.2
  /\ len (rules secondRuleSelected.1) - 1
     <= list_Index (ruleList secondRuleSelected.1)
  /\ handleReorderDown secondRuleSelected.1 secondRuleSelected.2
     = Done (secondRuleSelected.1, nilCmd) secondRuleSelected.2.
Proof.
  assert (H1 : list_Index (ruleList firstRuleSelected.1) <= 0)
    by (vm_compute; discriminate).
  assert (H2 : len (rules secondRuleSelected.1) - 1
               <= list_Index (ruleList secondRuleSelected.1))
    by (vm_compute; discriminate).
  split_and!; [exact H1 | | exact H2 |].
  - destruct (X5_reorder_permutes_the_rules firstRuleSelected.1
                firstRuleSelected.2) as (_ & Hup & _).
    exact (Hup H1).
  - destruct (X5_reorder_permutes_the_rules secondRuleSelected.1
                secondRuleSelected.2) as (_ & _ & Hdn).
    exact (Hdn H2).
Defined.

Lemma X6_witness :
  rules secondRuleWritable.1 = [] ++ R1 :: R2 :: []
  /\ snd (repoReorderRules (options_ secondRuleWritable.1)
            ([] ++ R2 :: R1 :: []) (repo secondRuleWritable.2)) = None
  /\ list_Index (ruleList secondRuleWritable.1) = len (@nil rule) + 1
  /\ exists m' w',
       handleReorderUp secondRuleWritable.1 secondRuleWritable.2
       = Done (m', nilCmd) w'
       /\ rules m' = [R2; R1]
       /\ footer m' = "Rules reordered successfully!".
Proof.
  assert (H1 : rules secondRuleWritable.1 = [] ++ R1 :: R2 :: [])
    by (vm_compute; reflexivity).
  assert (H2 : snd (repoReorderRules (options_ secondRuleWritable.1)
                      ([] ++ R2 :: R1 :: []) (repo secondRuleWritable.2))
               = None)
    by (vm_compute; reflexivity).
  assert (H3 : list_Index (ruleList secondRuleWritable.1)
               = len (@nil rule) + 1)
    by (vm_compute; reflexivity).
  split_and!; [exact H1 | exact H2 | exact H3 |].
  destruct (X6_accepted_reorder _ _ _ _ _ _ H1 H2) as [Hup _].
  destruct (Hup H3) as (m' & w' & Hu & Hrs & _ & Hf & _).
  exists m', w'. split_and!; assumption.
Defined.

Lemma X7_witness :
  reachable secondRuleWritable.1 secondRuleWritable.2
  /\ cursorInRules secondRuleWritable.1
  /\ exists m' cmd w',
       Update secondRuleWritable.1 (KeyMsg "u") secondRuleWritable.2
       = Done (m', cmd) w'.
Proof.
  assert (Hr : reachable secondRuleWritable.1 secondRuleWritable.2)
    by reach opts repo0 (toRules ++ [KeyMsg "down"]).
  assert (Hc : cursorInRules secondRuleWritable.1)
    by (split; [vm_compute; discriminate | intros _; vm_compute; reflexivity]).
  split_and!; [exact Hr | exact Hc |].
  exact (X7_no_index_out_of_range _ _ (KeyMsg "u") Hr Hc).
Defined.

Lemma X8_witness :
  confirmDelete freshRuleForm.1 = false
  /\ isFormScreen (m_screen freshRuleForm.1) = true
  /\ run (repeat (KeyMsg "esc") 3) freshRuleForm.1 freshRuleForm.2
     = Done (set_m_screen screenChoice (set_footer "" freshRuleForm.1))
         freshRuleForm.2
  /\ escTarget (escTarget (m_screen freshRuleForm.1)) <> screenChoice.
Proof.
  assert (H1 : confirmDelete freshRuleForm.1 = false)
    by (vm_compute; reflexivity).
  assert (H2 : isFormScreen (m_screen freshRuleForm.1) = true)
    by (vm_compute; reflexivity).
  split_and!; [exact H1 | exact H2 | |].
  - exact (proj1 (X8_esc_unwinds_to_the_first_screen _ _ H1)).
  - exact (proj2 (proj2 (X8_esc_unwinds_to_the_first_screen
                           freshRuleForm.1 freshRuleForm.2 H1) H2)).
Defined.

Lemma X10_witness :
  0 <= focusIndex freshRuleForm.1 < len (inputs freshRuleForm.1)
  /\ Forall backwardKey ["up"; "shift+tab"]
  /\ focusIndex
       (fold_left (fun m key => cycleFocus key m) ["up"; "shift+tab"]
          freshRuleForm.1) = 1.
Proof.
  assert (H1 : 0 <= focusIndex freshRuleForm.1 < len (inputs freshRuleForm.1))
    by (split; [vm_compute; discriminate | vm_compute; reflexivity]).
  assert (H2 : Forall backwardKey ["up"; "shift+tab"])
    by (repeat constructor; (by left) || (by right)).
  split; [exact H1 | split; [exact H2 |]].
  destruct (X10_backward_cycles freshRuleForm.1 _ H1 H2) as [Hmod _].
  rewrite Hmod. vm_compute. reflexivity.
Defined.

Lemma X11_witness :
  confirmDelete ruleFormLast.1 = false
  /\ onPolicyForm ruleFormLast.1
  /\ focusIndex ruleFormLast.1 = 2
  /\ exists m' w',
       Update ruleFormLast.1 (KeyMsg "enter") ruleFormLast.2
       = Done (m', nilCmd) w'
       /\ m_screen m' = screenPolicyRules
       /\ inputs m' = inputs ruleFormLast.1.
Proof.
  assert (H1 : confirmDelete ruleFormLast.1 = false)
    by (vm_compute; reflexivity).
  assert (H2 : onPolicyForm ruleFormLast.1) by (left; vm_compute; reflexivity).
  assert (H3 : focusIndex ruleFormLast.1 = 2) by (vm_compute; reflexivity).
  split_and!; [exact H1 | exact H2 | exact H3 |].
  pose proof (X11_rule_submit_outcome ruleFormLast.1 ruleFormLast.2 _ _ _
                H1 H2 eq_refl H3) as Hx.
  cbv zeta in Hx.
  match type of Hx with
  | match ?s with _ => _ end =>
      assert (Hn : s = None) by (vm_compute; reflexivity);
      rewrite Hn in Hx
  end.
  destruct Hx as (m' & Hu & Hs & _ & _ & _ & Hi).
  eexists m', _. split_and!; [exact Hu | exact Hs | exact Hi].
Defined.

Lemma X12_witness :
  confirmDelete globalFormLast.1 = false
  /\ onGlobalForm globalFormLast.1
  /\ focusIndex globalFormLast.1 = 3
  /\ exists m' w',
       Update globalFormLast.1 (KeyMsg "enter") globalFormLast.2
       = Done (m', nilCmd) w'
       /\ m_screen m' = screenTrustGlobalRules
       /\ inputs m' = inputs globalFormLast.1.
Proof.
  assert (H1 : confirmDelete globalFormLast.1 = false)
    by (vm_compute; reflexivity).
  assert (H2 : onGlobalForm globalFormLast.1)
    by (left; vm_compute; reflexivity).
  assert (H3 : focusIndex globalFormLast.1 = 3) by (vm_compute; reflexivity).
  split_and!; [exact H1 | exact H2 | exact H3 |].
  pose proof (X12_global_rule_submit_outcome globalFormLast.1 globalFormLast.2
                _ _ _ _ H1 H2 eq_refl H3) as Hx.
  cbv zeta in Hx.
  match type of Hx with
  | match ?s with _ => _ end =>
      assert (Hn : s = None) by (vm_compute; reflexivity);
      rewrite Hn in Hx
  end.
  destruct Hx as (m' & Hu & Hs & _ & _ & _ & Hi).
  eexists m', _. split_and!; [exact Hu | exact Hs | exact Hi].
Defined.

Lemma X13_witness :
  confirmDelete policyMenu.1 = false
  /\ m_screen policyMenu.1 = screenPolicy
  /\ list_SelectedItem (policyScreenList policyMenu.1)
     = Some (mkItem "View Rules" "View and manage policy rules")
  /\ exists m',
       Update policyMenu.1 (KeyMsg "enter") policyMenu.2
       = Done (m', nilCmd)
           (mkWorld (repo policyMenu.2) (CallGetCurrRules :: calls policyMenu.2))
       /\ m_screen m' = screenPolicyRules
       /\ rules m' = getCurrRules (options_ policyMenu.1) (repo policyMenu.2).
Proof.
  assert (H1 : confirmDelete policyMenu.1 = false) by (vm_compute; reflexivity).
  assert (H2 : m_screen policyMenu.1 = screenPolicy)
    by (vm_compute; reflexivity).
  assert (H3 : list_SelectedItem (policyScreenList policyMenu.1)
               = Some (mkItem "View Rules" "View and manage policy rules"))
    by (vm_compute; reflexivity).
  split_and!; [exact H1 | exact H2 | exact H3 |].
  destruct (X13_enter_loads_the_collection policyMenu.1 policyMenu.2
              (mkItem "View Rules" "View and manage policy rules") H1)
    as [Hp _].
  destruct (Hp H2 H3) as (m' & Hu & Hs & Hrs & _).
  exists m'. split_and!; assumption.
Defined.

Lemma X14_witness :
  onListScreen rulesScreen.1
  /\ readOnly rulesScreen.1 = false
  /\ confirmDelete rulesScreen.1 = false
  /\ exists m',
       Update rulesScreen.1 (KeyMsg "a") rulesScreen.2
       = Done (m', nilCmd) rulesScreen.2
       /\ Forall (fun t => Value t = "") (inputs m')
       /\ focusIndex m' = 0.
Proof.
  assert (H1 : onListScreen rulesScreen.1) by (left; vm_compute; reflexivity).
  assert (H2 : readOnly rulesScreen.1 = false) by (vm_compute; reflexivity).
  assert (H3 : confirmDelete rulesScreen.1 = false)
    by (vm_compute; reflexivity).
  split_and!; [exact H1 | exact H2 | exact H3 |].
  destruct (X14_add_opens_an_empty_form rulesScreen.1 rulesScreen.2 H1 H2 H3)
    as (m' & Hu & _ & Hv & _ & Hf & _).
  exists m'. split_and!; assumption.
Defined.

Lemma X15_witness :
  m_screen rulesScreen.1 = screenPolicyRules
  /\ readOnly rulesScreen.1 = false
  /\ confirmDelete rulesScreen.1 = false
  /\ list_SelectedItem (ruleList rulesScreen.1) = Some (ruleItem R1)
  /\ rules rulesScreen.1 = [] ++ R1 :: [R2]
  /\ name R1 = title (ruleItem R1)
  /\ exists m',
       Update rulesScreen.1 (KeyMsg "e") rulesScreen.2
       = Done (m', nilCmd) rulesScreen.2
       /\ m_screen m' = screenPolicyEditRule
       /\ map Value (inputs m') = ["R1"; "refs/heads/main"; "alice"].
Proof.
  assert (H1 : m_screen rulesScreen.1 = screenPolicyRules)
    by (vm_compute; reflexivity).
  assert (H2 : readOnly rulesScreen.1 = false) by (vm_compute; reflexivity).
  assert (H3 : confirmDelete rulesScreen.1 = false)
    by (vm_compute; reflexivity).
  assert (H4 : list_SelectedItem (ruleList rulesScreen.1) = Some (ruleItem R1))
    by (vm_compute; reflexivity).
  assert (H5 : rules rulesScreen.1 = [] ++ R1 :: [R2])
    by (vm_compute; reflexivity).
  assert (H6 : name R1 = title (ruleItem R1)) by (vm_compute; reflexivity).
  split_and!; [exact H1 | exact H2 | exact H3 | exact H4 | exact H5 | exact H6 |].
  destruct (X15_edit_takes_the_first_match rulesScreen.1 rulesScreen.2
              (ruleItem R1) H1 H2 H3 H4) as [Hfirst _].
  destruct (Hfirst [] R1 [R2] H5 H6 (Forall_nil_2 _))
    as (m' & Hu & Hs & Hv & _).
  exists m'. split_and!; [exact Hu | exact Hs |].
  rewrite Hv. vm_compute. reflexivity.
Defined.

Lemma X18_witness :
  - 2 ^ 63 <= 2 < 2 ^ 63
  /\ strconv.Atoi (fmt.Sprintf_d 2) = (2, None)
  /\ submittedThreshold GlobalRuleThresholdType (fmt.Sprintf_d 2) = 2.
Proof.
  assert (H1 : - 2 ^ 63 <= 2 < 2 ^ 63)
    by (split; [vm_compute; discriminate | vm_compute; reflexivity]).
  split; [exact H1|].
  destruct (X18_threshold_is_an_int "threshold" "2") as (_ & _ & Hrt).
  exact (Hrt 2 H1).
Defined.

Lemma X20_witness :
  @authorize.Run authorize.memory
    {| authorize.p_SigningKey := "alice.pub"; authorize.fromRef := "feature";
       authorize.revoke := false |} []
  = authorize.Panics
  /\ authorize.execute (@authorize.New authorize.memory "alice.pub")
       {| authorize.flag_fromRef := Some "feature";
          authorize.flag_revoke := None |} ["main"]
     = authorize.Ran
         (authorize.Returns None
            [authorize.CallAddReferenceAuthorization "main" "feature" true])
  /\ authorize.Returns None
       [authorize.CallAddReferenceAuthorization "main" "feature" true]
     <> authorize.Panics.
Proof.
  assert (Hex : authorize.execute (@authorize.New authorize.memory "alice.pub")
                  {| authorize.flag_fromRef := Some "feature";
                     authorize.flag_revoke := None |} ["main"]
                = authorize.Ran
                    (authorize.Returns None
                       [authorize.CallAddReferenceAuthorization
                          "main" "feature" true]))
    by (vm_compute; reflexivity).
  split_and!; [|exact Hex|].
  - apply (@X20_authorize_never_panics authorize.memory
             {| authorize.p_SigningKey := "alice.pub";
                authorize.fromRef := "feature";
                authorize.revoke := false |}
             "alice.pub"
             {| authorize.flag_fromRef := Some "feature";
                authorize.flag_revoke := None |} []).
    split_and!; [|reflexivity..].
    exists tt, "alice.pub". split; reflexivity.
  - destruct (@X20_authorize_never_panics authorize.memory
                {| authorize.p_SigningKey := "alice.pub";
                   authorize.fromRef := "feature";
                   authorize.revoke := false |}
                "alice.pub"
                {| authorize.flag_fromRef := Some "feature";
                   authorize.flag_revoke := None |} ["main"]) as [_ Hran].
    exact (proj1 (Hran _ Hex)).
Defined.

Lemma X21_witness :
  @authorize.Run authorize.memory
    {| authorize.p_SigningKey := "alice.pub"; authorize.fromRef := "feature";
       authorize.revoke := false |} ["main"; "extra"]
  = authorize.Returns None
      [authorize.CallAddReferenceAuthorization "main" "feature" true]
  /\ exists a0 rest,
       ["main"; "extra"] = a0 :: rest
       /\ authorize.CallAddReferenceAuthorization "main" "feature" true
          = authorize.CallAddReferenceAuthorization a0 "feature" true.
Proof.
  assert (Hrun : @authorize.Run authorize.memory
            {| authorize.p_SigningKey := "alice.pub";
               authorize.fromRef := "feature";
               authorize.revoke := false |} ["main"; "extra"]
          = authorize.Returns None
              [authorize.CallAddReferenceAuthorization "main" "feature" true])
    by (vm_compute; reflexivity).
  split; [exact Hrun|].
  exact (proj2 (@X21_authorize_outcome authorize.memory _ _ _ _ Hrun)).
Defined.

Lemma X22_witness :
  (3 <= length ["main"; "7f3a"; "c0de"; "extra"])%nat
  /\ @authorize.Run authorize.memory
       {| authorize.p_SigningKey := "alice.pub"; authorize.fromRef := "";
          authorize.revoke := true |} ["main"; "7f3a"; "c0de"; "extra"]
     = @authorize.Run authorize.memory
         {| authorize.p_SigningKey := "alice.pub"; authorize.fromRef := "";
            authorize.revoke := true |} ["main"; "7f3a"; "c0de"].
Proof.
  assert (Hlen : (3 <= length ["main"; "7f3a"; "c0de"; "extra"])%nat)
    by (simpl; lia).
  split; [exact Hlen|].
  exact (proj1 (@X22_authorize_reads_a_prefix authorize.memory
                  {| authorize.p_SigningKey := "alice.pub";
                     authorize.fromRef := ""; authorize.revoke := true |}
                  ["main"; "7f3a"; "c0de"; "extra"] Hlen)).
Defined.
